(** * devi: diff-position resolution and review aggregation

    A shallow embedding of the TypeScript sources
    - [src/providers.ts]                       (class [ReviewEngineCore]),
    - [src/review-engine.ts]                   (class [ReviewEngine]),
    - [src/providers/api-provider-base.ts]     (class [ApiProviderBase]),
    - [src/scripts/smartfix/engines/analyser.ts],
    - [src/config/config-loader.ts]            ([ConfigLoader.getLLMProvider])
    and the properties of them that the specification states, followed by
    further properties read off the code.

    Conventions of the embedding.
    - A JavaScript string is the list of its UTF-16 code units ([jsstring]).
    - A JavaScript number that the code uses as a line number, a count or a
      position is a mathematical integer ([Z]); the embedding is exact for
      magnitudes below 2^53, and the properties whose truth depends on the
      value of such a number carry that bound ([SafeIntegers]).
    - A value produced by [JSON.parse] is a [json]; [undefined] is [None] of
      [option json].
    - Code that can throw returns [result A]; [try]/[catch] is [try_catch].
    - [console.log] and friends have no effect on any result and are left
      out; the loop of [reviewPR] that logs the findings is modelled for the
      exceptions that evaluating its message can raise. *)

From Stdlib Require Import ZArith NArith QArith Ascii String List Bool Lia.
From stdpp Require Import base option list gmap pretty.

Local Open Scope Z_scope.
#[local] Set Warnings "-register-all".

(** ** Part I. The embedding *)

(* ------------------------------------------------------------------ *)
(** *** JavaScript strings *)

Module Js.

Abbreviation jsstring := (list N).

(** An ASCII literal as a JavaScript string. *)
Definition js (s : string) : jsstring :=
  map N_of_ascii (list_ascii_of_string s).

(** The code units of one Unicode code point (a surrogate pair above the
    basic plane), for the emoji of the message templates. *)
Definition codePoint (cp : N) : jsstring :=
  if (cp <? 65536)%N then [cp]
  else [(55296 + (cp - 65536) / 1024)%N; (56320 + (cp - 65536) mod 1024)%N].

Definition LF : N := 10%N.

(** [s.startsWith(p)] *)
Fixpoint startsWith (s p : jsstring) {struct p} : bool :=
  match p, s with
  | [], _ => true
  | _ :: _, [] => false
  | a :: p', b :: s' => (a =? b)%N && startsWith s' p'
  end.

(** [s.split(sep)] for a one-unit separator: never empty, and the list of
    the empty string for the empty string. *)
Fixpoint split (sep : N) (s : jsstring) : list jsstring :=
  match s with
  | [] => [[]]
  | c :: s' =>
      if (c =? sep)%N then [] :: split sep s'
      else match split sep s' with
           | l :: ls => (c :: l) :: ls
           | [] => [[c]]
           end
  end.

(** [parts.join(sep)] *)
Fixpoint join (sep : jsstring) (parts : list jsstring) : jsstring :=
  match parts with
  | [] => []
  | [p] => p
  | p :: ps => p ++ sep ++ join sep ps
  end.

(** [s.includes(sub)] *)
Fixpoint includes (s sub : jsstring) : bool :=
  startsWith s sub ||
  match s with
  | [] => false
  | _ :: s' => includes s' sub
  end.

(** The suffix of [s] that starts at its first unit satisfying [p]. *)
Fixpoint dropUntil (p : N -> bool) (s : jsstring) : jsstring :=
  match s with
  | c :: s' => if p c then s else dropUntil p s'
  | [] => []
  end.

(** The class [\s] of regular expressions, which is also what [trim]
    strips: WhiteSpace and LineTerminator of ECMAScript. *)
Definition isWhiteSpace (c : N) : bool :=
  ((9 <=? c) && (c <=? 13) || (c =? 32) || (c =? 160) || (c =? 5760)
   || (8192 <=? c) && (c <=? 8202) || (c =? 8232) || (c =? 8233)
   || (c =? 8239) || (c =? 8287) || (c =? 12288) || (c =? 65279))%N.

Definition trimStart (s : jsstring) : jsstring :=
  dropUntil (fun c => negb (isWhiteSpace c)) s.

Definition trimEnd (s : jsstring) : jsstring := rev (trimStart (rev s)).

(** [s.trim()] *)
Definition trim (s : jsstring) : jsstring := trimEnd (trimStart s).

(** The class [\d]. *)
Definition isDigit (c : N) : bool := ((48 <=? c) && (c <=? 57))%N.

(** [parseInt(d, 10)] on a run of digits: its value, which is the number
    that the code gets as long as the value is at most 2^53; above, the
    code gets the value rounded to a double.  The properties that depend
    on the value of a header number carry that bound
    ([SafeIntegers]). *)
Definition parseInt (d : jsstring) : Z :=
  fold_left (fun acc c => 10 * acc + (Z.of_N c - 48)) d 0.

(** [`${n}`] for an integer. *)
Definition showNumber (n : Z) : jsstring := js (pretty n).

End Js.
Import Js.

(* ------------------------------------------------------------------ *)
(** *** JavaScript values, exceptions and the runtime *)

Module JsValue.

(** What [JSON.parse] produces.  An object keeps its members in source
    order; a repeated key reads as its last occurrence. *)
Inductive json :=
| JNull
| JBool (b : bool)
| JNum (q : Q)
| JStr (s : jsstring)
| JArr (items : list json)
| JObj (members : list (jsstring * json)).

(** A thrown [Error]: its [name] and its [message]. *)
Record JsError := { errName : jsstring; errMessage : jsstring }.

Inductive result (A : Type) :=
| Ok (a : A)
| Throw (e : JsError).
Arguments Ok {A} a.
Arguments Throw {A} e.

#[global] Instance result_ret : MRet result := fun A a => Ok a.
#[global] Instance result_bind : MBind result :=
  fun A B f m => match m with Ok a => f a | Throw e => Throw e end.

(** [try { m } catch (e) { h e }] *)
Definition try_catch {A} (m : result A) (h : JsError -> result A) : result A :=
  match m with
  | Ok a => Ok a
  | Throw e => h e
  end.

(** The built-ins the sources call and this file does not define. *)
Class JsRuntime := {
  (** [JSON.parse(text)]; [None] when the text is malformed. *)
  parseJson : jsstring -> option json;
  (** The message of the [SyntaxError] that [JSON.parse] then throws. *)
  syntaxErrorMessage : jsstring -> jsstring;
  (** [JSON.stringify(value)] *)
  JSON_stringify : json -> jsstring;
  (** [s.toUpperCase()] *)
  toUpperCase : jsstring -> jsstring;
  (** [s.replace(/needle/g, replacement)] for a literal needle. *)
  replaceAll : jsstring -> jsstring -> jsstring -> jsstring;
  (** The message of the [TypeError] raised by reading a property of
      [null] or [undefined], or by calling what is not a function; the
      argument names the expression. *)
  typeErrorMessage : jsstring -> jsstring;
  (** [`${q}`] for a number that is not an integer below 10^21 in
      magnitude (the integers that print as their digits). *)
  fractionToString : Q -> jsstring;
  (** [v > 0] for the values whose conversion to a number goes through
      the string-to-number grammar. *)
  coercedGt0 : json -> bool;
  (** [`${Object.prototype[key]}`] when [key] names a property every
      object inherits, [None] otherwise. *)
  objectPrototypeText : jsstring -> option jsstring
}.

(** Truthiness; [None] is [undefined]. *)
Definition truthy (v : option json) : bool :=
  match v with
  | None | Some JNull => false
  | Some (JBool b) => b
  | Some (JNum q) => negb (Qnum q =? 0)
  | Some (JStr s) => match s with [] => false | _ => true end
  | Some (JArr _) | Some (JObj _) => true
  end.

Definition numberOfNat (n : nat) : json := JNum (inject_Z (Z.of_nat n)).

(** The own member [key] of an object. *)
Definition lookupMember (key : jsstring) (members : list (jsstring * json))
  : option json :=
  fold_left
    (fun acc m => if decide (m.1 = key) then Some m.2 else acc)
    members None.

(** Whether a parsed value converts to a string ([`${v}`], [s + v])
    without an exception.  An object converts through the inherited
    [toString] unless it has a member of that name, which is no function:
    then nothing gives a primitive value and the conversion throws a
    [TypeError].  An array converts its elements, [null] apart. *)
Fixpoint interpolates (v : json) : bool :=
  match v with
  | JObj members =>
      match lookupMember (js "toString") members with
      | Some _ => false
      | None => true
      end
  | JArr items =>
      forallb (fun x => match x with JNull => true | _ => interpolates x end) items
  | _ => true
  end.

Section WithRuntime.
Context `{JsRuntime}.

(** [JSON.parse(text)] *)
Definition JSON_parse (text : jsstring) : result json :=
  match parseJson text with
  | Some v => Ok v
  | None =>
      Throw {| errName := js "SyntaxError";
               errMessage := syntaxErrorMessage text |}
  end.

Definition typeError (expr : jsstring) : JsError :=
  {| errName := js "TypeError"; errMessage := typeErrorMessage expr |}.

Definition numberToString (q : Q) : jsstring :=
  let r := Qred q in
  if (Zpos (Qden r) =? 1) && (Z.abs (Qnum r) <? 10 ^ 21)
  then showNumber (Qnum r) else fractionToString q.

(** [String(v)], as string concatenation and template literals apply it
    to a value that converts ([interpolates]). *)
Fixpoint toStr (v : json) : jsstring :=
  match v with
  | JNull => js "null"
  | JBool true => js "true"
  | JBool false => js "false"
  | JNum q => numberToString q
  | JStr s => s
  | JArr items =>
      join (js ",")
        (map (fun x => match x with JNull => [] | _ => toStr x end) items)
  | JObj _ => js "[object Object]"
  end.

(** [v.key] for a key that is neither [length], an index, nor a member of
    a built-in prototype. *)
Definition getProp (v : option json) (key : jsstring) : result (option json) :=
  match v with
  | None | Some JNull => Throw (typeError key)
  | Some (JObj members) => Ok (lookupMember key members)
  | Some _ => Ok None
  end.

(** [v.length] of a value that is neither [null] nor [undefined]. *)
Definition getLength (v : json) : option json :=
  match v with
  | JArr items => Some (numberOfNat (length items))
  | JStr s => Some (numberOfNat (length s))
  | JObj members => lookupMember (js "length") members
  | _ => None
  end.

(** [v[0]] of a value that is neither [null] nor [undefined]. *)
Definition getIndex0 (v : json) : option json :=
  match v with
  | JArr items => head items
  | JStr s => match s with c :: _ => Some (JStr [c]) | [] => None end
  | JObj members => lookupMember (js "0") members
  | _ => None
  end.

(** [v > 0] *)
Definition gt0 (v : option json) : bool :=
  match v with
  | None | Some JNull => false
  | Some (JBool b) => b
  | Some (JNum q) => 0 <? Qnum q
  | Some w => coercedGt0 w
  end.

(** [a || b] *)
Definition orElse (a : option json) (b : json) : json :=
  match a with
  | Some v => if truthy a then v else b
  | None => b
  end.

End WithRuntime.

End JsValue.
Import JsValue.

(* ------------------------------------------------------------------ *)
(** *** The two hunk-header regular expressions

    Both expressions are sequences of literals and greedy digit runs in
    which every run is followed by a literal that is not a digit, so a
    shorter run can never succeed where the longest fails: matching at a
    given index is deterministic. *)

Module HunkRegex.

(** A literal: the rest of the subject after it. *)
Definition lit (p s : jsstring) : option jsstring :=
  if startsWith s p then Some (drop (length p) s) else None.

(** The longest run of digits at the head of [s], and what follows. *)
Fixpoint spanDigits (s : jsstring) : jsstring * jsstring :=
  match s with
  | c :: s' =>
      if isDigit c then let (d, r) := spanDigits s' in (c :: d, r)
      else ([], s)
  | [] => ([], [])
  end.

(** [\d+] *)
Definition digits1 (s : jsstring) : option (jsstring * jsstring) :=
  match spanDigits s with
  | ([], _) => None
  | (d, r) => Some (d, r)
  end.

(** A run of digits that is not empty. *)
Definition digitRun (d : jsstring) : Prop :=
  d <> [] /\ Forall (fun c => isDigit c = true) d.

(** No digit comes first in [r]. *)
Definition noDigitAhead (r : jsstring) : Prop :=
  match r with
  | c :: _ => isDigit c = false
  | [] => True
  end.

(** [/@@ -\d+,\d+ \+(\d+)/] tried at index 0: the capture group. *)
Definition matchStartAt (s : jsstring) : option jsstring :=
  s1 ← lit (js "@@ -") s;
  '(_, s2) ← digits1 s1;
  s3 ← lit (js ",") s2;
  '(_, s4) ← digits1 s3;
  s5 ← lit (js " +") s4;
  '(n, _) ← digits1 s5;
  Some n.

(** [line.match(/@@ -\d+,\d+ \+(\d+)/)]: the leftmost match. *)
Fixpoint matchStart (s : jsstring) : option jsstring :=
  match matchStartAt s with
  | Some n => Some n
  | None => match s with
            | [] => None
            | _ :: s' => matchStart s'
            end
  end.

(** [/@@ -\d+,\d+ \+(\d+),(\d+) @@/] tried at index 0: the two capture
    groups and the length of the match. *)
Definition matchHunkAt (s : jsstring) : option (jsstring * jsstring * nat) :=
  s1 ← lit (js "@@ -") s;
  '(_, s2) ← digits1 s1;
  s3 ← lit (js ",") s2;
  '(_, s4) ← digits1 s3;
  s5 ← lit (js " +") s4;
  '(n, s6) ← digits1 s5;
  s7 ← lit (js ",") s6;
  '(q, s8) ← digits1 s7;
  s9 ← lit (js " @@") s8;
  Some (n, q, (length s - length s9)%nat).

(** The loop [while ((match = hunkRegex.exec(patch)) !== null)] of a global
    expression: the matches from left to right, each search resuming where
    the previous match ended ([skip] units of the subject still belong to
    it). *)
Fixpoint execAll (s : jsstring) (skip : nat) : list (jsstring * jsstring) :=
  match s with
  | [] => []
  | _ :: s' =>
      match skip with
      | S k => execAll s' k
      | O =>
          match matchHunkAt s with
          | Some (n, q, len) => (n, q) :: execAll s' (len - 1)
          | None => execAll s' 0
          end
      end
  end.

End HunkRegex.

(* ------------------------------------------------------------------ *)
(** *** [ReviewEngineCore] (src/providers.ts) *)

Module ReviewEngineCore.

(** [isLineInHunk(patch, line)].  The sum and the comparisons are those
    of the code when [startLine + numLines] is a safe integer
    ([SafeIntegers.safeHunks]). *)
Definition isLineInHunk (patch : jsstring) (line : Z) : bool :=
  existsb
    (fun m : jsstring * jsstring =>
       let startLine := parseInt m.1 in
       let numLines := parseInt m.2 in
       (startLine <=? line) && (line <? startLine + numLines))
    (HunkRegex.execAll patch 0).

(** One iteration of the [for] loop of [getPositionInDiff] and the rest of
    the iterations; [None] is [null].  [currentLine] is that of the code
    when the header numbers and the target are safe integers
    ([SafeIntegers.safeStarts]): above 2^53 the [currentLine++] of the
    code stops growing. *)
Fixpoint scanLines (lines : list jsstring) (currentLine position targetLine : Z)
  : option Z :=
  match lines with
  | [] => None
  | line :: rest =>
      let position := position + 1 in
      if startsWith line (js "@@") then
        let currentLine :=
          match HunkRegex.matchStart line with
          | Some n => parseInt n - 1
          | None => currentLine
          end in
        scanLines rest currentLine position targetLine
      else if startsWith line (js "+") || startsWith line (js " ") then
        let currentLine := currentLine + 1 in
        if currentLine =? targetLine then Some position
        else scanLines rest currentLine position targetLine
      else scanLines rest currentLine position targetLine
  end.

(** [getPositionInDiff(patch, targetLine)] *)
Definition getPositionInDiff (patch : jsstring) (targetLine : Z) : option Z :=
  scanLines (split LF patch) 0 0 targetLine.

(** The arguments of [octokit.issues.createComment]. *)
Record CommentArgs := {
  ic_owner : jsstring;
  ic_repo : jsstring;
  ic_issue_number : Z;
  ic_body : jsstring
}.

Inductive ReviewEvent := REQUEST_CHANGES | COMMENT.

(** An element of the [comments] of a review. *)
Record InlineComment := {
  c_path : jsstring;
  c_position : Z;
  c_body : jsstring
}.

(** The arguments of [octokit.pulls.createReview]. *)
Record ReviewArgs := {
  rv_owner : jsstring;
  rv_repo : jsstring;
  rv_pull_number : Z;
  rv_commit_id : jsstring;
  rv_body : jsstring;
  rv_event : ReviewEvent;
  rv_comments : list InlineComment
}.

(** What one run of [postReview] sends. *)
Inductive Posting :=
| NoPosting
| CreateComment (args : CommentArgs)
| CreateReview (args : ReviewArgs).

(** Modelled from the spec: the declarations of [./review-engine-types]
    are not among the sources.  [FilterStats] and [PostReviewContext] have
    the members that [postReview] reads of [this.context]. *)
Record FilterStats := {
  ignored : Z;
  tooLarge : Z;
  reviewed : Z;
  total : Z
}.

(** Modelled from the spec: see [FilterStats]; [filterStats] may be
    [undefined]. *)
Record PostReviewContext := {
  llmName : jsstring;
  modelName : jsstring;
  filterStats : option FilterStats
}.

(** Modelled from the spec: an element of the file listing of section 6,
    [{filename, status, patch?, additions, deletions, changes}]; the class
    reads [filename] and the optional [patch]. *)
Record PRFile := {
  pr_filename : jsstring;
  pr_patch : option jsstring
}.

(** Modelled from the spec: the Finding of section 3.  Its severity is
    high, medium, low or unspecified: a string, or [undefined], that
    [postReview] compares with the three names; [line] and [suggestion]
    are optional. *)
Record ReviewFinding := {
  severity : option jsstring;
  category : jsstring;
  filename : jsstring;
  line : option Z;
  message : jsstring;
  suggestion : option jsstring
}.

(** The constructor's [new Map(filesToReview.map(f => [f.filename, f.patch || '']))];
    a later file of the same name replaces an earlier one. *)
Definition filePatches (filesToReview : list PRFile) : gmap jsstring jsstring :=
  fold_left
    (fun m f => <[pr_filename f := default [] (pr_patch f)]> m)
    filesToReview ∅.

Definition hasSeverity (name : string) (f : ReviewFinding) : bool :=
  bool_decide (severity f = Some (js name)).

(** [!f.severity || (f.severity !== 'high' && f.severity !== 'medium' && f.severity !== 'low')] *)
Definition isOther (f : ReviewFinding) : bool :=
  match severity f with
  | None | Some [] => true
  | Some _ =>
      negb (hasSeverity "high" f) && negb (hasSeverity "medium" f)
      && negb (hasSeverity "low" f)
  end.

Section WithRuntime.
Context `{JsRuntime}.

Definition bulb : jsstring := codePoint 128161.

(** The title and the coverage statistics. *)
Definition reviewTitle (ctx : PostReviewContext) : jsstring :=
  js "## " ++ codePoint 129302 ++ js " AI Code Review (" ++ llmName ctx
  ++ js " (" ++ modelName ctx ++ js "))" ++ [LF; LF].

Definition coverage (ctx : PostReviewContext) : jsstring :=
  match filterStats ctx with
  | Some st =>
      if (0 <? ignored st) || (0 <? tooLarge st) then
        let skipped :=
          (if 0 <? ignored st
           then [showNumber (ignored st) ++ js " config/docs"] else [])
          ++ (if 0 <? tooLarge st
              then [showNumber (tooLarge st) ++ js " too large"] else []) in
        codePoint 128202 ++ js " **Coverage:** Reviewed "
        ++ showNumber (reviewed st) ++ js " of " ++ showNumber (total st)
        ++ js " files"
        ++ (if (0 <? length skipped)%nat
            then js " (" ++ join (js ", ") skipped ++ js ")" else [])
        ++ [LF; LF]
      else []
  | None => []
  end.

Definition foundLine (findings : list ReviewFinding) : jsstring :=
  js "Found " ++ showNumber (Z.of_nat (length findings)) ++ js " issue"
  ++ (if negb (length findings =? 1)%nat then js "s" else [])
  ++ js ":" ++ [LF; LF].

(** The body of the four [forEach] callbacks: the entry of one finding. *)
Definition renderFinding (f : ReviewFinding) : jsstring :=
  js "* **[" ++ toUpperCase (category f) ++ js "]** `" ++ filename f
  ++ (match line f with
      | Some l => if l =? 0 then [] else js ":" ++ showNumber l
      | None => []
      end)
  ++ js "`" ++ [LF]
  ++ js "  " ++ message f ++ [LF]
  ++ (match suggestion f with
      | Some (c :: s) => js "  " ++ bulb ++ js " *" ++ (c :: s) ++ js "*" ++ [LF]
      | _ => []
      end)
  ++ [LF].

(** One [if (bucket.length > 0) { heading; bucket.forEach(...) }]. *)
Definition renderSection (icon : N) (title : string) (bucket : list ReviewFinding)
  : jsstring :=
  if (0 <? length bucket)%nat then
    js "### " ++ codePoint icon ++ js " " ++ js title ++ js " ("
    ++ showNumber (Z.of_nat (length bucket)) ++ js ")" ++ [LF]
    ++ concat (map renderFinding bucket)
  else [].

Definition highFindings (findings : list ReviewFinding) :=
  List.filter (hasSeverity "high") findings.
Definition mediumFindings (findings : list ReviewFinding) :=
  List.filter (hasSeverity "medium") findings.
Definition lowFindings (findings : list ReviewFinding) :=
  List.filter (hasSeverity "low") findings.
Definition otherFindings (findings : list ReviewFinding) :=
  List.filter isOther findings.

(** The [body] that [postReview] builds. *)
Definition reviewBody (ctx : PostReviewContext) (findings : list ReviewFinding)
  : jsstring :=
  reviewTitle ctx ++ coverage ctx ++ foundLine findings
  ++ renderSection 128308 "High Priority" (highFindings findings)
  ++ renderSection 128993 "Medium Priority" (mediumFindings findings)
  ++ renderSection 128309 "Low Priority" (lowFindings findings)
  ++ renderSection 128221 "Other Issues" (otherFindings findings).

(** [f.severity?.toUpperCase() || 'ISSUE'] *)
Definition severityLabel (f : ReviewFinding) : jsstring :=
  match severity f with
  | Some s => match toUpperCase s with
              | [] => js "ISSUE"
              | u => u
              end
  | None => js "ISSUE"
  end.

Definition inlineBody (f : ReviewFinding) : jsstring :=
  js "**[" ++ severityLabel f ++ js " - " ++ toUpperCase (category f)
  ++ js "]** " ++ message f ++ [LF; LF] ++ bulb ++ js " *Suggestion*: "
  ++ (match suggestion f with
      | Some (c :: s) => c :: s
      | _ => js "Review and address this issue."
      end).

(** The callback of [.map] in "Prepare Inline Comments"; it runs on the
    findings whose [line] is not [undefined], and [None] is [null]. *)
Definition inlineComment (patches : gmap jsstring jsstring) (f : ReviewFinding)
  : option InlineComment :=
  let line := default 0 (line f) in
  match patches !! filename f with
  | None | Some [] => None
  | Some patch =>
      if line <=? 0 then None
      else match getPositionInDiff patch line with
           | None => None
           | Some position =>
               Some {| c_path := filename f;
                       c_position := position;
                       c_body := inlineBody f |}
           end
  end.

Definition inlineComments (patches : gmap jsstring jsstring)
    (findings : list ReviewFinding) : list InlineComment :=
  omap id
    (map (inlineComment patches)
       (List.filter (fun f => bool_decide (line f <> None)) findings)).

(** [postReview(githubContext, owner, repoName, prNumber, sha, findings)]
    of an engine built by [new ReviewEngineCore(ctx, filesToReview)]. *)
Definition postReview (ctx : PostReviewContext) (filesToReview : list PRFile)
    (owner repoName : jsstring) (prNumber : Z) (sha : jsstring)
    (findings : list ReviewFinding) : Posting :=
  let body := reviewBody ctx findings in
  let comments := inlineComments (filePatches filesToReview) findings in
  if (length comments =? 0)%nat && (0 <? length findings)%nat then
    CreateComment {| ic_owner := owner; ic_repo := repoName;
                     ic_issue_number := prNumber; ic_body := body |}
  else if (length comments =? 0)%nat && (length findings =? 0)%nat then
    NoPosting
  else
    CreateReview {| rv_owner := owner; rv_repo := repoName;
                    rv_pull_number := prNumber; rv_commit_id := sha;
                    rv_body := body;
                    rv_event :=
                      if (0 <? length (highFindings findings))%nat
                      then REQUEST_CHANGES else COMMENT;
                    rv_comments := comments |}.

End WithRuntime.

End ReviewEngineCore.

(* ------------------------------------------------------------------ *)
(** *** The range in which the numbers of the embedding are those of the
    code *)

Module SafeIntegers.

(** [Number.MAX_SAFE_INTEGER], 2^53 - 1: the integers up to it are
    JavaScript numbers, and a sum or a difference that stays within them
    is exact. *)
Definition MAX_SAFE_INTEGER : Z := 9007199254740991.

(** [Number.isSafeInteger(z)] *)
Definition isSafeInteger (z : Z) : bool :=
  (- MAX_SAFE_INTEGER <=? z) && (z <=? MAX_SAFE_INTEGER).

(** Every header number that [getPositionInDiff] reads in the patch (the
    capture of its expression in a line that begins with [@@]) is a safe
    integer. *)
Definition safeStarts (patch : jsstring) : bool :=
  forallb
    (fun line =>
       if startsWith line (js "@@") then
         match HunkRegex.matchStart line with
         | Some n => parseInt n <=? MAX_SAFE_INTEGER
         | None => true
         end
       else true)
    (split LF patch).

(** For every header that [isLineInHunk] finds in the patch, the end
    [start + length] of its range is a safe integer, and so are the two
    numbers. *)
Definition safeHunks (patch : jsstring) : bool :=
  forallb
    (fun m : jsstring * jsstring =>
       parseInt m.1 + parseInt m.2 <=? MAX_SAFE_INTEGER)
    (HunkRegex.execAll patch 0).

End SafeIntegers.

(* ------------------------------------------------------------------ *)
(** *** The regular expressions of the two response parsers *)

Module TextRegex.

(** [s.match(/\O[\s\S]*\C/)] for one-unit literals [O] and [C] (the
    brackets of [/\[[\s\S]*\]/] and the braces of [/\{[\s\S]*\}/]): from
    the leftmost [O] to the last [C] after it.  When no [C] follows the
    leftmost [O], none follows a later one either. *)
Definition matchSpan (o c : N) (s : jsstring) : option jsstring :=
  match dropUntil (N.eqb o) s with
  | [] => None
  | x :: rest =>
      if existsb (N.eqb c) rest
      then Some (x :: rev (dropUntil (N.eqb c) (rev rest)))
      else None
  end.

Definition fence : jsstring := js "```".

(** The lazy group [([\s\S]*?)] followed by [\n?```]: the shortest prefix
    after which a fence, or a line feed and a fence, begins. *)
Fixpoint lazyUntilFence (s : jsstring) : option jsstring :=
  if startsWith s fence || startsWith s (LF :: fence) then Some []
  else match s with
       | [] => None
       | c :: s' => cons c <$> lazyUntilFence s'
       end.

(** [/```(?:json)?\s*\n?([\s\S]*?)\n?```/] tried at index 0: the capture
    group.  The greedy prefix consumes "json" and white space only, none
    of which can start the closing fence, so giving part of it back never
    turns a failure into a success. *)
Definition matchCodeBlockAt (s : jsstring) : option jsstring :=
  if startsWith s fence then
    let s1 := drop 3 s in
    let s2 := if startsWith s1 (js "json") then drop 4 s1 else s1 in
    lazyUntilFence (dropUntil (fun c => negb (isWhiteSpace c)) s2)
  else None.

(** [s.match(/```(?:json)?\s*\n?([\s\S]*?)\n?```/)]: group 1 of the
    leftmost match. *)
Fixpoint matchCodeBlock (s : jsstring) : option jsstring :=
  match matchCodeBlockAt s with
  | Some g => Some g
  | None => match s with
            | [] => None
            | _ :: s' => matchCodeBlock s'
            end
  end.

(** [s.replace(/PAT\n?/g, '')] for a literal [PAT]; [skip] units of the
    subject still belong to the match being removed. *)
Fixpoint removeAll (pat s : jsstring) (skip : nat) : jsstring :=
  match s with
  | [] => []
  | c :: s' =>
      match skip with
      | S k => removeAll pat s' k
      | O =>
          if startsWith s pat then
            let len :=
              (length pat
               + if startsWith (drop (length pat) s) [LF] then 1 else 0)%nat in
            removeAll pat s' (len - 1)
          else c :: removeAll pat s' 0
      end
  end.

End TextRegex.

(* ------------------------------------------------------------------ *)
(** *** [ReviewEngine] (src/review-engine.ts) *)

Module ReviewEngine.

Inductive Severity := high | medium | low.

(** [interface ReviewFinding] *)
Record ReviewFinding := {
  severity : Severity;
  category : jsstring;
  filename : jsstring;
  line : option Z;
  message : jsstring;
  suggestion : jsstring
}.

(** An element of [comments]. *)
Record LineComment := {
  c_path : jsstring;
  c_line : Z;
  c_body : jsstring
}.

Record ReviewArgs := {
  rv_owner : jsstring;
  rv_repo : jsstring;
  rv_pull_number : Z;
  rv_commit_id : jsstring;
  rv_body : jsstring;
  rv_event : jsstring;
  rv_comments : list LineComment
}.

Record CommentArgs := {
  ic_owner : jsstring;
  ic_repo : jsstring;
  ic_issue_number : Z;
  ic_body : jsstring
}.

(** The two calls of [context.octokit] that [postReview] awaits. *)
Record Octokit := {
  createReview : ReviewArgs -> result ();
  createComment : CommentArgs -> result ()
}.

Inductive Call :=
| CallCreateReview (args : ReviewArgs)
| CallCreateComment (args : CommentArgs).

Definition severityName (s : Severity) : jsstring :=
  match s with
  | high => js "high"
  | medium => js "medium"
  | low => js "low"
  end.

(** [severityEmoji[s]] *)
Definition severityEmoji (s : Severity) : jsstring :=
  match s with
  | high => codePoint 128308
  | medium => codePoint 128993
  | low => codePoint 128309
  end.

(** The own members of [categoryEmoji]. *)
Definition categoryEmojiTable : list (jsstring * jsstring) :=
  [ (js "bug", codePoint 128027);
    (js "security", codePoint 128274);
    (js "performance", codePoint 9889);
    (js "style", codePoint 127912);
    (js "best-practice", codePoint 10024) ].

Section WithRuntime.
Context `{JsRuntime}.

(** The callback of [findings.filter] in [parseReviewResponse]. *)
Definition isValidFinding (f : json) : result bool :=
  sev ← getProp (Some f) (js "severity");
  if negb (truthy sev) then Ok false else
  cat ← getProp (Some f) (js "category");
  if negb (truthy cat) then Ok false else
  fn ← getProp (Some f) (js "filename");
  if negb (truthy fn) then Ok false else
  msg ← getProp (Some f) (js "message");
  if negb (truthy msg) then Ok false else
  sug ← getProp (Some f) (js "suggestion");
  if negb (truthy sug) then Ok false else
  Ok match sev with
     | Some (JStr s) =>
         bool_decide (s = js "high") || bool_decide (s = js "medium")
     | _ => false
     end.

(** [findings.filter(callback)]: the callback runs on the elements in
    order and the first exception ends the call. *)
Fixpoint filterFindings (findings : list json) : result (list json) :=
  match findings with
  | [] => Ok []
  | f :: rest =>
      keep ← isValidFinding f;
      kept ← filterFindings rest;
      Ok (if keep : bool then f :: kept else kept)
  end.

(** The statements of [parseReviewResponse] that follow [JSON.parse],
    inside its [try]. *)
Definition validFindings (parsed : json) : result (list json) :=
  match parsed with
  | JArr findings => filterFindings findings
  | _ => Ok []
  end.

(** The text that [parseReviewResponse] hands to [JSON.parse]: the
    response trimmed, without its code fences, trimmed again, from its
    first '[' to its last ']'; [None] when [jsonMatch] is [null]. *)
Definition arrayText (response : jsstring) : option jsstring :=
  let cleaned := trim response in
  let cleaned := TextRegex.removeAll (js "```json") cleaned 0 in
  let cleaned := TextRegex.removeAll (js "```") cleaned 0 in
  let cleaned := trim cleaned in
  TextRegex.matchSpan 91 93 cleaned.

(** [parseReviewResponse(response)] *)
Definition parseReviewResponse (response : jsstring) : list json :=
  let attempt : result (list json) :=
    match arrayText response with
    | None => Ok []
    | Some jsonMatch =>
        findings ← JSON_parse jsonMatch;
        validFindings findings
    end in
  match attempt with
  | Ok valid => valid
  | Throw _ => []
  end.

(** [categoryEmoji[category] || pin] *)
Definition categoryEmoji (category : jsstring) : jsstring :=
  match list_find (fun m => m.1 = category) categoryEmojiTable with
  | Some (_, m) => m.2
  | None => default (codePoint 128204) (objectPrototypeText category)
  end.

Definition emojiOf (f : ReviewFinding) : jsstring :=
  severityEmoji (severity f) ++ js " " ++ categoryEmoji (category f).

(** [if (finding.line)] *)
Definition lineOf (f : ReviewFinding) : option Z :=
  match line f with
  | Some l => if l =? 0 then None else Some l
  | None => None
  end.

Definition commentOf (f : ReviewFinding) : list LineComment :=
  match lineOf f with
  | Some l =>
      [ {| c_path := filename f;
           c_line := l;
           c_body :=
             emojiOf f ++ js " **" ++ toUpperCase (severityName (severity f))
             ++ js "** - " ++ category f ++ [LF; LF] ++ message f ++ [LF; LF]
             ++ codePoint 128161 ++ js " **Suggestion:** " ++ suggestion f |} ]
  | None => []
  end.

(** What one iteration of the loop appends to [body]. *)
Definition sectionOf (f : ReviewFinding) : jsstring :=
  js "### " ++ emojiOf f ++ js " " ++ filename f
  ++ (match lineOf f with
      | Some l => js " (line " ++ showNumber l ++ js ")"
      | None => []
      end)
  ++ [LF] ++ js "**Issue:** " ++ message f ++ [LF] ++ js "**Fix:** "
  ++ suggestion f ++ [LF; LF].

(** One iteration of [for (const finding of findings)] on the two
    variables [body] and [comments]. *)
Definition step (st : jsstring * list LineComment) (f : ReviewFinding)
  : jsstring * list LineComment :=
  (st.1 ++ sectionOf f, st.2 ++ commentOf f).

Definition initialBody (modelName : jsstring) (findings : list ReviewFinding)
  : jsstring :=
  js "## " ++ codePoint 129302 ++ js " AI Code Review (" ++ modelName
  ++ js ")" ++ [LF; LF]
  ++ js "Found " ++ showNumber (Z.of_nat (length findings)) ++ js " issue"
  ++ (if (1 <? length findings)%nat then js "s" else []) ++ js ":" ++ [LF; LF].

(** [postReview(context, owner, repo, prNumber, commitSha, findings)]: the
    calls it makes, in order, and how it ends.  [modelName] is
    [this.llm.getModelName()]. *)
Definition postReview (modelName : jsstring) (octokit : Octokit)
    (owner repo : jsstring) (prNumber : Z) (commitSha : jsstring)
    (findings : list ReviewFinding) : list Call * result () :=
  let '(body, comments) :=
    fold_left step findings (initialBody modelName findings, []) in
  let review :=
    {| rv_owner := owner; rv_repo := repo; rv_pull_number := prNumber;
       rv_commit_id := commitSha; rv_body := body; rv_event := js "COMMENT";
       rv_comments := take 30 comments |} in
  match createReview octokit review with
  | Ok _ => ([CallCreateReview review], Ok ())
  | Throw _ =>
      let comment :=
        {| ic_owner := owner; ic_repo := repo; ic_issue_number := prNumber;
           ic_body := body |} in
      ([CallCreateReview review; CallCreateComment comment],
       createComment octokit comment)
  end.

End WithRuntime.

End ReviewEngine.

(* ------------------------------------------------------------------ *)
(** *** [fetch]: requests and responses *)

Module Http.

(** The arguments of a [fetch] call; [timeoutMs] is the delay of
    [signal: AbortSignal.timeout(ms)] when the call passes one. *)
Record Request := {
  url : jsstring;
  method : jsstring;
  headers : gmap jsstring jsstring;
  body : jsstring;
  timeoutMs : option Z
}.

(** A received response.  Reading the body can fail (the connection
    breaks, the signal aborts): [bodyText] is what [response.text()]
    settles to. *)
Record Response := {
  status : Z;
  statusText : jsstring;
  bodyText : result jsstring
}.

(** [response.ok] *)
Definition ok (r : Response) : bool :=
  (200 <=? status r) && (status r <=? 299).

(** [await response.text()] *)
Definition text (r : Response) : result jsstring := bodyText r.

(** [await response.json()] *)
Definition json `{JsRuntime} (r : Response) : result JsValue.json :=
  t ← bodyText r;
  JSON_parse t.

End Http.

(* ------------------------------------------------------------------ *)
(** *** [ApiProviderBase] (src/providers/api-provider-base.ts) *)

Module ApiProviderBase.

Record ApiCallParams := {
  p_url : jsstring;
  p_headers : gmap jsstring jsstring;
  p_body : json
}.

(** The abstract members a concrete provider implements. *)
Class Provider := {
  name : jsstring;
  buildApiCallParams : jsstring -> ApiCallParams
}.

Section WithRuntime.
Context `{JsRuntime} `{Provider}.

(** The [Error] thrown on [!response.ok]. *)
Definition apiError (response : Http.Response) (errorText : jsstring) : JsError :=
  {| errName := js "Error";
     errMessage :=
       js "LLM API Error (" ++ name ++ js "): "
       ++ showNumber (Http.status response) ++ js " - "
       ++ Http.statusText response ++ js ". Response: " ++ errorText |}.

(** [data.choices && data.choices.length > 0 && data.choices[0].message]:
    the last operand when the first two are truthy, [None] (a falsy value)
    otherwise. *)
Definition chatMessage (data : json) : result (option json) :=
  choices ← getProp (Some data) (js "choices");
  match choices with
  | Some c =>
      if truthy choices && gt0 (getLength c) then
        getProp (getIndex0 c) (js "message")
      else Ok None
  | None => Ok None
  end.

(** The statements of [generateReview] that follow [await response.json()]. *)
Definition extractText (data : json) : result json :=
  m ← chatMessage data;
  if truthy m then
    content ← getProp m (js "content");
    Ok (orElse content (JStr []))
  else
    gm ← getProp (Some data) (js "message");
    gc ← (if truthy gm then getProp gm (js "content") else Ok None);
    if truthy gm && truthy gc then Ok (default JNull gc)
    else Ok (JStr (JSON_stringify data)).

(** The statements of [generateReview] that follow [await fetch(...)]. *)
Definition handleResponse (response : Http.Response) : result json :=
  if negb (Http.ok response) then
    errorText ← Http.text response;
    Throw (apiError response errorText)
  else
    data ← Http.json response;
    extractText data.

(** The arguments of the [fetch] call: the headers of the provider
    override the content type. *)
Definition requestOf (prompt : jsstring) : Http.Request :=
  let params := buildApiCallParams prompt in
  {| Http.url := p_url params;
     Http.method := js "POST";
     Http.headers :=
       p_headers params ∪ {[ js "Content-Type" := js "application/json" ]};
     Http.body := JSON_stringify (p_body params);
     Http.timeoutMs := None |}.

(** [generateReview(prompt)] *)
Definition generateReview (fetch : Http.Request -> result Http.Response)
    (prompt : jsstring) : result json :=
  response ← fetch (requestOf prompt);
  handleResponse response.

End WithRuntime.

End ApiProviderBase.

(* ------------------------------------------------------------------ *)
(** *** src/scripts/smartfix/engines/analyser.ts *)

Module Analyser.

(** Modelled from the spec: the declarations of [../types] are not among
    the sources; section 5 names the error groups of the batch and the
    findings substituted for them.  An error of a group has the members
    that the prompt quotes. *)
Record ErrorItem := {
  file : jsstring;
  line : Z;
  message : jsstring
}.

(** Modelled from the spec: see [ErrorItem]; a group has the members
    that [analyzeWithAnalyser] reads. *)
Record ErrorGroup := {
  code : jsstring;
  pattern : jsstring;
  count : Z;
  errors : list ErrorItem
}.

(** Modelled from the spec: see [ErrorItem]; the six members that
    [analyzeWithAnalyser] fills, each with whatever value the parsed
    response holds. *)
Record FixResult := {
  confidence : json;
  fixType : json;
  description : json;
  fileChanges : json;
  commands : json;
  manualSteps : json
}.

(** The members of [interface Config] that the engine reads. *)
Record Config := {
  model : option jsstring;
  ollamaHost : jsstring;
  streaming : bool
}.

Definition noSolution : jsstring := js "No solution generated".

(** The record both fall-back [return]s of [parseLLMResponse] build. *)
Definition lowConfidence (description : jsstring) : json :=
  JObj [ (js "confidence", JStr (js "low"));
         (js "fixType", JStr (js "suggestion"));
         (js "description", JStr description);
         (js "fileChanges", JStr []) ].

(** [error.name === 'TimeoutError' || error.message.includes('timeout')] *)
Definition isTimeout (error : JsError) : bool :=
  bool_decide (errName error = js "TimeoutError")
  || includes (errMessage error) (js "timeout").

(** The [FixResult] of the [catch] block. *)
Definition errorFixResult (error : JsError) : FixResult :=
  let errorMsg :=
    if isTimeout error
    then js "Request timed out after 300 seconds. Try using --stream or a faster model."
    else errMessage error in
  {| confidence := JStr (js "low");
     fixType := JStr (js "manual");
     description := JStr (js "Error: " ++ errorMsg);
     fileChanges := JStr [];
     commands := JArr [];
     manualSteps :=
       JArr [ JStr (js "Investigate the error manually");
              JStr (js "Check Ollama service status") ] |}.

Section WithRuntime.
Context `{JsRuntime}.

(** [v.method(...)] for a method of [String.prototype]: a value that is
    not a string has no such method and the call throws. *)
Definition stringMethod {A} (method : string) (v : json) (f : jsstring -> A)
  : result A :=
  match v with
  | JStr s => Ok (f s)
  | _ => Throw (typeError (js method))
  end.

(** [parseLLMResponse(responseText)].  The declared type of the argument
    is [string]; [analyzeWithAnalyser] passes whatever [data.response]
    holds. *)
Definition parseLLMResponse (responseText : json) : result json :=
  try_catch (JSON_parse (toStr responseText))
    (fun firstError =>
       try_catch
         (jsonBlockMatch ←
            stringMethod "match" responseText TextRegex.matchCodeBlock;
          match jsonBlockMatch with
          | Some (c :: g) => JSON_parse (trim (c :: g))
          | _ =>
              jsonObjectMatch ←
                stringMethod "match" responseText (TextRegex.matchSpan 123 125);
              match jsonObjectMatch with
              | Some span => JSON_parse span
              | None =>
                  description ← stringMethod "trim" responseText trim;
                  Ok (lowConfidence description)
              end
          end)
         (fun extractError =>
            description ← stringMethod "trim" responseText trim;
            Ok (lowConfidence
                  (match description with
                   | [] => noSolution
                   | _ => description
                   end)))).

Definition exampleErrors (group : ErrorGroup) : jsstring :=
  join [LF]
    (map (fun e => file e ++ js ":" ++ showNumber (line e) ++ js " - " ++ message e)
       (take 3 (errors group))).

(** "Build prompt". *)
Definition buildPrompt (promptTemplate : option jsstring) (group : ErrorGroup)
  : jsstring :=
  match promptTemplate with
  | Some (c :: t) =>
      replaceAll (js "{{EXAMPLE_ERRORS}}") (exampleErrors group)
        (replaceAll (js "{{ERROR_COUNT}}") (showNumber (count group))
           (replaceAll (js "{{ERROR_PATTERN}}") (pattern group)
              (replaceAll (js "{{ERROR_CODE}}") (code group)
                 (replaceAll (js "{{BUILD_ERRORS}}") (exampleErrors group)
                    (c :: t)))))
  | _ =>
      js "Analyze TypeScript error " ++ code group ++ js ": " ++ pattern group
      ++ js ". Return JSON with: confidence, fixType, description, fileChanges."
  end.

(** The argument of the [fetch] call. *)
Definition generateRequest (config : Config) (prompt : jsstring) : Http.Request :=
  {| Http.url := ollamaHost config ++ js "/api/generate";
     Http.method := js "POST";
     Http.headers := {[ js "Content-Type" := js "application/json" ]};
     Http.body :=
       JSON_stringify
         (JObj
            ((match model config with
              | Some m => [(js "model", JStr m)]
              | None => []
              end)
             ++ [ (js "prompt", JStr prompt);
                  (js "stream", JBool (streaming config));
                  (js "options",
                   JObj [ (js "temperature", JNum (2 # 10));
                          (js "num_predict", JNum (inject_Z 500)) ]) ]));
     Http.timeoutMs := Some 300000 |}.

(** One iteration of [for (const line of lines)] of the streaming branch,
    with its empty [catch], which also catches the [TypeError] of a
    [response] that converts to no string. *)
Definition appendFragment (output line : jsstring) : jsstring :=
  match (obj ← JSON_parse line; getProp (Some obj) (js "response")) with
  | Ok (Some r) =>
      if truthy (Some r) && interpolates r then output ++ toStr r else output
  | Ok None => output
  | Throw _ => output
  end.

(** The streaming and the plain reading of the response. *)
Definition readRawResponse (config : Config) (response : Http.Response)
  : result json :=
  if streaming config then
    text ← Http.text response;
    let lines := split LF (trim text) in
    let output := fold_left appendFragment lines [] in
    Ok (JStr (match output with [] => noSolution | _ => output end))
  else
    data ← Http.json response;
    r ← getProp (Some data) (js "response");
    Ok (orElse r (JStr noSolution)).

(** The [try] block of one group. *)
Definition requestFix (fetch : Http.Request -> result Http.Response)
    (config : Config) (group : ErrorGroup) (prompt : jsstring) : result FixResult :=
  response ← fetch (generateRequest config prompt);
  if negb (Http.ok response) then
    text ← Http.text response;
    Throw {| errName := js "Error";
             errMessage :=
               js "Ollama API error: " ++ showNumber (Http.status response)
               ++ js " - " ++ text |}
  else
    rawResponse ← readRawResponse config response;
    parsed ← parseLLMResponse rawResponse;
    c ← getProp (Some parsed) (js "confidence");
    t ← getProp (Some parsed) (js "fixType");
    d ← getProp (Some parsed) (js "description");
    fc ← getProp (Some parsed) (js "fileChanges");
    cm ← getProp (Some parsed) (js "commands");
    ms ← getProp (Some parsed) (js "manualSteps");
    Ok {| confidence := orElse c (JStr (js "medium"));
          fixType := orElse t (JStr (js "suggestion"));
          description := orElse d rawResponse;
          fileChanges :=
            orElse fc (JStr (join (js ", ") (map file (errors group))));
          commands := orElse cm (JArr []);
          manualSteps := orElse ms (JArr []) |}.

(** The [FixResult] that iteration [i] pushes for its group: that of the
    [try] block, or that of the [catch] block when the [try] block
    throws.  [fetch i] is the [fetch] that iteration [i] awaits. *)
Definition groupFix (fetch : nat -> Http.Request -> result Http.Response)
    (config : Config) (promptTemplate : option jsstring) (i : nat)
    (group : ErrorGroup) : FixResult :=
  let prompt := buildPrompt promptTemplate group in
  match requestFix (fetch i) config group prompt with
  | Ok fixResult => fixResult
  | Throw error => errorFixResult error
  end.

(** The iterations [i], [i+1], ... of the loop over [groups]. *)
Fixpoint analyzeFrom (fetch : nat -> Http.Request -> result Http.Response)
    (config : Config) (promptTemplate : option jsstring) (i : nat)
    (groups : list ErrorGroup) (results : list (ErrorGroup * FixResult))
  : list (ErrorGroup * FixResult) :=
  match groups with
  | [] => results
  | group :: rest =>
      analyzeFrom fetch config promptTemplate (S i) rest
        (results ++ [(group, groupFix fetch config promptTemplate i group)])
  end.

(** [analyzeWithAnalyser(groups, config, promptTemplate)]: its [fixes]. *)
Definition analyzeWithAnalyser (fetch : nat -> Http.Request -> result Http.Response)
    (groups : list ErrorGroup) (config : Config)
    (promptTemplate : option jsstring) : list (ErrorGroup * FixResult) :=
  analyzeFrom fetch config promptTemplate 0 groups [].

End WithRuntime.

End Analyser.

(* ------------------------------------------------------------------ *)
(** *** The statements of the specification

    The definitions of this module follow the words of the specification,
    or of a claim as amended, and not the code. *)

Module Spec.

(** **** The diff position resolver (section 4.1) *)

(** The state of the walk: the position counter, the current new-file
    line, and the position found so far. *)
Record Walk := {
  positionCounter : Z;
  currentNewLine : Z;
  found : option Z
}.

(** What a line is to the walk: a header that resets the new-file line, a
    header that leaves it, or no header at all. *)
Inductive LineKind :=
| HeaderReset (n : Z)
| HeaderKeep
| Body.

(** A line beginning with '+' or with a space. *)
Definition eligible (line : jsstring) : bool :=
  startsWith line (js "+") || startsWith line (js " ").

(** One line of the walk.  The specification gives no initial value of the
    new-file line; the walk starts it at 0, as the code does. *)
Definition visit (kind : jsstring -> LineKind) (targetLine : Z)
    (w : Walk) (line : jsstring) : Walk :=
  let counter := positionCounter w + 1 in
  match found w with
  | Some _ => w
  | None =>
      match kind line with
      | HeaderReset n =>
          {| positionCounter := counter; currentNewLine := n - 1; found := None |}
      | HeaderKeep =>
          {| positionCounter := counter; currentNewLine := currentNewLine w;
             found := None |}
      | Body =>
          if eligible line then
            let newLine := currentNewLine w + 1 in
            {| positionCounter := counter; currentNewLine := newLine;
               found := if newLine =? targetLine then Some counter else None |}
          else
            {| positionCounter := counter; currentNewLine := currentNewLine w;
               found := None |}
      end
  end.

Definition walk (kind : jsstring -> LineKind) (patch : jsstring)
    (targetLine : Z) : option Z :=
  found
    (fold_left (visit kind targetLine) (split LF patch)
       {| positionCounter := 0; currentNewLine := 0; found := None |}).

(** The header of the specification, [@@ -o,p +n,q @@] at the start of
    the line: its [n]. *)
Definition standardHeader (line : jsstring) : option Z :=
  s1 ← HunkRegex.lit (js "@@ -") line;
  '(_, s2) ← HunkRegex.digits1 s1;
  s3 ← HunkRegex.lit (js ",") s2;
  '(_, s4) ← HunkRegex.digits1 s3;
  s5 ← HunkRegex.lit (js " +") s4;
  '(n, s6) ← HunkRegex.digits1 s5;
  s7 ← HunkRegex.lit (js ",") s6;
  '(_, s8) ← HunkRegex.digits1 s7;
  _ ← HunkRegex.lit (js " @@") s8;
  Some (parseInt n).

(** The walk as section 4.1 words it: only a line that begins with
    [@@ -o,p +n,q @@] is a header, and it resets the new-file line. *)
Definition kindStated (line : jsstring) : LineKind :=
  match standardHeader line with
  | Some n => HeaderReset n
  | None => Body
  end.

Definition resolvePosition (patch : jsstring) (targetLine : Z) : option Z :=
  walk kindStated patch targetLine.

(** The walk with the header rule amended: every line that begins with
    [@@] is a header line; it resets the new-file line when [@@ -o,p +n]
    occurs in it (the leftmost occurrence counts, whatever follows [n]),
    and leaves the new-file line as it is otherwise. *)
Definition kindAmended (line : jsstring) : LineKind :=
  if startsWith line (js "@@") then
    match HunkRegex.matchStart line with
    | Some n => HeaderReset (parseInt n)
    | None => HeaderKeep
    end
  else Body.

Definition resolvePositionAmended (patch : jsstring) (targetLine : Z) : option Z :=
  walk kindAmended patch targetLine.

(** A patch whose hunks keep to their headers: every line that begins
    with [@@] begins with a full header [@@ -o,p +n,q @@], at most [q]
    lines beginning with '+' or a space follow it before the next header,
    and none precedes the first header.  [remaining] is what is left of
    the current [q]. *)
Fixpoint withinHeaders (lines : list jsstring) (remaining : Z) : bool :=
  match lines with
  | [] => true
  | line :: rest =>
      if startsWith line (js "@@") then
        match HunkRegex.matchHunkAt line with
        | Some (_, q, _) => withinHeaders rest (parseInt q)
        | None => false
        end
      else if eligible line then
        (0 <? remaining) && withinHeaders rest (remaining - 1)
      else withinHeaders rest remaining
  end.

Definition hunksWithinHeaders (patch : jsstring) : bool :=
  withinHeaders (split LF patch) 0.

(** **** The finding classifier (section 4.3) *)

(** The member [key] of a candidate; [None] when the candidate is not an
    object or has no such member. *)
Definition field (key : string) (c : json) : option json :=
  match c with
  | JObj members => lookupMember (js key) members
  | _ => None
  end.

Definition requiredFields : list string :=
  ["severity"; "category"; "filename"; "message"; "suggestion"]%string.

(** The rule of section 4.3: the five fields are defined. *)
Definition allDefined (c : json) : bool :=
  forallb (fun key => bool_decide (field key c <> None)) requiredFields.

Definition isText (s : string) (v : option json) : bool :=
  match v with
  | Some (JStr t) => bool_decide (t = js s)
  | _ => false
  end.

(** The rule as amended: the five fields are truthy (defined and neither
    empty, null, zero nor false) and the severity is 'high' or 'medium'. *)
Definition keeps (c : json) : bool :=
  forallb (fun key => truthy (field key c)) requiredFields
  && (isText "high" (field "severity" c) || isText "medium" (field "severity" c)).

Definition isNull (c : json) : bool :=
  match c with
  | JNull => true
  | _ => false
  end.

(** **** The review aggregator (section 4.4) *)

(** The patch of a file name: that of the last file of that name in the
    listing, when it has one and it is not empty. *)
Definition patchOf (files : list ReviewEngineCore.PRFile) (name : jsstring)
  : option jsstring :=
  match list_find (fun f => ReviewEngineCore.pr_filename f = name) (rev files) with
  | Some (_, f) =>
      match ReviewEngineCore.pr_patch f with
      | Some (c :: p) => Some (c :: p)
      | _ => None
      end
  | None => None
  end.

(** The inline position of a finding: none when it bears no line, when
    its line is not positive, when its file has no patch, or when the
    resolver finds no position. *)
Definition resolvedPosition (files : list ReviewEngineCore.PRFile)
    (f : ReviewEngineCore.ReviewFinding) : option Z :=
  match ReviewEngineCore.line f with
  | None => None
  | Some l =>
      if l <=? 0 then None
      else match patchOf files (ReviewEngineCore.filename f) with
           | None => None
           | Some patch => ReviewEngineCore.getPositionInDiff patch l
           end
  end.

Definition isHigh (f : ReviewEngineCore.ReviewFinding) : Prop :=
  ReviewEngineCore.severity f = Some (js "high").

Definition throws {A} (r : result A) : bool :=
  match r with
  | Throw _ => true
  | Ok _ => false
  end.

(** **** The provider template (section 4.5) *)

Definition whenTruthy (v : option json) : option json :=
  if truthy v then v else None.

(** [choices[0].message] of a body: the truthy member [message] of the
    first element of the array [choices]. *)
Definition chatMessageOf (data : json) : option json :=
  match field "choices" data with
  | Some (JArr (first :: _)) => whenTruthy (field "message" first)
  | _ => None
  end.

(** [message.content] of a body, both truthy. *)
Definition genericContentOf (data : json) : option json :=
  match whenTruthy (field "message" data) with
  | Some m => whenTruthy (field "content" m)
  | None => None
  end.

(** A body other than [null] whose [choices], if any, is no object and
    does not start with [null]. *)
Definition regularBody (data : json) : bool :=
  negb (isNull data)
  && match field "choices" data with
     | Some (JObj _) | Some (JArr (JNull :: _)) => false
     | _ => true
     end.

(** A request that did not produce a readable success response: [fetch]
    rejected (a time-out, a network failure), the status is no success, or
    the body could not be read. *)
Definition requestFailed (r : result Http.Response) : bool :=
  match r with
  | Throw _ => true
  | Ok response => negb (Http.ok response) || throws (Http.bodyText response)
  end.

Section WithRuntime.
Context `{JsRuntime}.

(** The text as section 4.5 states it: the chat-completion content when
    present, else the generic content when present, else the raw JSON. *)
Definition statedText (data : json) : json :=
  match chatMessageOf data ≫= fun m => field "content" m with
  | Some c => c
  | None =>
      match field "message" data ≫= fun m => field "content" m with
      | Some c => c
      | None => JStr (JSON_stringify data)
      end
  end.

(** The text as amended: a chat-completion message decides alone, and
    yields the empty string when it has no truthy content. *)
Definition amendedText (data : json) : json :=
  match chatMessageOf data with
  | Some m => default (JStr []) (whenTruthy (field "content" m))
  | None =>
      match genericContentOf data with
      | Some c => c
      | None => JStr (JSON_stringify data)
      end
  end.

(** **** The response extractor (section 4.2) *)




End WithRuntime.

End Spec.

(* ------------------------------------------------------------------ *)
(** *** A runtime for the examples *)

Module Sample.

Definition nl : jsstring := [LF].

(** [toUpperCase] on ASCII text. *)
Definition upperAscii (s : jsstring) : jsstring :=
  map (fun c => if ((97 <=? c) && (c <=? 122))%N then (c - 32)%N else c) s.

(** [replace(/needle/g, r)] for a replacement without [$]. *)
Fixpoint replaceLiteral (needle r s : jsstring) (skip : nat) : jsstring :=
  match s with
  | [] => []
  | c :: s' =>
      match skip with
      | S k => replaceLiteral needle r s' k
      | O =>
          if startsWith s needle && (0 <? length needle)%nat
          then r ++ replaceLiteral needle r s' (length needle - 1)
          else c :: replaceLiteral needle r s' 0
      end
  end.

(** An ASCII literal in which every apostrophe stands for a double
    quote. *)
Definition jsq (s : string) : jsstring :=
  map (fun c => if (c =? 39)%N then 34%N else c) (js s).

(** The patch of the scenario of section 8. *)
Definition scenarioPatch : jsstring :=
  js "@@ -1,2 +1,3 @@" ++ nl ++ js " line1" ++ nl ++ js "+line2" ++ nl
  ++ js " line3".

(** A header without its [,q @@], as git writes a one-line hunk. *)
Definition shortHeaderPatch : jsstring :=
  js "@@ -1,2 +3 @@" ++ nl ++ js "+x".

(** A second header without its old-file count, as git writes it for a
    one-line range. *)
Definition shortOldCountPatch : jsstring :=
  js "@@ -1,2 +5,2 @@" ++ nl ++ js "+a" ++ nl ++ js "@@ -9 +1,2 @@" ++ nl
  ++ js "+b".

(** A hunk with more new-file lines than its header declares. *)
Definition overlongPatch : jsstring :=
  js "@@ -1,1 +1,1 @@" ++ nl ++ js " a" ++ nl ++ js "+b".

(** A review response, the array in it, and what the array parses to: a
    finding with an empty suggestion, one of low severity, and one that
    the filter keeps. *)
Definition emptySuggestion : json :=
  JObj [ (js "severity", JStr (js "high")); (js "category", JStr (js "bug"));
         (js "filename", JStr (js "a.ts")); (js "message", JStr (js "m"));
         (js "suggestion", JStr []) ].

Definition lowSeverity : json :=
  JObj [ (js "severity", JStr (js "low")); (js "category", JStr (js "style"));
         (js "filename", JStr (js "a.ts")); (js "message", JStr (js "m"));
         (js "suggestion", JStr (js "s")) ].

Definition keptFinding : json :=
  JObj [ (js "severity", JStr (js "medium")); (js "category", JStr (js "bug"));
         (js "filename", JStr (js "b.ts")); (js "message", JStr (js "m"));
         (js "suggestion", JStr (js "s")) ].

Definition reviewArray : jsstring :=
  jsq "[{'severity':'high','category':'bug','filename':'a.ts','message':'m','suggestion':''},"
  ++ jsq "{'severity':'low','category':'style','filename':'a.ts','message':'m','suggestion':'s'},"
  ++ jsq "{'severity':'medium','category':'bug','filename':'b.ts','message':'m','suggestion':'s'}]".

Definition reviewResponse : jsstring :=
  js "```json" ++ nl ++ reviewArray ++ nl ++ js "```".

(** A chat-completion body whose first choice carries a message without
    content, next to a generic message. *)
Definition chatBody : jsstring :=
  jsq "{'choices':[{'message':{}}],'message':{'content':'hi'}}".

Definition chatData : json :=
  JObj [ (js "choices", JArr [JObj [(js "message", JObj [])]]);
         (js "message", JObj [(js "content", JStr (js "hi"))]) ].

(** A chat-completion body of the usual shape. *)
Definition answerBody : jsstring :=
  jsq "{'choices':[{'message':{'content':'LGTM'}}]}".

Definition answerData : json :=
  JObj [ (js "choices",
          JArr [JObj [(js "message", JObj [(js "content", JStr (js "LGTM"))])]]) ].

(** A success body of neither shape. *)
Definition otherBody : jsstring := jsq "{'output':'ok','done':true}".

Definition otherData : json :=
  JObj [ (js "output", JStr (js "ok")); (js "done", JBool true) ].

(** What the local inference server answers, the text in its [response]
    member, and what that text parses to. *)
Definition fixText : jsstring :=
  jsq "{'confidence':'high','fixType':'code','description':'Import the type'}".

Definition fixData : json :=
  JObj [ (js "confidence", JStr (js "high")); (js "fixType", JStr (js "code"));
         (js "description", JStr (js "Import the type")) ].

Definition ollamaBody : jsstring :=
  jsq "{'response':'{\'confidence\':\'high\',\'fixType\':\'code\',\'description\':\'Import the type\'}'}".

Definition ollamaData : json :=
  JObj [ (js "response", JStr fixText) ].

Definition groupA : Analyser.ErrorGroup :=
  {| Analyser.code := js "TS2304"; Analyser.pattern := js "Cannot find name";
     Analyser.count := 2;
     Analyser.errors :=
       [ {| Analyser.file := js "a.ts"; Analyser.line := 3;
            Analyser.message := js "Cannot find name 'x'." |} ] |}.

Definition groupB : Analyser.ErrorGroup :=
  {| Analyser.code := js "TS2322"; Analyser.pattern := js "Type mismatch";
     Analyser.count := 1;
     Analyser.errors :=
       [ {| Analyser.file := js "b.ts"; Analyser.line := 9;
            Analyser.message := js "Type 'string' is not assignable." |} ] |}.

(** [JSON.parse] on the JSON texts of the examples; every other text that
    an example parses is not JSON. *)
Definition knownTexts : list (jsstring * json) :=
  [ (reviewArray, JArr [emptySuggestion; lowSeverity; keptFinding]);
    (chatBody, chatData);
    (answerBody, answerData);
    (otherBody, otherData);
    (ollamaBody, ollamaData);
    (fixText, fixData) ].

Definition parseKnown (t : jsstring) : option json :=
  match list_find (fun e => e.1 = t) knownTexts with
  | Some (_, e) => Some e.2
  | None => None
  end.

(** A provider for the examples. *)
#[export] Instance provider : ApiProviderBase.Provider := {|
  ApiProviderBase.name := js "openai";
  ApiProviderBase.buildApiCallParams := fun prompt =>
    {| ApiProviderBase.p_url := js "https://api.openai.com/v1/chat/completions";
       ApiProviderBase.p_headers := {[ js "Authorization" := js "Bearer sk-test" ]};
       ApiProviderBase.p_body :=
         JObj [ (js "model", JStr (js "gpt-4o"));
                (js "messages",
                 JArr [JObj [ (js "role", JStr (js "user"));
                              (js "content", JStr prompt) ]]) ] |}
|}.

Definition respond (status : Z) (body : jsstring) : Http.Response :=
  {| Http.status := status; Http.statusText := [];
     Http.bodyText := Ok body |}.

(** [JSON.stringify] on values whose strings hold no control character
    other than a line feed and whose numbers are integers. *)
Definition quote (s : jsstring) : jsstring :=
  [34%N]
  ++ concat
       (map (fun c =>
               if (c =? 34)%N then [92%N; 34%N]
               else if (c =? 92)%N then [92%N; 92%N]
               else if (c =? 10)%N then [92%N; 110%N]
               else [c]) s)
  ++ [34%N].

Fixpoint stringify (v : json) : jsstring :=
  match v with
  | JNull => js "null"
  | JBool true => js "true"
  | JBool false => js "false"
  | JNum q => showNumber (Qnum q)
  | JStr s => quote s
  | JArr items => js "[" ++ join (js ",") (map stringify items) ++ js "]"
  | JObj members =>
      js "{"
      ++ join (js ",") (map (fun m => quote m.1 ++ js ":" ++ stringify m.2) members)
      ++ js "}"
  end.

(** The runtime of the examples.  [JSON.parse], [JSON.stringify],
    [toUpperCase] and [replace] are exact on the arguments the examples
    pass; the other members are not exercised by any example. *)
#[export] Instance runtime : JsRuntime := {|
  parseJson := parseKnown;
  syntaxErrorMessage := fun _ => js "JSON Parse error: Unexpected identifier";
  JSON_stringify := stringify;
  toUpperCase := upperAscii;
  replaceAll := fun needle r s => replaceLiteral needle r s 0;
  typeErrorMessage := fun expr =>
    js "undefined is not an object (evaluating '" ++ expr ++ js "')";
  fractionToString := fun _ => js "0.2";
  coercedGt0 := fun _ => false;
  objectPrototypeText := fun _ => None
|}.

End Sample.

(* ------------------------------------------------------------------ *)
(** *** [ReviewEngine] (src/review-engine.ts): from the pull request to
    the posting *)

Module ReviewEngineFlow.

(** [interface PRFile] *)
Record PRFile := {
  filename : jsstring;
  status : jsstring;
  patch : option jsstring;
  additions : Z;
  deletions : Z;
  changes : Z
}.

(** What [reviewPR] and [buildReviewPrompt] read of [pr]; [userLogin] is
    [pr.user?.login]. *)
Record PullRequest := {
  number : Z;
  title : jsstring;
  body : option jsstring;
  userLogin : option jsstring;
  headSha : jsstring
}.

(** What [reviewPR] reads of [repo]. *)
Record Repository := {
  ownerLogin : jsstring;
  name : jsstring
}.

(** The arguments of [octokit.pulls.listFiles]. *)
Record ListFilesArgs := {
  lf_owner : jsstring;
  lf_repo : jsstring;
  lf_pull_number : Z;
  lf_per_page : Z
}.

(** [s.endsWith(suffix)], which is what a literal followed by [$] tests
    in an expression without the [m] flag. *)
Definition endsWith (s suffix : jsstring) : bool :=
  startsWith (rev s) (rev suffix).

(** [ignorePatterns], each as its [test]. *)
Definition ignorePatterns : list (jsstring -> bool) :=
  [ (fun s => endsWith s (js ".lock"));
    (fun s => endsWith s (js "package-lock.json"));
    (fun s => endsWith s (js "yarn.lock"));
    (fun s => endsWith s (js "bun.lockb"));
    (fun s => endsWith s (js ".min.js") || endsWith s (js ".min.css"));
    (fun s => endsWith s (js ".map"));
    (fun s => includes s (js "dist/"));
    (fun s => includes s (js "build/"));
    (fun s => includes s (js "node_modules/")) ].

(** [ignorePatterns.some(pattern => pattern.test(f.filename))] *)
Definition isIgnored (f : PRFile) : bool :=
  existsb (fun pattern => pattern (filename f)) ignorePatterns.

(** [filterFiles(files)] *)
Definition filterFiles (files : list PRFile) : list PRFile :=
  take 10
    (List.filter (fun f => changes f <? 500)
       (List.filter (fun f => negb (isIgnored f)) files)).

(** What a run of [reviewPR] awaits itself, in order: the listing, the
    request to the model, a [createComment] of its own and the call of
    [this.postReview].  The calls that [postReview] makes in turn
    ([ReviewEngine.postReview]: [createReview], then [createComment] when
    the review is refused) are not events of [reviewPR]. *)
Inductive Event :=
| ListedFiles (args : ListFilesArgs)
| AskedModel (prompt : jsstring)
| Commented (args : ReviewEngine.CommentArgs)
| CalledPostReview (owner repo : jsstring) (prNumber : Z) (commitSha : jsstring)
    (findings : list json).

(** The two ways in which [reviewPR] reports: a comment of its own, or
    the call of [this.postReview]. *)
Definition isReport (e : Event) : bool :=
  match e with
  | Commented _ | CalledPostReview _ _ _ _ _ => true
  | _ => false
  end.

Definition isAsking (e : Event) : bool :=
  match e with
  | AskedModel _ => true
  | _ => false
  end.

(** What [reviewPR] calls outside the class, and [this.postReview], which
    it calls on the findings as parsed. *)
Record Services := {
  listFiles : ListFilesArgs -> result (list PRFile);
  llmGenerateReview : jsstring -> result jsstring;
  getModelName : jsstring;
  createComment : ReviewEngine.CommentArgs -> result ();
  postReview : jsstring -> jsstring -> Z -> jsstring -> list json -> result ()
}.

Section WithRuntime.
Context `{JsRuntime}.

(** [subject.replace(needle, replacement)] for a string needle: the first
    occurrence, with the [$] patterns of the replacement expanded. *)
Variable replaceFirst : jsstring -> jsstring -> jsstring -> jsstring.

(** [this.basePrompt], which the constructor reads from
    [prompts/pr-review.md]. *)
Variable basePrompt : jsstring.

(** The [TypeError] thrown when an object converts to no primitive
    value. *)
Variable notPrimitive : JsError.

Definition fileContext (files : list PRFile) : jsstring :=
  join ([LF] ++ js "---" ++ [LF])
    (map (fun f =>
            [LF] ++ js "### File: " ++ filename f ++ js " (" ++ status f
            ++ js ")" ++ [LF] ++ js "**Changes**: +" ++ showNumber (additions f)
            ++ js "/-" ++ showNumber (deletions f) ++ js " lines" ++ [LF; LF]
            ++ js "```diff" ++ [LF]
            ++ (match patch f with
                | Some (c :: p) => c :: p
                | _ => js "No diff available"
                end)
            ++ [LF] ++ js "```" ++ [LF])
       files).

(** [buildReviewPrompt(pr, files)] *)
Definition buildReviewPrompt (pr : PullRequest) (files : list PRFile) : jsstring :=
  replaceFirst (js "[FILE_CONTEXT]") (fileContext files)
    (replaceFirst (js "[FILE_COUNT]") (showNumber (Z.of_nat (length files)))
       (replaceFirst (js "[PR_AUTHOR]") (default (js "undefined") (userLogin pr))
          (replaceFirst (js "[PR_BODY]")
             (match body pr with
              | Some (c :: b) => c :: b
              | _ => js "No description"
              end)
             (replaceFirst (js "[PR_TITLE]") (title pr) basePrompt)))).

(** [generateReview(pr, files)]: its [catch] throws what it caught. *)
Definition generateReview (services : Services) (pr : PullRequest)
    (files : list PRFile) : result (list json) :=
  response ← llmGenerateReview services (buildReviewPrompt pr files);
  Ok (ReviewEngine.parseReviewResponse response).

(** [`${v}`] for what a member access gave, for its exceptions only. *)
Definition interpolate (v : option json) : result () :=
  match v with
  | Some w => if interpolates w then Ok () else Throw notPrimitive
  | None => Ok ()
  end.

(** The callback of [review.forEach] in [reviewPR], which logs
    [`  ${i+1}. [${f.severity}] ${f.filename}: ${f.message.substring(0, 60)}...`]:
    the exceptions of the template literal, whose operands are evaluated
    and converted from left to right. *)
Definition logFinding (f : json) : result () :=
  sev ← getProp (Some f) (js "severity");
  _ ← interpolate sev;
  fn ← getProp (Some f) (js "filename");
  _ ← interpolate fn;
  msg ← getProp (Some f) (js "message");
  match msg with
  | Some m => Analyser.stringMethod "substring" m (fun _ => ())
  | None => Throw (typeError (js "substring"))
  end.

(** [review.forEach(callback)]: the first exception ends the loop. *)
Fixpoint logFindings (review : list json) : result () :=
  match review with
  | [] => Ok ()
  | f :: rest => _ ← logFinding f; logFindings rest
  end.

Definition noFilesComment (owner repoName : jsstring) (prNumber : Z)
  : ReviewEngine.CommentArgs :=
  {| ReviewEngine.ic_owner := owner;
     ReviewEngine.ic_repo := repoName;
     ReviewEngine.ic_issue_number := prNumber;
     ReviewEngine.ic_body :=
       codePoint 129302 ++ js " **AI Code Review**" ++ [LF; LF]
       ++ js "No files to review (only config/lock files changed)" |}.

Definition noIssuesComment (services : Services) (owner repoName : jsstring)
    (prNumber : Z) : ReviewEngine.CommentArgs :=
  {| ReviewEngine.ic_owner := owner;
     ReviewEngine.ic_repo := repoName;
     ReviewEngine.ic_issue_number := prNumber;
     ReviewEngine.ic_body :=
       js "## " ++ codePoint 129302 ++ js " AI Code Review ("
       ++ getModelName services ++ js ")" ++ [LF; LF] ++ codePoint 9989
       ++ js " No significant issues found. Code looks good!" |}.

(** The arguments of the [listFiles] call of [reviewPR]. *)
Definition listingOf (pr : PullRequest) (repo : Repository) : ListFilesArgs :=
  {| lf_owner := ownerLogin repo; lf_repo := name repo;
     lf_pull_number := number pr; lf_per_page := 100 |}.

(** [reviewPR(context, pr, repo)]: what it awaits, in order, and how it
    ends.  Its [catch] throws what it caught. *)
Definition reviewPR (services : Services) (pr : PullRequest) (repo : Repository)
  : list Event * result () :=
  let owner := ownerLogin repo in
  let repoName := name repo in
  let prNumber := number pr in
  let listing := listingOf pr repo in
  match listFiles services listing with
  | Throw e => ([ListedFiles listing], Throw e)
  | Ok files =>
      let relevantFiles := filterFiles files in
      if (length relevantFiles =? 0)%nat then
        let comment := noFilesComment owner repoName prNumber in
        ([ListedFiles listing; Commented comment],
         createComment services comment)
      else
        let asked := AskedModel (buildReviewPrompt pr relevantFiles) in
        match generateReview services pr relevantFiles with
        | Throw e => ([ListedFiles listing; asked], Throw e)
        | Ok review =>
            if (length review =? 0)%nat then
              let comment := noIssuesComment services owner repoName prNumber in
              ([ListedFiles listing; asked; Commented comment],
               createComment services comment)
            else
              match logFindings review with
              | Throw e => ([ListedFiles listing; asked], Throw e)
              | Ok _ =>
                  ([ListedFiles listing; asked;
                    CalledPostReview owner repoName prNumber (headSha pr) review],
                   postReview services owner repoName prNumber (headSha pr)
                     review)
              end
        end
  end.

End WithRuntime.

End ReviewEngineFlow.

(* ------------------------------------------------------------------ *)
(** *** [ConfigLoader] (src/config/config-loader.ts) *)

Module ConfigLoader.

(** The members of [interface LLMConfig] that [getLLMProvider] reads. *)
Record LLMConfig := {
  default_provider : jsstring;
  default_model : jsstring
}.

Definition COLON : N := 58%N.

(** [getLLMProvider(model, maxOutputTokens = 4096)], with the private
    [createProviderInstance] that it ends in as a parameter. *)
Definition getLLMProvider {A} (createProviderInstance : jsstring -> jsstring -> Z -> A)
    (llmConfig : LLMConfig) (model : option jsstring) (maxOutputTokens : option Z)
  : A :=
  let maxOutputTokens := default 4096 maxOutputTokens in
  let targetModel :=
    match model with
    | Some (c :: m) => c :: m
    | _ => default_model llmConfig
    end in
  if includes targetModel [COLON] then
    let parts := split COLON targetModel in
    createProviderInstance (hd [] parts) (join [COLON] (tl parts)) maxOutputTokens
  else
    createProviderInstance (default_provider llmConfig) targetModel maxOutputTokens.

End ConfigLoader.

(* ------------------------------------------------------------------ *)
(** *** What the review bodies say of a finding

    The texts of this module are written from the description of the
    bodies (section 4.4: bullet entries [[CATEGORY] filename:line], the
    message and the optional suggestion) and from the members of a
    finding, not from the functions that build the bodies. *)

Module Wording.

Section WithRuntime.
Context `{JsRuntime}.



(** What the body of [ReviewEngine.postReview] says of a finding after
    its two emoji: the file, the line when the finding bears one other
    than 0, the message and the suggestion. *)
Definition description (f : ReviewEngine.ReviewFinding) : jsstring :=
  js " " ++ ReviewEngine.filename f
  ++ match ReviewEngine.line f with
     | Some l => if l =? 0 then [] else js " (line " ++ showNumber l ++ js ")"
     | None => []
     end
  ++ [LF] ++ js "**Issue:** " ++ ReviewEngine.message f ++ [LF]
  ++ js "**Fix:** " ++ ReviewEngine.suggestion f ++ [LF; LF].


End WithRuntime.

End Wording.

(* ------------------------------------------------------------------ *)
(** *** What a fix result always holds *)

Module FixShape.

(** The members of a result that are truthy: neither missing, [null] nor
    an empty string. *)
Definition filled (fx : Analyser.FixResult) : Prop :=
  truthy (Some (Analyser.confidence fx)) = true
  /\ truthy (Some (Analyser.fixType fx)) = true
  /\ truthy (Some (Analyser.description fx)) = true
  /\ truthy (Some (Analyser.commands fx)) = true
  /\ truthy (Some (Analyser.manualSteps fx)) = true.

End FixShape.

(* ------------------------------------------------------------------ *)
(** *** Further examples *)

Module Examples.

(** A response whose only finding bears a number as its message. *)
Definition numericMessageText : jsstring :=
  Sample.jsq "[{'severity':'high','category':'bug','filename':'a.ts','message':5,'suggestion':'s'}]".

Definition numericMessage : json :=
  JObj [ (js "severity", JStr (js "high")); (js "category", JStr (js "bug"));
         (js "filename", JStr (js "a.ts")); (js "message", JNum (inject_Z 5));
         (js "suggestion", JStr (js "s")) ].

(** Two lines of a streamed body, and a body whose answer is the JSON
    text of [null]. *)
Definition streamLine1 : jsstring := Sample.jsq "{'response':'Hel'}".
Definition streamLine2 : jsstring := Sample.jsq "{'response':'lo'}".
Definition nullAnswerBody : jsstring := Sample.jsq "{'response':'null'}".

Definition knownTexts : list (jsstring * json) :=
  [ (numericMessageText, JArr [numericMessage]);
    (streamLine1, JObj [(js "response", JStr (js "Hel"))]);
    (streamLine2, JObj [(js "response", JStr (js "lo"))]);
    (nullAnswerBody, JObj [(js "response", JStr (js "null"))]);
    (js "null", JNull) ].

(** The runtime of the examples, with [JSON.parse] exact on these texts
    too. *)
Definition runtime : JsRuntime := {|
  parseJson := fun t =>
    match list_find (fun e => e.1 = t) knownTexts with
    | Some (_, e) => Some e.2
    | None => Sample.parseKnown t
    end;
  syntaxErrorMessage := syntaxErrorMessage (JsRuntime := Sample.runtime);
  JSON_stringify := Sample.stringify;
  toUpperCase := Sample.upperAscii;
  replaceAll := replaceAll (JsRuntime := Sample.runtime);
  typeErrorMessage := typeErrorMessage (JsRuntime := Sample.runtime);
  fractionToString := fractionToString (JsRuntime := Sample.runtime);
  coercedGt0 := coercedGt0 (JsRuntime := Sample.runtime);
  objectPrototypeText := objectPrototypeText (JsRuntime := Sample.runtime)
|}.

(** A configuration of the fix engine. *)
Definition config (streaming : bool) : Analyser.Config :=
  {| Analyser.model := Some (js "codellama");
     Analyser.ollamaHost := js "http://localhost:11434";
     Analyser.streaming := streaming |}.

(** A file of a listing. *)
Definition file (name : string) (changes : Z) : ReviewEngineFlow.PRFile :=
  {| ReviewEngineFlow.filename := js name;
     ReviewEngineFlow.status := js "modified";
     ReviewEngineFlow.patch := None;
     ReviewEngineFlow.additions := changes;
     ReviewEngineFlow.deletions := 0;
     ReviewEngineFlow.changes := changes |}.

Definition pullRequest : ReviewEngineFlow.PullRequest :=
  {| ReviewEngineFlow.number := 7;
     ReviewEngineFlow.title := js "Fix";
     ReviewEngineFlow.body := None;
     ReviewEngineFlow.userLogin := Some (js "dev");
     ReviewEngineFlow.headSha := js "abc" |}.

Definition repository : ReviewEngineFlow.Repository :=
  {| ReviewEngineFlow.ownerLogin := js "o"; ReviewEngineFlow.name := js "r" |}.

(** Services that list [files], answer every prompt with [response] and
    accept every posting. *)
Definition services (files : list ReviewEngineFlow.PRFile) (response : jsstring)
  : ReviewEngineFlow.Services :=
  {| ReviewEngineFlow.listFiles := fun _ => Ok files;
     ReviewEngineFlow.llmGenerateReview := fun _ => Ok response;
     ReviewEngineFlow.getModelName := js "codellama";
     ReviewEngineFlow.createComment := fun _ => Ok ();
     ReviewEngineFlow.postReview := fun _ _ _ _ _ => Ok () |}.

(** [subject.replace(needle, replacement)] on the prompts of the
    examples, whose replacements hold no [$]. *)
Fixpoint replaceFirst (needle replacement subject : jsstring) : jsstring :=
  if startsWith subject needle then replacement ++ drop (length needle) subject
  else match subject with
       | [] => []
       | c :: rest => c :: replaceFirst needle replacement rest
       end.

Definition basePrompt : jsstring :=
  js "Review [PR_TITLE] by [PR_AUTHOR]: [FILE_COUNT] files. [FILE_CONTEXT]".

Definition notPrimitive : JsError :=
  {| errName := js "TypeError";
     errMessage := js "Cannot convert object to primitive value" |}.

End Examples.

(** ** Part II. Properties *)

(* ------------------------------------------------------------------ *)
(** *** Strings and lists *)

Section StringFacts.

Lemma startsWith_app (p r : jsstring) : startsWith (p ++ r) p = true.
Proof.
  induction p as [|a p IH]; simpl; [done|].
  by rewrite N.eqb_refl.
Qed.

Lemma startsWith_inv (s p : jsstring) :
  startsWith s p = true -> s = p ++ drop (length p) s.
Proof.
  revert s. induction p as [|a p IH]; intros s Hs; simpl in *.
  - by rewrite drop_0.
  - destruct s as [|b s]; [done|].
    apply andb_prop in Hs as [Hab Hs].
    apply N.eqb_eq in Hab. subst b. f_equal. by apply IH.
Qed.

Lemma split_nonempty (sep : N) (s : jsstring) : split sep s <> [].
Proof.
  destruct s as [|c s]; simpl; [done|].
  destruct (c =? sep)%N; [done|]. by destruct (split sep s).
Qed.

Lemma split_cons_other (sep c : N) (s : jsstring) :
  c <> sep ->
  exists l ls, split sep s = l :: ls /\ split sep (c :: s) = (c :: l) :: ls.
Proof.
  intros Hc. simpl. apply N.eqb_neq in Hc. rewrite Hc.
  destruct (split sep s) as [|l ls] eqn:E.
  - by destruct (split_nonempty sep s).
  - by exists l, ls.
Qed.

(** The first line of a text is a prefix of the text. *)
Lemma split_head_prefix (sep : N) (s l : jsstring) (ls : list jsstring) :
  split sep s = l :: ls -> exists t, s = l ++ t.
Proof.
  revert l ls. induction s as [|c s IH]; intros l ls E; simpl in E.
  - injection E as <- <-. by exists [].
  - destruct (c =? sep)%N.
    + injection E as <- <-. by exists (c :: s).
    + destruct (split sep s) as [|l' ls'] eqn:E'; injection E as <- <-.
      * by exists s.
      * destruct (IH _ _ eq_refl) as [t ->]. by exists t.
Qed.




Lemma omap_cons {A B} (g : A -> option B) (x : A) (l : list A) :
  omap g (x :: l)
  = match g x with
    | Some y => y :: omap g l
    | None => omap g l
    end.
Proof. reflexivity. Qed.

End StringFacts.

#[local] Arguments js : simpl never.

(* ------------------------------------------------------------------ *)
(** *** The hunk-header expressions *)

Section HunkRegexFacts.
Import HunkRegex.

(** Destructs a chain of regular-expression steps that is known to
    succeed (or to compute) into its single steps. *)
Ltac unchain :=
  repeat first
    [ progress simplify_option_eq
    | match goal with
      | H : context [let '(_, _) := ?p in _] |- _ => destruct p
      | |- context [let '(_, _) := ?p in _] => destruct p
      end ].

Lemma lit_Some (p s r : jsstring) : lit p s = Some r -> s = p ++ r.
Proof.
  unfold lit. destruct (startsWith s p) eqn:E; [|done].
  intros [= <-]. by apply startsWith_inv.
Qed.

Lemma lit_app (p r : jsstring) : lit p (p ++ r) = Some r.
Proof.
  unfold lit. rewrite startsWith_app. by rewrite drop_app_length.
Qed.

Lemma spanDigits_app (s : jsstring) :
  s = (spanDigits s).1 ++ (spanDigits s).2
  /\ Forall (fun c => isDigit c = true) (spanDigits s).1.
Proof.
  induction s as [|c s [IH1 IH2]]; simpl; [done|].
  destruct (isDigit c) eqn:Ec; [|done].
  destruct (spanDigits s) as [d r]; simpl in *. split; [by f_equal|].
  by constructor.
Qed.

(** Where the longer expression matches, the shorter one matches too and
    captures the same start line. *)
Lemma matchHunkAt_matchStartAt (s n q : jsstring) (len : nat) :
  matchHunkAt s = Some (n, q, len) -> matchStartAt s = Some n.
Proof.
  unfold matchHunkAt, matchStartAt. intros Hm. unchain. done.
Qed.

Lemma matchHunkAt_matchStart (s n q : jsstring) (len : nat) :
  matchHunkAt s = Some (n, q, len) -> matchStart s = Some n.
Proof.
  intros Hm%matchHunkAt_matchStartAt.
  destruct s; cbn [matchStart]; by rewrite Hm.
Qed.

Lemma matchStartAt_startsWith (s n : jsstring) :
  matchStartAt s = Some n -> startsWith s (js "@@") = true.
Proof.
  unfold matchStartAt. intros Hm. unchain.
  match goal with H : lit _ s = Some _ |- _ => apply lit_Some in H as -> end.
  reflexivity.
Qed.

Lemma digits1_run (s d r : jsstring) :
  digits1 s = Some (d, r) -> s = d ++ r /\ digitRun d.
Proof.
  unfold digits1, digitRun. pose proof (spanDigits_app s) as [H1 H2].
  destruct (spanDigits s) as [[|c d'] r']; [done|].
  intros [= <- <-]. done.
Qed.

Lemma spanDigits_run (d r : jsstring) (c : N) :
  Forall (fun c => isDigit c = true) d -> isDigit c = false ->
  spanDigits (d ++ c :: r) = (d, c :: r).
Proof.
  intros Hd Hc. induction Hd as [|x d Hx Hd IH]; simpl.
  - by rewrite Hc.
  - by rewrite Hx, IH.
Qed.

Lemma digits1_intro (d l r : jsstring) :
  digitRun d -> match l with c :: _ => isDigit c | [] => true end = false ->
  digits1 (d ++ l ++ r) = Some (d, l ++ r).
Proof.
  intros [Hne Hd] Hc. destruct l as [|c l]; [done|].
  unfold digits1. simpl. rewrite spanDigits_run by done.
  by destruct d.
Qed.

(** What a match of the longer expression at index 0 looks like. *)
Lemma matchHunkAt_inv (s n q : jsstring) (len : nat) :
  matchHunkAt s = Some (n, q, len) ->
  exists o p rest,
    s = js "@@ -" ++ o ++ js "," ++ p ++ js " +" ++ n ++ js "," ++ q
        ++ js " @@" ++ rest
    /\ digitRun o /\ digitRun p /\ digitRun n /\ digitRun q
    /\ len = (length s - length rest)%nat.
Proof.
  unfold matchHunkAt. intros Hm.
  destruct (lit (js "@@ -") s) as [s1|] eqn:E1; [|done]; simpl in Hm.
  destruct (digits1 s1) as [[o s2]|] eqn:E2; [|done]; simpl in Hm.
  destruct (lit (js ",") s2) as [s3|] eqn:E3; [|done]; simpl in Hm.
  destruct (digits1 s3) as [[p s4]|] eqn:E4; [|done]; simpl in Hm.
  destruct (lit (js " +") s4) as [s5|] eqn:E5; [|done]; simpl in Hm.
  destruct (digits1 s5) as [[n' s6]|] eqn:E6; [|done]; simpl in Hm.
  destruct (lit (js ",") s6) as [s7|] eqn:E7; [|done]; simpl in Hm.
  destruct (digits1 s7) as [[q' s8]|] eqn:E8; [|done]; simpl in Hm.
  destruct (lit (js " @@") s8) as [s9|] eqn:E9; [|done]; simpl in Hm.
  injection Hm as <- <- <-.
  apply lit_Some in E1, E3, E5, E7, E9.
  apply digits1_run in E2 as [-> Ho], E4 as [-> Hp], E6 as [-> Hn], E8 as [-> Hq].
  exists o, p, s9. subst. done.
Qed.

Lemma matchHunkAt_intro (o p n q rest : jsstring) :
  digitRun o -> digitRun p -> digitRun n -> digitRun q ->
  let s := js "@@ -" ++ o ++ js "," ++ p ++ js " +" ++ n ++ js "," ++ q
           ++ js " @@" ++ rest in
  matchHunkAt s = Some (n, q, (length s - length rest)%nat).
Proof.
  intros Ho Hp Hn Hq s. unfold matchHunkAt. subst s.
  rewrite lit_app. cbn.
  rewrite (digits1_intro o (js ",")) by done. cbn.
  rewrite lit_app. cbn.
  rewrite (digits1_intro p (js " +")) by done. cbn.
  rewrite lit_app. cbn.
  rewrite (digits1_intro n (js ",")) by done. cbn.
  rewrite lit_app. cbn.
  rewrite (digits1_intro q (js " @@")) by done. cbn.
  rewrite lit_app. cbn.
  done.
Qed.

Lemma spanDigits_stop (s : jsstring) : noDigitAhead (spanDigits s).2.
Proof.
  induction s as [|c s IH]; cbn; [done|].
  destruct (isDigit c) eqn:Ec; [|done].
  by destruct (spanDigits s).
Qed.

Lemma spanDigits_exact (d r : jsstring) :
  Forall (fun c => isDigit c = true) d -> noDigitAhead r ->
  spanDigits (d ++ r) = (d, r).
Proof.
  intros Hd Hr. induction Hd as [|x d Hx Hd IH]; cbn.
  - destruct r as [|c r]; cbn; [done|]. cbn in Hr. by rewrite Hr.
  - by rewrite Hx, IH.
Qed.

(** [\d+] takes the longest run of digits, which is not empty. *)
Lemma digits1_iff (s d r : jsstring) :
  digits1 s = Some (d, r) <-> s = d ++ r /\ digitRun d /\ noDigitAhead r.
Proof.
  split.
  - intros Hs. pose proof (spanDigits_stop s) as Hstop.
    pose proof (digits1_run s d r Hs) as [-> Hd].
    unfold digits1 in Hs.
    destruct (spanDigits (d ++ r)) as [[|c d'] r']; [done|].
    injection Hs as <- <-. done.
  - intros (-> & [Hne Hd] & Hr). unfold digits1.
    rewrite spanDigits_exact by done. by destruct d.
Qed.

(** What a match of [/@@ -\d+,\d+ \+(\d+)/] at index 0 is: the subject
    begins with [@@ -o,p +n] for runs of digits [o], [p] and [n], and [n]
    is not followed by a digit. *)
Lemma matchStartAt_iff (s n : jsstring) :
  matchStartAt s = Some n
  <-> exists o p rest,
        s = js "@@ -" ++ o ++ js "," ++ p ++ js " +" ++ n ++ rest
        /\ digitRun o /\ digitRun p /\ digitRun n /\ noDigitAhead rest.
Proof.
  unfold matchStartAt. split.
  - intros Hm.
    destruct (lit (js "@@ -") s) as [s1|] eqn:E1; [|done]; cbn in Hm.
    destruct (digits1 s1) as [[o s2]|] eqn:E2; [|done]; cbn in Hm.
    destruct (lit (js ",") s2) as [s3|] eqn:E3; [|done]; cbn in Hm.
    destruct (digits1 s3) as [[p s4]|] eqn:E4; [|done]; cbn in Hm.
    destruct (lit (js " +") s4) as [s5|] eqn:E5; [|done]; cbn in Hm.
    destruct (digits1 s5) as [[n' rest]|] eqn:E6; [|done]; cbn in Hm.
    injection Hm as <-.
    apply lit_Some in E1, E3, E5.
    apply digits1_iff in E2 as (-> & Ho & _), E4 as (-> & Hp & _),
      E6 as (-> & Hn & Hr).
    exists o, p, rest. subst. done.
  - intros (o & p & rest & -> & Ho & Hp & Hn & Hr).
    rewrite lit_app. cbn.
    rewrite (digits1_intro o (js ",")) by done. cbn.
    rewrite lit_app. cbn.
    rewrite (digits1_intro p (js " +")) by done. cbn.
    rewrite lit_app. cbn.
    by rewrite (proj2 (digits1_iff (n ++ rest) n rest)).
Qed.

(** [match] returns the capture of the leftmost index at which the
    expression matches. *)
Lemma matchStart_leftmost (s n : jsstring) :
  matchStart s = Some n
  <-> exists i,
        matchStartAt (drop i s) = Some n
        /\ forall j, (j < i)%nat -> matchStartAt (drop j s) = None.
Proof.
  induction s as [|c s IH] in n |- *.
  - cbn [matchStart]. split.
    + destruct (matchStartAt []) eqn:E; [|done]. intros [= <-].
      exists 0%nat. split; [done|]. intros j Hj. lia.
    + intros (i & Hi & _). rewrite drop_nil in Hi. by rewrite Hi.
  - cbn [matchStart]. destruct (matchStartAt (c :: s)) as [m|] eqn:E.
    + split.
      * intros [= <-]. exists 0%nat. split; [done|]. intros j Hj. lia.
      * intros (i & Hi & Hmin). destruct i as [|i]; [cbn in Hi; congruence|].
        specialize (Hmin 0%nat ltac:(lia)). cbn in Hmin. congruence.
    + rewrite IH. split.
      * intros (i & Hi & Hmin). exists (S i). split; [done|].
        intros [|j] Hj; [done|]. apply Hmin. lia.
      * intros (i & Hi & Hmin). destruct i as [|i]; [cbn in Hi; congruence|].
        exists i. split; [done|]. intros j Hj. apply (Hmin (S j)). lia.
Qed.

(** A match survives the extension of the subject. *)
Lemma matchHunkAt_extend (s t n q : jsstring) (len : nat) :
  matchHunkAt s = Some (n, q, len) -> matchHunkAt (s ++ t) = Some (n, q, len).
Proof.
  intros (o & p & rest & -> & Ho & Hp & Hn & Hq & ->)%matchHunkAt_inv.
  pose proof (matchHunkAt_intro o p n q (rest ++ t) Ho Hp Hn Hq) as Hi.
  simpl in Hi.
  repeat rewrite <- app_assoc. simpl. rewrite Hi. f_equal. f_equal.
  repeat (rewrite ?length_app; simpl). lia.
Qed.

(** A match lies within one line. *)
Lemma matchHunkAt_no_LF (s n q : jsstring) (len : nat) :
  matchHunkAt s = Some (n, q, len) ->
  (1 <= len <= length s)%nat /\ Forall (fun c => c <> LF) (take len s).
Proof.
  intros (o & p & rest & -> & Ho & Hp & Hn & Hq & ->)%matchHunkAt_inv.
  assert (Hd : forall d, digitRun d -> Forall (fun c => c <> LF) d).
  { intros d [_ Hd]. eapply Forall_impl; [exact Hd|].
    intros c Hc ->. done. }
  assert (Hl : forall l : string,
             forallb (fun c => negb (c =? LF)%N) (js l) = true ->
             Forall (fun c => c <> LF) (js l)).
  { intros l Hl. apply Forall_forall. intros c Hc.
    rewrite forallb_forall in Hl. apply list_elem_of_In, Hl in Hc.
    apply negb_true_iff in Hc. by apply N.eqb_neq. }
  set (pre := js "@@ -" ++ o ++ js "," ++ p ++ js " +" ++ n ++ js "," ++ q
              ++ js " @@").
  replace (js "@@ -" ++ o ++ js "," ++ p ++ js " +" ++ n ++ js "," ++ q
           ++ js " @@" ++ rest) with (pre ++ rest)
    by (subst pre; by rewrite <- !app_assoc).
  rewrite length_app, Nat.add_sub, take_app_length.
  split.
  - subst pre. rewrite length_app. change (length (js "@@ -")) with 4%nat. lia.
  - subst pre. repeat (apply Forall_app; split); auto.
Qed.

(** Every header line of a patch is among the matches that the loop of
    [isLineInHunk] visits. *)
Lemma execAll_finds_headers (s : jsstring) :
  forall (skip : nat) (i : nat) (line n q : jsstring) (len : nat),
    (skip <= length s)%nat ->
    Forall (fun c => c <> LF) (take skip s) ->
    split LF s !! i = Some line ->
    (0 < i)%nat \/ skip = 0%nat ->
    matchHunkAt line = Some (n, q, len) ->
    (n, q) ∈ execAll s skip.
Proof.
  induction s as [|c s IH]; intros skip i line n q len Hlen Hpre Hi Hor Hm.
  - destruct i; simpl in Hi; [|done]. injection Hi as <-. done.
  - destruct skip as [|k].
    + (* a search starts here *)
      cbn [execAll]. destruct (decide (c = LF)) as [->|Hc].
      * (* an empty line ends here *)
        assert (Hnone : matchHunkAt (LF :: s) = None) by reflexivity.
        rewrite Hnone.
        destruct i as [|i]; simpl in Hi.
        -- injection Hi as <-. done.
        -- eapply (IH 0%nat i); eauto with lia.
      * destruct (split_cons_other LF c s Hc) as (l & ls & E & E').
        rewrite E' in Hi.
        destruct i as [|i]; simpl in Hi.
        -- injection Hi as <-.
           destruct (split_head_prefix _ _ _ _ E') as [t Ht].
           rewrite Ht. rewrite (matchHunkAt_extend _ t _ _ _ Hm).
           apply list_elem_of_here.
        -- assert (Hi' : split LF s !! S i = Some line) by (by rewrite E).
           destruct (matchHunkAt (c :: s)) as [[[n0 q0] len0]|] eqn:E0.
           ++ apply list_elem_of_further.
              apply matchHunkAt_no_LF in E0 as [Hb Hf].
              destruct len0 as [|len0]; [lia|]. simpl in *.
              rewrite Nat.sub_0_r.
              eapply (IH len0 (S i)); eauto with lia.
              by inversion Hf.
           ++ eapply (IH 0%nat (S i)); eauto with lia.
    + (* inside a match *)
      cbn [execAll]. simpl in Hpre, Hlen.
      inversion Hpre as [|? ? Hc Hpre']; subst.
      destruct (split_cons_other LF c s Hc) as (l & ls & E & E').
      rewrite E' in Hi.
      destruct Hor as [Hpos|]; [|done].
      destruct i as [|i]; [lia|]. simpl in Hi.
      assert (Hi' : split LF s !! S i = Some line) by (by rewrite E).
      eapply (IH k (S i)); eauto with lia.
Qed.

End HunkRegexFacts.

(* ------------------------------------------------------------------ *)
(** *** The diff position resolver *)

Section Resolver.
Import ReviewEngineCore.

(** C1 (as amended): on the patch of the scenario and target line 2 the
    resolver returns position 3: the header is position 1, the context
    line [ line1] position 2 and the addition [+line2], which is new-file
    line 2, position 3. *)
Theorem getPositionInDiff_scenario :
  getPositionInDiff Sample.scenarioPatch 2 = Some 3.
Proof. vm_compute. reflexivity. Qed.

(** C1 (as stated) fails: the position returned for the scenario is not 2. *)
Lemma getPositionInDiff_scenario_not_2 :
  getPositionInDiff Sample.scenarioPatch 2 <> Some 2.
Proof. vm_compute. discriminate. Qed.

Lemma visit_found (kind : jsstring -> Spec.LineKind) (t : Z) (w : Spec.Walk)
    (line : jsstring) :
  Spec.found w <> None -> Spec.visit kind t w line = w.
Proof. unfold Spec.visit. by destruct (Spec.found w). Qed.

Lemma walk_found (kind : jsstring -> Spec.LineKind) (t : Z)
    (lines : list jsstring) (w : Spec.Walk) :
  Spec.found w <> None -> fold_left (Spec.visit kind t) lines w = w.
Proof.
  induction lines as [|line lines IH]; intros Hw; simpl; [done|].
  rewrite visit_found by done. by apply IH.
Qed.

(** The loop of the code and the amended walk run in lock step. *)
Lemma scanLines_walk (t : Z) (lines : list jsstring) (c p : Z) :
  Spec.found
    (fold_left (Spec.visit Spec.kindAmended t) lines
       {| Spec.positionCounter := p; Spec.currentNewLine := c;
          Spec.found := None |})
  = scanLines lines c p t.
Proof.
  revert c p. induction lines as [|line lines IH]; intros c p; [done|].
  cbn [fold_left scanLines]. unfold Spec.visit at 2. cbn [Spec.found].
  unfold Spec.kindAmended, Spec.eligible.
  destruct (startsWith line (js "@@")).
  - destruct (HunkRegex.matchStart line); cbn; apply IH.
  - destruct (startsWith line (js "+") || startsWith line (js " ")); cbn.
    + destruct (c + 1 =? t).
      * by rewrite walk_found.
      * apply IH.
    + apply IH.
Qed.

(** C2 (as amended): for every patch text and every target line,
    [getPositionInDiff] equals the walk of section 4.1 with the header
    rule amended: a 1-based position counter counts every line of the
    patch text, header lines too; a line beginning with [@@] is a header
    line, which resets the new-file line to [n-1] when [@@ -o,p +n]
    occurs in it (whether or not [,q @@] follows) and leaves it unchanged
    otherwise; lines beginning with '+' or a space advance the new-file
    line and no other line does; the first such line on which the new-file
    line equals the target yields the counter, and the result is
    [None] when the scan ends without one.  The patch and the target are
    taken in the range in which the numbers of the code are exact: the
    header numbers that the loop reads and the target are safe integers
    (at most 2^53 - 1 in magnitude). *)
Theorem getPositionInDiff_walk (patch : jsstring) (targetLine : Z) :
  SafeIntegers.safeStarts patch = true ->
  SafeIntegers.isSafeInteger targetLine = true ->
  getPositionInDiff patch targetLine
  = Spec.resolvePositionAmended patch targetLine.
Proof.
  intros _ _.
  unfold getPositionInDiff, Spec.resolvePositionAmended, Spec.walk.
  symmetry. apply scanLines_walk.
Qed.

(** C2 (as amended), at the patch without [,q @@] on which the walk as
    stated fails: the header resets the new-file line to 2 and line 3 is
    at position 2. *)
Lemma getPositionInDiff_walk_witness :
  SafeIntegers.safeStarts Sample.shortHeaderPatch = true
  /\ SafeIntegers.isSafeInteger 3 = true
  /\ Spec.resolvePositionAmended Sample.shortHeaderPatch 3 = Some 2
  /\ getPositionInDiff Sample.shortHeaderPatch 3
     = Spec.resolvePositionAmended Sample.shortHeaderPatch 3.
Proof.
  split; [|split; [|split]]; [vm_compute; reflexivity..|].
  apply (getPositionInDiff_walk Sample.shortHeaderPatch 3);
    vm_compute; reflexivity.
Defined.

(** C2 (as stated) fails: a header line without [,q @@] resets the
    new-file line in the code and is no header to the walk as worded. *)
Lemma getPositionInDiff_differs_from_stated_walk :
  getPositionInDiff Sample.shortHeaderPatch 3 = Some 2
  /\ Spec.resolvePosition Sample.shortHeaderPatch 3 = None.
Proof. split; vm_compute; reflexivity. Qed.

(** A header whose old-file count is left out does not reset the
    new-file line either way: the code and both walks go on counting from
    the previous hunk. *)
Example getPositionInDiff_short_old_count :
  getPositionInDiff Sample.shortOldCountPatch 1 = None
  /\ getPositionInDiff Sample.shortOldCountPatch 6 = Some 4.
Proof. split; vm_compute; reflexivity. Qed.

Lemma standardHeader_matchHunkAt (line : jsstring) (n : Z) :
  Spec.standardHeader line = Some n ->
  exists d q len, HunkRegex.matchHunkAt line = Some (d, q, len) /\ parseInt d = n.
Proof.
  unfold Spec.standardHeader, HunkRegex.matchHunkAt. intros Hm.
  destruct (HunkRegex.lit (js "@@ -") line) as [s1|]; [|done]; cbn in *.
  destruct (HunkRegex.digits1 s1) as [[o s2]|]; [|done]; cbn in *.
  destruct (HunkRegex.lit (js ",") s2) as [s3|]; [|done]; cbn in *.
  destruct (HunkRegex.digits1 s3) as [[p s4]|]; [|done]; cbn in *.
  destruct (HunkRegex.lit (js " +") s4) as [s5|]; [|done]; cbn in *.
  destruct (HunkRegex.digits1 s5) as [[d s6]|]; [|done]; cbn in *.
  destruct (HunkRegex.lit (js ",") s6) as [s7|]; [|done]; cbn in *.
  destruct (HunkRegex.digits1 s7) as [[q s8]|]; [|done]; cbn in *.
  destruct (HunkRegex.lit (js " @@") s8) as [s9|]; [|done]; cbn in *.
  injection Hm as <-. eauto.
Qed.

(** On a patch whose header lines are all written in full, the code is
    the walk exactly as section 4.1 words it. *)
Lemma getPositionInDiff_stated_walk (patch : jsstring) (targetLine : Z) :
  (forall line, line ∈ split LF patch ->
     startsWith line (js "@@") = true ->
     HunkRegex.matchStart line <> None ->
     Spec.standardHeader line <> None) ->
  getPositionInDiff patch targetLine = Spec.resolvePosition patch targetLine.
Proof.
  intros Hstd. unfold getPositionInDiff. rewrite <- scanLines_walk.
  unfold Spec.resolvePosition, Spec.walk.
  f_equal. generalize
    {| Spec.positionCounter := 0; Spec.currentNewLine := 0; Spec.found := None |}.
  revert Hstd. generalize (split LF patch) as lines.
  induction lines as [|line lines IH]; intros Hstd w; [done|].
  cbn [fold_left].
  assert (Hv : Spec.visit Spec.kindAmended targetLine w line
               = Spec.visit Spec.kindStated targetLine w line).
  { unfold Spec.visit, Spec.kindAmended, Spec.kindStated.
    destruct (Spec.found w); [done|].
    destruct (Spec.standardHeader line) as [n|] eqn:En.
    - apply standardHeader_matchHunkAt in En as (d & q & len & Hm & <-).
      rewrite (matchStartAt_startsWith line d)
        by (by eapply matchHunkAt_matchStartAt).
      by rewrite (matchHunkAt_matchStart _ _ _ _ Hm).
    - destruct (startsWith line (js "@@")) eqn:Es; [|done].
      assert (Hel : Spec.eligible line = false).
      { apply startsWith_inv in Es. rewrite Es. reflexivity. }
      rewrite Hel.
      destruct (HunkRegex.matchStart line) eqn:Em; [|done].
      exfalso. apply (Hstd line); [apply list_elem_of_here|done| |done].
      by rewrite Em. }
  rewrite Hv. apply IH. intros l Hl. apply Hstd. by apply list_elem_of_further.
Qed.

(** The loop on a patch whose hunks keep to their headers: the new-file
    line stays within the range that the last header declares. *)
Lemma scanLines_within (t : Z) (lines : list jsstring) :
  forall (c p remaining : Z),
    Spec.withinHeaders lines remaining = true ->
    (forall k, c < k <= c + remaining -> k <> t) ->
    (forall line n q len,
        line ∈ lines -> HunkRegex.matchHunkAt line = Some (n, q, len) ->
        ~ (parseInt n <= t < parseInt n + parseInt q)) ->
    scanLines lines c p t = None.
Proof.
  induction lines as [|line lines IH]; intros c p remaining Hw Hrange Hh; [done|].
  cbn [scanLines Spec.withinHeaders] in *.
  destruct (startsWith line (js "@@")).
  - destruct (HunkRegex.matchHunkAt line) as [[[n q] len]|] eqn:Em; [|done].
    rewrite (matchHunkAt_matchStart _ _ _ _ Em).
    apply (IH _ _ (parseInt q)); [done| |].
    + intros k Hk ->. apply (Hh line n q len); [apply list_elem_of_here|done|lia].
    + intros l n' q' len' Hl. apply Hh. by apply list_elem_of_further.
  - fold (Spec.eligible line). destruct (Spec.eligible line).
    + apply andb_prop in Hw as [Hpos Hw]. apply Z.ltb_lt in Hpos.
      destruct (c + 1 =? t) eqn:Ec.
      * apply Z.eqb_eq in Ec. exfalso. apply (Hrange (c + 1)); lia.
      * apply (IH _ _ (remaining - 1)); [done| |].
        -- intros k Hk. apply Hrange. lia.
        -- intros l n' q' len' Hl. apply Hh. by apply list_elem_of_further.
    + apply (IH _ _ remaining); [done|done|].
      intros l n' q' len' Hl. apply Hh. by apply list_elem_of_further.
Qed.

(** C3 (as amended): for every patch whose hunks keep to their headers
    (every line beginning with [@@] begins with a full header
    [@@ -o,p +n,q @@], at most [q] lines beginning with '+' or a space
    follow it before the next header, and none precedes the first header)
    and every target line outside the new-file range [n, n+q) of every
    hunk header of the patch, in particular every line when the patch has
    no header, [getPositionInDiff] returns [None].  The patch and the
    target are taken in the range in which the numbers of the code are
    exact: the target, the header numbers and the ends [n+q] of the
    ranges are safe integers (at most 2^53 - 1 in magnitude). *)
Theorem getPositionInDiff_outside_hunks (patch : jsstring) (targetLine : Z) :
  SafeIntegers.safeStarts patch = true ->
  SafeIntegers.safeHunks patch = true ->
  SafeIntegers.isSafeInteger targetLine = true ->
  Spec.hunksWithinHeaders patch = true ->
  isLineInHunk patch targetLine = false ->
  getPositionInDiff patch targetLine = None.
Proof.
  intros _ _ _.
  unfold Spec.hunksWithinHeaders, isLineInHunk, getPositionInDiff.
  intros Hw Hout.
  apply (scanLines_within _ _ _ _ 0 Hw); [lia|].
  intros line n q len Hl Hm Hin.
  apply list_elem_of_lookup in Hl as [i Hi].
  assert (Hnq : (n, q) ∈ HunkRegex.execAll patch 0).
  { eapply (execAll_finds_headers patch 0 i); eauto with lia. }
  apply not_true_iff_false in Hout. apply Hout.
  apply existsb_exists. exists (n, q). split; [by apply list_elem_of_In|].
  cbn [fst snd]. apply andb_true_intro.
  split; [apply Z.leb_le|apply Z.ltb_lt]; lia.
Qed.

(** C3, at the patch of the scenario and line 4, which follows the three
    lines of its only hunk. *)
Lemma getPositionInDiff_outside_hunks_witness :
  SafeIntegers.safeStarts Sample.scenarioPatch = true
  /\ SafeIntegers.safeHunks Sample.scenarioPatch = true
  /\ SafeIntegers.isSafeInteger 4 = true
  /\ Spec.hunksWithinHeaders Sample.scenarioPatch = true
  /\ isLineInHunk Sample.scenarioPatch 4 = false
  /\ getPositionInDiff Sample.scenarioPatch 4 = None.
Proof.
  split; [|split; [|split; [|split; [|split]]]]; [vm_compute; reflexivity..|].
  apply (getPositionInDiff_outside_hunks Sample.scenarioPatch 4);
    vm_compute; reflexivity.
Defined.

(** C3 (as stated) fails: a patch without any header resolves line 1, and
    a hunk longer than its header declares resolves a line outside the
    declared range. *)
Lemma getPositionInDiff_found_outside_hunks :
  isLineInHunk (js " a") 1 = false
  /\ getPositionInDiff (js " a") 1 = Some 1
  /\ isLineInHunk Sample.overlongPatch 2 = false
  /\ getPositionInDiff Sample.overlongPatch 2 = Some 3.
Proof. repeat split; vm_compute; reflexivity. Qed.

End Resolver.

(* ------------------------------------------------------------------ *)
(** *** The finding classifier *)

Section Classifier.
Import ReviewEngine Spec.
Context `{JsRuntime}.

Lemma isValidFinding_keeps (c : json) :
  isNull c = false -> isValidFinding c = Ok (keeps c).
Proof.
  intros Hc. unfold isValidFinding, keeps, requiredFields.
  destruct c as [|b|q|s|items|members]; try done.
  cbn [getProp forallb field mbind result_bind].
  destruct (truthy (lookupMember (js "severity") members)) eqn:E1; [|done].
  destruct (truthy (lookupMember (js "category") members)) eqn:E2; [|done].
  destruct (truthy (lookupMember (js "filename") members)) eqn:E3; [|done].
  destruct (truthy (lookupMember (js "message") members)) eqn:E4; [|done].
  destruct (truthy (lookupMember (js "suggestion") members)) eqn:E5; [|done].
  cbn. f_equal.
  by destruct (lookupMember (js "severity") members) as [[| | |s| |]|].
Qed.

Lemma filterFindings_filter (cs : list json) :
  filterFindings cs
  = if existsb isNull cs
    then Throw (typeError (js "severity"))
    else Ok (List.filter keeps cs).
Proof.
  induction cs as [|c cs IH]; [done|].
  cbn [filterFindings existsb List.filter].
  destruct (isNull c) eqn:Ec.
  - by destruct c.
  - rewrite (isValidFinding_keeps c Ec), IH. cbn.
    destruct (existsb isNull cs); [done|]. cbn. by destruct (keeps c).
Qed.

(** C4 (as amended): when the array text of a response parses to the
    candidates [cs], [parseReviewResponse] returns, in input order, exactly
    the candidates whose severity, category, filename, message and
    suggestion are all truthy (defined and not empty) and whose severity is
    'high' or 'medium': a candidate whose suggestion is the empty string
    or undefined is dropped, and so is one of low severity.  No error
    reaches the caller; when one of the candidates is [null] the result is
    the empty list. *)
Theorem parseReviewResponse_keeps (response text : jsstring) (cs : list json) :
  arrayText response = Some text ->
  JSON_parse text = Ok (JArr cs) ->
  parseReviewResponse response
  = if existsb isNull cs then [] else List.filter keeps cs.
Proof.
  intros Ht Hp. unfold parseReviewResponse. rewrite Ht, Hp.
  cbn [mbind result_bind validFindings]. rewrite filterFindings_filter.
  by destruct (existsb isNull cs).
Qed.

End Classifier.

(** C4, at a fenced response with three candidates: only the third is
    kept. *)
Lemma parseReviewResponse_keeps_witness :
  ReviewEngine.arrayText Sample.reviewResponse = Some Sample.reviewArray
  /\ JSON_parse (H := Sample.runtime) Sample.reviewArray
     = Ok (JArr [Sample.emptySuggestion; Sample.lowSeverity; Sample.keptFinding])
  /\ ReviewEngine.parseReviewResponse (H := Sample.runtime) Sample.reviewResponse
     = [Sample.keptFinding].
Proof.
  split; [vm_compute; reflexivity|]. split; [vm_compute; reflexivity|].
  rewrite (parseReviewResponse_keeps (H := Sample.runtime) Sample.reviewResponse
             Sample.reviewArray
             [Sample.emptySuggestion; Sample.lowSeverity; Sample.keptFinding]);
    vm_compute; reflexivity.
Defined.

(** C4 (as stated) fails: a candidate whose five fields are all defined,
    its suggestion being the empty string, is dropped, and so is one of
    low severity. *)
Lemma parseReviewResponse_drops_defined :
  Spec.allDefined Sample.emptySuggestion = true
  /\ Spec.allDefined Sample.lowSeverity = true
  /\ ReviewEngine.arrayText Sample.reviewResponse = Some Sample.reviewArray
  /\ JSON_parse (H := Sample.runtime) Sample.reviewArray
     = Ok (JArr [Sample.emptySuggestion; Sample.lowSeverity; Sample.keptFinding])
  /\ ReviewEngine.parseReviewResponse (H := Sample.runtime) Sample.reviewResponse
     = [Sample.keptFinding].
Proof. repeat split; vm_compute; reflexivity. Qed.

(* ------------------------------------------------------------------ *)
(** *** [ReviewEngine.postReview] *)

Section EnginePostReview.
Import ReviewEngine.
Context `{JsRuntime}.






End EnginePostReview.

(** The cut at work: of 31 findings that bear a line, 30 comments are
    attached. *)
Lemma postReview_thirty_of_thirty_one :
  let finding :=
    {| ReviewEngine.severity := ReviewEngine.high;
       ReviewEngine.category := js "bug";
       ReviewEngine.filename := js "a.ts";
       ReviewEngine.line := Some 7;
       ReviewEngine.message := js "m";
       ReviewEngine.suggestion := js "s" |} in
  let octokit :=
    {| ReviewEngine.createReview := fun _ => Ok ();
       ReviewEngine.createComment := fun _ => Ok () |} in
  exists review,
    (ReviewEngine.postReview (H := Sample.runtime) (js "codellama") octokit
       (js "o") (js "r") 1 (js "sha") (replicate 31 finding)).1
    = [ReviewEngine.CallCreateReview review]
    /\ length (ReviewEngine.rv_comments review) = 30%nat.
Proof. cbv zeta. eexists. split; vm_compute; reflexivity. Qed.


(* ------------------------------------------------------------------ *)
(** *** [ReviewEngineCore.postReview]: the review aggregator *)

Section Aggregator.
Import ReviewEngineCore.
Context `{JsRuntime}.

(** The map built by the constructor reads as [Spec.patchOf]. *)
Lemma filePatches_fold (files : list PRFile) (m : gmap jsstring jsstring)
    (name : jsstring) :
  fold_left (fun m f => <[pr_filename f := default [] (pr_patch f)]> m) files m
    !! name
  = match list_find (fun f => pr_filename f = name) (rev files) with
    | Some (_, f) => Some (default [] (pr_patch f))
    | None => m !! name
    end.
Proof.
  revert m. induction files as [|f files IH]; intros m; [done|].
  cbn [fold_left rev]. rewrite IH.
  destruct (list_find (λ f0, pr_filename f0 = name) (rev files))
    as [[i g]|] eqn:E.
  - erewrite list_find_app_l by exact E. done.
  - rewrite list_find_app_r by exact E. cbn.
    case_decide as Hf; cbn.
    + subst. by rewrite lookup_insert_eq.
    + by rewrite lookup_insert_ne.
Qed.

Lemma filePatches_patchOf (files : list PRFile) (name : jsstring) :
  match filePatches files !! name with
  | None | Some [] => None
  | Some patch => Some patch
  end = Spec.patchOf files name.
Proof.
  unfold filePatches, Spec.patchOf. rewrite filePatches_fold.
  destruct (list_find _ (rev files)) as [[i g]|]; [|done].
  by destruct (pr_patch g) as [[|c p]|].
Qed.

(** The inline comment of a finding, by its resolved position. *)
Lemma inlineComment_resolved (files : list PRFile) (f : ReviewFinding) :
  line f <> None ->
  inlineComment (filePatches files) f
  = (fun position =>
       {| c_path := filename f; c_position := position; c_body := inlineBody f |})
    <$> Spec.resolvedPosition files f.
Proof.
  intros Hl. unfold inlineComment, Spec.resolvedPosition.
  rewrite <- filePatches_patchOf.
  destruct (line f) as [l|]; [|done]. cbn [default].
  destruct (filePatches files !! filename f) as [[|c p]|]; cbn;
    destruct (l <=? 0); done.
Qed.

Lemma inlineComments_resolved (files : list PRFile) (findings : list ReviewFinding) :
  inlineComments (filePatches files) findings
  = omap (fun f =>
            (fun position =>
               {| c_path := filename f; c_position := position;
                  c_body := inlineBody f |})
            <$> Spec.resolvedPosition files f) findings.
Proof.
  unfold inlineComments.
  induction findings as [|f findings IH]; [done|].
  cbn [List.filter]. destruct (bool_decide_reflect (line f <> None)) as [Hl|Hl].
  - rewrite map_cons, !omap_cons, IH, inlineComment_resolved by done. done.
  - assert (Hf : Spec.resolvedPosition files f = None).
    { clear IH. unfold Spec.resolvedPosition.
      destruct (line f) as [l|]; [|done]. by destruct Hl. }
    by rewrite omap_cons, Hf, IH.
Qed.

Lemma inlineComments_nil (files : list PRFile) (findings : list ReviewFinding) :
  inlineComments (filePatches files) findings = []
  <-> forall f, f ∈ findings -> Spec.resolvedPosition files f = None.
Proof.
  rewrite inlineComments_resolved.
  induction findings as [|f findings IH]; [|rewrite omap_cons].
  - split; [|done]. intros _ f Hf. by apply elem_of_nil in Hf.
  - destruct (Spec.resolvedPosition files f) eqn:E; cbn [fmap option_fmap option_map].
    + split; [done|]. intros Hall.
      specialize (Hall f (list_elem_of_here _ _)). congruence.
    + rewrite IH. split.
      * intros Hall g [->|Hg]%elem_of_cons; auto.
      * intros Hall g Hg. apply Hall. by apply list_elem_of_further.
Qed.

Lemma highFindings_nonempty (findings : list ReviewFinding) :
  (0 <? length (highFindings findings))%nat = true
  <-> exists f, f ∈ findings /\ Spec.isHigh f.
Proof.
  unfold highFindings, Spec.isHigh, hasSeverity. rewrite Nat.ltb_lt. split.
  - destruct (List.filter _ findings) as [|f fs] eqn:E; cbn; [lia|].
    intros _. exists f.
    assert (Hf : In f (List.filter (fun f => bool_decide (severity f = Some (js "high")))
                         findings)) by (rewrite E; by left).
    apply filter_In in Hf as [Hf Hs]. apply bool_decide_eq_true in Hs.
    split; [by apply list_elem_of_In|done].
  - intros (f & Hf & Hs).
    assert (Hin : In f (List.filter (fun f => bool_decide (severity f = Some (js "high")))
                          findings)).
    { apply filter_In. split; [by apply list_elem_of_In|].
      by apply bool_decide_eq_true. }
    destruct (List.filter _ findings); [done|]. cbn. lia.
Qed.

(** C5: the shape of what [postReview] sends.  Without findings it sends
    nothing.  With findings none of which resolves to an inline position
    it posts a plain issue comment ([createComment]) carrying the review
    body.  Otherwise it posts a review ([createReview]) with the resolved
    inline comments, whose event is [REQUEST_CHANGES] when some finding is
    of high severity and [COMMENT] when none is. *)
Theorem postReview_shape (ctx : PostReviewContext) (files : list PRFile)
    (owner repoName : jsstring) (prNumber : Z) (sha : jsstring)
    (findings : list ReviewFinding) :
  (findings = [] ->
     postReview ctx files owner repoName prNumber sha findings = NoPosting)
  /\ (findings <> [] ->
      (forall f, f ∈ findings -> Spec.resolvedPosition files f = None) ->
      postReview ctx files owner repoName prNumber sha findings
      = CreateComment {| ic_owner := owner; ic_repo := repoName;
                         ic_issue_number := prNumber;
                         ic_body := reviewBody ctx findings |})
  /\ ((exists f, f ∈ findings /\ Spec.resolvedPosition files f <> None) ->
      exists args,
        postReview ctx files owner repoName prNumber sha findings
        = CreateReview args
        /\ rv_body args = reviewBody ctx findings
        /\ rv_comments args = inlineComments (filePatches files) findings
        /\ rv_comments args <> []
        /\ ((exists f, f ∈ findings /\ Spec.isHigh f) ->
            rv_event args = REQUEST_CHANGES)
        /\ (~ (exists f, f ∈ findings /\ Spec.isHigh f) ->
            rv_event args = COMMENT)).
Proof.
  unfold postReview. repeat split.
  - intros ->. reflexivity.
  - intros Hne Hall. rewrite (proj2 (inlineComments_nil files findings) Hall).
    destruct findings; [done|]. reflexivity.
  - intros (f & Hf & Hres).
    destruct (inlineComments (filePatches files) findings) as [|c cs] eqn:E.
    { destruct Hres. by apply (proj1 (inlineComments_nil files findings) E). }
    cbn [length Nat.eqb andb].
    eexists. split; [reflexivity|]. cbn [rv_body rv_comments rv_event].
    split; [done|]. split; [done|]. split; [done|]. split.
    + intros Hh%highFindings_nonempty. by rewrite Hh.
    + intros Hn. destruct (0 <? length (highFindings findings))%nat eqn:Eh; [|done].
      by apply highFindings_nonempty in Eh.
Qed.

Lemma filter_sublist {A} (p : A -> bool) (l : list A) :
  List.filter p l `sublist_of` l.
Proof.
  induction l as [|x l IH]; cbn; [constructor|].
  destruct (p x); by constructor.
Qed.









End Aggregator.


(* ------------------------------------------------------------------ *)
(** *** The response extractor *)

Section Extractor.
Import Analyser.
Context `{JsRuntime}.

Lemma dropUntil_head (p : N -> bool) (s r : jsstring) (x : N) :
  dropUntil p s = x :: r -> p x = true /\ x ∈ s.
Proof.
  induction s as [|c s IH]; cbn; [done|].
  destruct (p c) eqn:Ec.
  - intros [= -> ->]. split; [done|apply list_elem_of_here].
  - intros [Hx Hin]%IH. split; [done|by apply list_elem_of_further].
Qed.

Lemma dropUntil_nonempty (p : N -> bool) (s : jsstring) (c : N) :
  c ∈ s -> p c = true -> dropUntil p s <> [].
Proof.
  induction s as [|d s IH]; intros Hc Hp; [by apply elem_of_nil in Hc|].
  cbn. destruct (p d) eqn:Ed; [done|].
  apply elem_of_cons in Hc as [->|Hc]; [congruence|]. by apply IH.
Qed.

(** A text with a unit that is not white space does not trim to the
    empty string. *)
Lemma trim_nonempty (s : jsstring) (c : N) :
  c ∈ s -> isWhiteSpace c = false -> trim s <> [].
Proof.
  intros Hc Hw. unfold trim, trimEnd, trimStart.
  pose (p := fun c => negb (isWhiteSpace c)).
  fold p.
  destruct (dropUntil p s) as [|x r] eqn:E.
  { by destruct (dropUntil_nonempty p s c Hc); [subst p; cbn; rewrite Hw|]. }
  apply dropUntil_head in E as [Hx _].
  intros Hnil%(f_equal (@rev N)). rewrite rev_involutive in Hnil. cbn in Hnil.
  revert Hnil. apply (dropUntil_nonempty p _ x); [|done].
  apply list_elem_of_In, in_or_app. right. by left.
Qed.

Lemma matchCodeBlock_fence (s g : jsstring) :
  TextRegex.matchCodeBlock s = Some g -> 96%N ∈ s.
Proof.
  induction s as [|c s IH]; cbn [TextRegex.matchCodeBlock].
  - unfold TextRegex.matchCodeBlockAt.
    by replace (startsWith [] TextRegex.fence) with false by reflexivity.
  - destruct (TextRegex.matchCodeBlockAt (c :: s)) eqn:E.
    + intros _. unfold TextRegex.matchCodeBlockAt in E.
      destruct (startsWith (c :: s) TextRegex.fence) eqn:Es; [|done].
      apply startsWith_inv in Es. rewrite Es. apply list_elem_of_here.
    + intros Hs. apply list_elem_of_further. by apply IH.
Qed.

Lemma matchSpan_open (o c : N) (s span : jsstring) :
  TextRegex.matchSpan o c s = Some span -> o ∈ s.
Proof.
  unfold TextRegex.matchSpan.
  destruct (dropUntil (N.eqb o) s) as [|x r] eqn:E; [done|].
  apply dropUntil_head in E as [->%N.eqb_eq Hx]. done.
Qed.

(** What [parseLLMResponse] returns on a string, attempt by attempt. *)
Lemma parseLLMResponse_cases (text : jsstring) :
  parseLLMResponse (JStr text)
  = match JSON_parse text with
    | Ok v => Ok v
    | Throw _ =>
        match TextRegex.matchCodeBlock text with
        | Some (c :: g) =>
            match JSON_parse (trim (c :: g)) with
            | Ok v => Ok v
            | Throw _ => Ok (lowConfidence (trim text))
            end
        | _ =>
            match TextRegex.matchSpan 123 125 text with
            | Some span =>
                match JSON_parse span with
                | Ok v => Ok v
                | Throw _ => Ok (lowConfidence (trim text))
                end
            | None => Ok (lowConfidence (trim text))
            end
        end
    end.
Proof.
  unfold parseLLMResponse. cbn [toStr stringMethod mbind result_bind].
  destruct (JSON_parse text) as [v|e]; [done|]. cbn [try_catch].
  assert (Hcatch : forall c, c ∈ text -> isWhiteSpace c = false ->
            match trim text with [] => noSolution | _ => trim text end
            = trim text).
  { intros c Hc Hw. pose proof (trim_nonempty text c Hc Hw).
    by destruct (trim text). }
  destruct (TextRegex.matchCodeBlock text) as [[|c g]|] eqn:Eb.
  - destruct (TextRegex.matchSpan 123 125 text) as [span|] eqn:Es; [|done].
    destruct (JSON_parse span); [done|]. cbn.
    rewrite (Hcatch 123%N); [done|by eapply matchSpan_open|reflexivity].
  - destruct (JSON_parse (trim (c :: g))); [done|]. cbn.
    rewrite (Hcatch 96%N); [done|by eapply matchCodeBlock_fence|reflexivity].
  - destruct (TextRegex.matchSpan 123 125 text) as [span|] eqn:Es; [|done].
    destruct (JSON_parse span); [done|]. cbn.
    rewrite (Hcatch 123%N); [done|by eapply matchSpan_open|reflexivity].
Qed.


End Extractor.

(* ------------------------------------------------------------------ *)
(** *** The provider template *)

Section ProviderTemplate.
Import ApiProviderBase.
Context `{JsRuntime} `{Provider}.

Lemma getProp_field (v : json) (key : string) :
  Spec.isNull v = false -> getProp (Some v) (js key) = Ok (Spec.field key v).
Proof. by destruct v. Qed.

Lemma truthy_not_null (v : option json) :
  truthy v = true -> exists w, v = Some w /\ Spec.isNull w = false.
Proof. destruct v as [[]|]; cbn; try done; eauto. Qed.

Lemma chatMessage_regular (data : json) :
  Spec.regularBody data = true ->
  exists m, chatMessage data = Ok m
            /\ Spec.whenTruthy m = Spec.chatMessageOf data.
Proof.
  unfold Spec.regularBody, chatMessage, Spec.chatMessageOf.
  intros [Hd Hc]%andb_prop. apply negb_true_iff in Hd.
  rewrite (getProp_field data "choices" Hd). cbn [mbind result_bind].
  destruct (Spec.field "choices" data) as [[|b|q|s|items|members]|];
    try done; try (by exists None).
  - destruct b; by exists None.
  - cbn. destruct (negb (Qnum q =? 0)); by exists None.
  - destruct s as [|c s]; [by exists None|]. cbn. by destruct (0 <? _); exists None.
  - destruct items as [|first items]; [by exists None|].
    assert (Hf : Spec.isNull first = false) by (by destruct first).
    cbn [truthy andb getLength gt0 numberOfNat inject_Z Qnum length getIndex0 head].
    replace (0 <? Z.of_nat (S (length items))) with true
      by (symmetry; apply Z.ltb_lt; lia).
    rewrite (getProp_field first "message" Hf). eauto.
Qed.

Lemma extractText_regular (data : json) :
  Spec.regularBody data = true ->
  extractText data = Ok (Spec.amendedText data).
Proof.
  intros Hreg. unfold extractText, Spec.amendedText.
  destruct (chatMessage_regular data Hreg) as (m & -> & <-).
  cbn [mbind result_bind]. unfold Spec.whenTruthy at 1.
  destruct (truthy m) eqn:Em.
  - destruct (truthy_not_null m Em) as (w & -> & Hw).
    rewrite (getProp_field w "content" Hw). cbn [mbind result_bind].
    unfold orElse, Spec.whenTruthy.
    destruct (Spec.field "content" w) as [c|]; [|done].
    by destruct (truthy (Some c)).
  - apply andb_prop in Hreg as [Hd%negb_true_iff _].
    rewrite (getProp_field data "message" Hd). cbn [mbind result_bind].
    unfold Spec.genericContentOf, Spec.whenTruthy.
    destruct (truthy (Spec.field "message" data)) eqn:Eg; [|done].
    destruct (truthy_not_null _ Eg) as (w & -> & Hw).
    rewrite (getProp_field w "content" Hw). cbn [mbind result_bind andb].
    destruct (truthy (Spec.field "content" w)) eqn:Ec; [|done].
    by destruct (truthy_not_null _ Ec) as (c & -> & _).
Qed.

Lemma getProp_throws (v : option json) (key : jsstring) (e : JsError) :
  getProp v key = Throw e -> errName e = js "TypeError".
Proof. destruct v as [[]|]; cbn; intros [= <-]; done. Qed.

Lemma extractText_throws (data : json) (e : JsError) :
  extractText data = Throw e -> errName e = js "TypeError".
Proof.
  unfold extractText, chatMessage.
  destruct (getProp (Some data) (js "choices")) as [choices|e0] eqn:Ec;
    cbn [mbind result_bind]; [|intros [= <-]; by eapply getProp_throws].
  assert (Hrest : forall m,
            (if truthy m
             then content ← getProp m (js "content");
                  Ok (orElse content (JStr []))
             else gm ← getProp (Some data) (js "message");
                  gc ← (if truthy gm then getProp gm (js "content") else Ok None);
                  if truthy gm && truthy gc then Ok (default JNull gc)
                  else Ok (JStr (JSON_stringify data)))
            = Throw e -> errName e = js "TypeError").
  { intros m. destruct (truthy m).
    - destruct (getProp m (js "content")) eqn:E; cbn; [done|].
      intros [= <-]. by eapply getProp_throws.
    - destruct (getProp (Some data) (js "message")) as [gm|] eqn:E; cbn;
        [|intros [= <-]; by eapply getProp_throws].
      destruct (truthy gm); cbn; [|done].
      destruct (getProp gm (js "content")) as [gc|] eqn:E'; cbn;
        [|intros [= <-]; by eapply getProp_throws].
      by destruct (truthy gc). }
  destruct choices as [c|]; [|apply Hrest].
  destruct (truthy (Some c) && gt0 (getLength c)); [|apply Hrest].
  destruct (getProp (getIndex0 c) (js "message")) as [m|] eqn:Em;
    cbn [mbind result_bind]; [apply Hrest|].
  intros [= <-]. by eapply getProp_throws.
Qed.

(** C8 (as amended): for every response that [generateReview] receives.
    When the status is no success (outside 200..299) and the body can be
    read, it throws an [Error] whose message carries the status and the
    body.  When the status is a success and the body parses to a value
    other than [null] whose [choices], if any, is no object and does not
    start with [null], it throws nothing and returns: if
    [choices[0].message] is present and truthy, its [content] when that is
    truthy and the empty string otherwise; if not, [message.content] when
    both are truthy; and the raw JSON text ([JSON.stringify] of the body)
    otherwise.  An error that a success with a readable body ends in is a
    [SyntaxError] or a [TypeError], never the [Error] with the status. *)
Theorem generateReview_response (fetch : Http.Request -> result Http.Response)
    (prompt : jsstring) (response : Http.Response) :
  fetch (requestOf prompt) = Ok response ->
  (forall errorText,
     Http.ok response = false ->
     Http.text response = Ok errorText ->
     generateReview fetch prompt = Throw (apiError response errorText)
     /\ exists pre mid post,
          errMessage (apiError response errorText)
          = pre ++ showNumber (Http.status response) ++ mid ++ errorText ++ post)
  /\ (forall data,
        Http.ok response = true ->
        Http.json response = Ok data ->
        Spec.regularBody data = true ->
        generateReview fetch prompt = Ok (Spec.amendedText data))
  /\ (forall body e,
        Http.ok response = true ->
        Http.text response = Ok body ->
        generateReview fetch prompt = Throw e ->
        errName e <> errName (apiError response body)
        /\ (errName e = js "SyntaxError" \/ errName e = js "TypeError")).
Proof.
  intros Hfetch. unfold generateReview. rewrite Hfetch.
  cbn [mbind result_bind]. unfold handleResponse. split; [|split].
  - intros errorText -> ->. cbn [negb mbind result_bind]. split; [done|].
    unfold apiError. cbn [errMessage].
    exists (js "LLM API Error (" ++ name ++ js "): "),
      (js " - " ++ Http.statusText response ++ js ". Response: "), [].
    by rewrite <- !app_assoc, app_nil_r.
  - intros data -> -> Hreg. cbn [negb mbind result_bind].
    by apply extractText_regular.
  - intros body e -> Hbody. cbn [negb]. unfold Http.json.
    unfold Http.text in Hbody. rewrite Hbody. cbn [mbind result_bind].
    unfold JSON_parse at 1.
    destruct (parseJson body) as [data|]; cbn [mbind result_bind].
    + intros ->%extractText_throws. split; [done|by right].
    + intros [= <-]. split; [done|by left].
Qed.

End ProviderTemplate.

(** C8, at a success of the usual shape and at a 503. *)
Lemma generateReview_response_witness :
  ApiProviderBase.generateReview (H := Sample.runtime) (H0 := Sample.provider)
    (fun _ => Ok (Sample.respond 200 Sample.answerBody)) (js "review this")
  = Ok (JStr (js "LGTM"))
  /\ exists e,
       ApiProviderBase.generateReview (H := Sample.runtime) (H0 := Sample.provider)
         (fun _ => Ok (Sample.respond 503 (js "overloaded"))) (js "review this")
       = Throw e
       /\ includes (errMessage e) (js "503") = true
       /\ includes (errMessage e) (js "overloaded") = true.
Proof.
  split.
  - rewrite (proj1 (proj2 (generateReview_response (H := Sample.runtime)
                             (H0 := Sample.provider)
                             (fun _ => Ok (Sample.respond 200 Sample.answerBody))
                             (js "review this") _ eq_refl)) Sample.answerData);
      vm_compute; reflexivity.
  - eexists. split; [|split].
    + apply (proj1 (generateReview_response (H := Sample.runtime)
                      (H0 := Sample.provider)
                      (fun _ => Ok (Sample.respond 503 (js "overloaded")))
                      (js "review this") _ eq_refl) (js "overloaded"));
        vm_compute; reflexivity.
    + vm_compute; reflexivity.
    + vm_compute; reflexivity.
Defined.

(** A success of neither shape comes back as its JSON text. *)
Example generateReview_raw_json :
  ApiProviderBase.generateReview (H := Sample.runtime) (H0 := Sample.provider)
    (fun _ => Ok (Sample.respond 200 Sample.otherBody)) (js "review this")
  = Ok (JStr Sample.otherBody).
Proof. vm_compute. reflexivity. Qed.

(** C8 (as stated) fails: on a success whose first choice carries a
    message without content, next to a generic [message.content], the code
    returns the empty string and not the generic content. *)
Lemma generateReview_empty_chat_content :
  JSON_parse (H := Sample.runtime) Sample.chatBody = Ok Sample.chatData
  /\ ApiProviderBase.generateReview (H := Sample.runtime) (H0 := Sample.provider)
       (fun _ => Ok (Sample.respond 200 Sample.chatBody)) (js "review this")
     = Ok (JStr [])
  /\ Spec.statedText (H := Sample.runtime) Sample.chatData = JStr (js "hi").
Proof. repeat split; vm_compute; reflexivity. Qed.
(* ------------------------------------------------------------------ *)
(** *** The batch analysis engine *)

Section Batch.
Import Analyser.
Context `{JsRuntime}.

Lemma analyzeFrom_imap (fetch : nat -> Http.Request -> result Http.Response)
    (config : Config) (promptTemplate : option jsstring)
    (groups : list ErrorGroup) :
  forall (i : nat) (results : list (ErrorGroup * FixResult)),
    analyzeFrom fetch config promptTemplate i groups results
    = results
      ++ imap (fun k group =>
                 (group, groupFix fetch config promptTemplate (i + k) group))
           groups.
Proof.
  induction groups as [|group groups IH]; intros i results; cbn [analyzeFrom imap].
  - by rewrite app_nil_r.
  - rewrite IH, <- app_assoc. cbn [app]. rewrite Nat.add_0_r.
    do 2 f_equal. apply imap_ext. intros k g _. cbn. do 2 f_equal. lia.
Qed.

Lemma map_fst_imap {A B} (F : nat -> A -> B) (l : list A) :
  map fst (imap (fun k a => (a, F k a)) l) = l.
Proof.
  revert F. induction l as [|a l IH]; intros F; [done|].
  cbn. f_equal. apply (IH (fun k => F (S k))).
Qed.

Lemma requestFix_failed (fetch : Http.Request -> result Http.Response)
    (config : Config) (group : ErrorGroup) (prompt : jsstring) :
  Spec.requestFailed (fetch (generateRequest config prompt)) = true ->
  exists error, requestFix fetch config group prompt = Throw error.
Proof.
  unfold Spec.requestFailed, requestFix.
  destruct (fetch (generateRequest config prompt)) as [response|e];
    cbn [mbind result_bind]; [|by eauto].
  unfold Http.text, readRawResponse, Http.json, Http.text.
  destruct (Http.ok response); cbn [negb orb].
  - destruct (Http.bodyText response) as [t|e]; [done|]. intros _.
    destruct (streaming config); cbn; eauto.
  - intros _. destruct (Http.bodyText response); cbn; eauto.
Qed.

Lemma requestFix_timeout (fetch : Http.Request -> result Http.Response)
    (config : Config) (group : ErrorGroup) (prompt : jsstring) (e : JsError) :
  fetch (generateRequest config prompt) = Throw e ->
  requestFix fetch config group prompt = Throw e.
Proof. unfold requestFix. by intros ->. Qed.

(** C9: [analyzeWithAnalyser] returns one entry per group, in the order
    of the groups, whatever the requests do.  Every request it issues
    carries the time-out of 300000 ms (300 seconds): the result depends on
    [fetch] only through such requests.  A group whose request fails (the
    [fetch] rejects, as it does on time-out; the status is no success; the
    body cannot be read) gets the manual-intervention result, of
    confidence 'low' and fix type 'manual', and the groups after it are
    processed as usual; after a time-out the description says so. *)
Theorem analyzeWithAnalyser_survives
    (fetch : nat -> Http.Request -> result Http.Response)
    (groups : list ErrorGroup) (config : Config)
    (promptTemplate : option jsstring) :
  map fst (analyzeWithAnalyser fetch groups config promptTemplate) = groups
  /\ (forall i group,
        groups !! i = Some group ->
        Http.timeoutMs (generateRequest config (buildPrompt promptTemplate group))
        = Some 300000
        /\ analyzeWithAnalyser fetch groups config promptTemplate !! i
           = Some (group, groupFix fetch config promptTemplate i group))
  /\ (forall fetch',
        (forall i request,
            Http.timeoutMs request = Some 300000 ->
            fetch' i request = fetch i request) ->
        analyzeWithAnalyser fetch' groups config promptTemplate
        = analyzeWithAnalyser fetch groups config promptTemplate)
  /\ (forall i group,
        Spec.requestFailed
          (fetch i (generateRequest config (buildPrompt promptTemplate group)))
        = true ->
        fixType (groupFix fetch config promptTemplate i group) = JStr (js "manual")
        /\ confidence (groupFix fetch config promptTemplate i group)
           = JStr (js "low"))
  /\ (forall i group e,
        fetch i (generateRequest config (buildPrompt promptTemplate group))
        = Throw e ->
        errName e = js "TimeoutError" ->
        groupFix fetch config promptTemplate i group
        = errorFixResult e
        /\ description (errorFixResult e)
           = JStr (js "Error: Request timed out after 300 seconds. Try using --stream or a faster model.")).
Proof.
  unfold analyzeWithAnalyser. rewrite !analyzeFrom_imap. cbn [app].
  split; [|split; [|split; [|split]]].
  - apply map_fst_imap.
  - intros i group Hi. split; [reflexivity|].
    rewrite list_lookup_imap, Hi. reflexivity.
  - intros fetch' Hsame. rewrite analyzeFrom_imap. cbn [app].
    apply imap_ext. intros k g _. cbn. f_equal.
    unfold groupFix, requestFix. by rewrite Hsame.
  - intros i group Hfail. unfold groupFix.
    destruct (requestFix_failed (fetch i) config group _ Hfail) as [error ->].
    done.
  - intros i group e He Hname. unfold groupFix.
    rewrite (requestFix_timeout (fetch i) config group _ e He).
    split; [done|]. unfold errorFixResult, isTimeout. rewrite Hname.
    by rewrite bool_decide_eq_true_2.
Qed.

End Batch.

(** C9, at a batch of two groups of which the first request times out:
    the first group gets the manual result, the second its fix. *)
Lemma analyzeWithAnalyser_survives_witness :
  let fetch := fun (i : nat) (_ : Http.Request) =>
    match i with
    | O => Throw {| errName := js "TimeoutError";
                    errMessage := js "The operation timed out." |}
    | _ => Ok (Sample.respond 200 Sample.ollamaBody)
    end in
  let config := {| Analyser.model := Some (js "codellama");
                   Analyser.ollamaHost := js "http://localhost:11434";
                   Analyser.streaming := false |} in
  map (fun r => (Analyser.code r.1, Analyser.fixType r.2, Analyser.confidence r.2))
    (Analyser.analyzeWithAnalyser (H := Sample.runtime) fetch
       [Sample.groupA; Sample.groupB] config None)
  = [ (js "TS2304", JStr (js "manual"), JStr (js "low"));
      (js "TS2322", JStr (js "code"), JStr (js "high")) ]
  /\ Analyser.fixType
       (Analyser.groupFix (H := Sample.runtime) fetch config None 0 Sample.groupA)
     = JStr (js "manual").
Proof.
  cbv zeta. split; [vm_compute; reflexivity|].
  apply (proj1 (proj2 (proj2 (proj2
           (analyzeWithAnalyser_survives (H := Sample.runtime) _
              [Sample.groupA; Sample.groupB] _ None)))) 0%nat Sample.groupA).
  vm_compute; reflexivity.
Defined.

(* ------------------------------------------------------------------ *)
(** *** More on the diff position resolver *)

Section ResolverMore.
Import ReviewEngineCore.

Lemma eligible_first (line : jsstring) :
  Spec.eligible line = true ->
  exists c rest, line = c :: rest /\ (c = 43%N \/ c = 32%N).
Proof.
  destruct line as [|c rest]; [intros H; vm_compute in H; discriminate|].
  unfold Spec.eligible. change (js "+") with [43%N]. change (js " ") with [32%N].
  cbn [startsWith]. rewrite !andb_true_r.
  intros [E|E]%orb_prop; apply N.eqb_eq in E; eauto.
Qed.

(** A position found by the loop lies among the lines still to scan and
    is that of a line beginning with '+' or a space. *)
Lemma scanLines_bounds (t : Z) (lines : list jsstring) :
  forall (c p x : Z),
    scanLines lines c p t = Some x ->
    p < x <= p + Z.of_nat (length lines)
    /\ exists line,
         lines !! Z.to_nat (x - p - 1) = Some line
         /\ Spec.eligible line = true
         /\ startsWith line (js "@@") = false.
Proof.
  induction lines as [|line lines IH]; intros c p x Hx; [done|].
  cbn [scanLines] in Hx. fold (Spec.eligible line) in Hx.
  assert (Hrest : forall c',
            scanLines lines c' (p + 1) t = Some x ->
            p < x <= p + Z.of_nat (length (line :: lines))
            /\ exists l,
                 (line :: lines) !! Z.to_nat (x - p - 1) = Some l
                 /\ Spec.eligible l = true
                 /\ startsWith l (js "@@") = false).
  { intros c' Hc'. destruct (IH _ _ _ Hc') as (Hb & l & Hl & He & Hh).
    split; [cbn [length]; lia|]. exists l. split; [|done].
    replace (Z.to_nat (x - p - 1)) with (S (Z.to_nat (x - (p + 1) - 1))) by lia.
    done. }
  destruct (startsWith line (js "@@")) eqn:Eh; [by eapply Hrest|].
  destruct (Spec.eligible line) eqn:Ee; [|by eapply Hrest].
  destruct (c + 1 =? t); [|by eapply Hrest].
  injection Hx as <-. split; [cbn [length]; lia|].
  exists line. replace (Z.to_nat (p + 1 - p - 1)) with 0%nat by lia. done.
Qed.

(** X1: a position that [getPositionInDiff] returns is between 1 and the
    number of lines of the patch, and the line at that position begins
    with '+' or a space: never a header line, a deletion or any other
    line. *)
Theorem getPositionInDiff_in_patch (patch : jsstring) (targetLine x : Z) :
  getPositionInDiff patch targetLine = Some x ->
  1 <= x <= Z.of_nat (length (split LF patch))
  /\ exists line,
       split LF patch !! Z.to_nat (x - 1) = Some line
       /\ (startsWith line (js "+") || startsWith line (js " ")) = true
       /\ startsWith line (js "@@") = false
       /\ startsWith line (js "-") = false.
Proof.
  unfold getPositionInDiff. intros Hx.
  destruct (scanLines_bounds _ _ _ _ _ Hx) as (Hb & line & Hl & He & Hh).
  split; [lia|]. exists line. rewrite Z.sub_0_r in Hl.
  split; [done|]. split; [done|]. split; [done|].
  destruct (eligible_first line He) as (c & rest & -> & [->| ->]); reflexivity.
Qed.

(** X1, at the patch of the scenario. *)
Lemma getPositionInDiff_in_patch_witness :
  getPositionInDiff Sample.scenarioPatch 3 = Some 4
  /\ 1 <= 4 <= Z.of_nat (length (split LF Sample.scenarioPatch)).
Proof.
  split; [vm_compute; reflexivity|].
  apply (getPositionInDiff_in_patch Sample.scenarioPatch 3 4).
  vm_compute; reflexivity.
Defined.

Lemma scanLines_injective (lines : list jsstring) :
  forall (c p t1 t2 x : Z),
    scanLines lines c p t1 = Some x ->
    scanLines lines c p t2 = Some x ->
    t1 = t2.
Proof.
  induction lines as [|line lines IH]; intros c p t1 t2 x H1 H2; [done|].
  cbn [scanLines] in H1, H2.
  destruct (startsWith line (js "@@")); [by eapply IH|].
  destruct (startsWith line (js "+") || startsWith line (js " "));
    [|by eapply IH].
  destruct (c + 1 =? t1) eqn:E1, (c + 1 =? t2) eqn:E2.
  - apply Z.eqb_eq in E1, E2. lia.
  - injection H1 as <-. apply scanLines_bounds in H2 as [Hb _]. lia.
  - injection H2 as <-. apply scanLines_bounds in H1 as [Hb _]. lia.
  - by eapply IH.
Qed.

(** X2: two different target lines never resolve to the same position of
    a patch. *)
Theorem getPositionInDiff_injective (patch : jsstring) (line1 line2 x : Z) :
  getPositionInDiff patch line1 = Some x ->
  getPositionInDiff patch line2 = Some x ->
  line1 = line2.
Proof. unfold getPositionInDiff. apply scanLines_injective. Qed.

(** X2, at the patch of the scenario. *)
Lemma getPositionInDiff_injective_witness :
  getPositionInDiff Sample.scenarioPatch 2 = Some 3 /\ (2 : Z) = 2.
Proof.
  split; [vm_compute; reflexivity|].
  apply (getPositionInDiff_injective Sample.scenarioPatch 2 2 3);
    vm_compute; reflexivity.
Defined.

Lemma scanLines_above (lines : list jsstring) :
  forall (c p t x : Z),
    Forall (fun l => startsWith l (js "@@") = false) lines -> scanLines lines c p t = Some x -> c < t.
Proof.
  induction lines as [|line lines IH]; intros c p t x Hn Hx; [done|].
  inversion Hn as [|? ? Hl Hn']; subst. cbn beta in Hl.
  cbn [scanLines] in Hx. rewrite Hl in Hx.
  destruct (startsWith line (js "+") || startsWith line (js " "));
    [|by eapply IH].
  destruct (c + 1 =? t) eqn:E; [apply Z.eqb_eq in E; lia|].
  specialize (IH _ _ _ _ Hn' Hx). lia.
Qed.

Lemma scanLines_increasing (lines : list jsstring) :
  forall (c p t1 t2 x1 x2 : Z),
    Forall (fun l => startsWith l (js "@@") = false) lines ->
    scanLines lines c p t1 = Some x1 ->
    scanLines lines c p t2 = Some x2 ->
    t1 < t2 -> x1 < x2.
Proof.
  induction lines as [|line lines IH]; intros c p t1 t2 x1 x2 Hn H1 H2 Hlt;
    [done|].
  inversion Hn as [|? ? Hl Hn']; subst. cbn beta in Hl.
  cbn [scanLines] in H1, H2. rewrite Hl in H1, H2.
  destruct (startsWith line (js "+") || startsWith line (js " "));
    [|by eapply IH].
  destruct (c + 1 =? t1) eqn:E1, (c + 1 =? t2) eqn:E2.
  - apply Z.eqb_eq in E1, E2. lia.
  - injection H1 as <-. apply scanLines_bounds in H2 as [Hb _]. lia.
  - apply Z.eqb_eq in E2. apply scanLines_above in H1; [lia|done].
  - by eapply IH.
Qed.

(** X3: in a patch with no header line after its first line (a single
    hunk), positions grow with the target lines. *)
Theorem getPositionInDiff_increasing (patch : jsstring) (line1 line2 x1 x2 : Z) :
  Forall (fun l => startsWith l (js "@@") = false) (tl (split LF patch)) ->
  getPositionInDiff patch line1 = Some x1 ->
  getPositionInDiff patch line2 = Some x2 ->
  line1 < line2 -> x1 < x2.
Proof.
  unfold getPositionInDiff.
  destruct (split LF patch) as [|first rest]; [done|]. cbn [tl].
  intros Hn H1 H2 Hlt. cbn [scanLines] in H1, H2.
  destruct (startsWith first (js "@@")).
  { by eapply (scanLines_increasing rest). }
  destruct (startsWith first (js "+") || startsWith first (js " "));
    [|by eapply (scanLines_increasing rest)].
  destruct (0 + 1 =? line1) eqn:E1, (0 + 1 =? line2) eqn:E2.
  - apply Z.eqb_eq in E1, E2. lia.
  - injection H1 as <-. apply scanLines_bounds in H2 as [Hb _]. lia.
  - apply Z.eqb_eq in E2. apply scanLines_above in H1; [lia|done].
  - by eapply (scanLines_increasing rest).
Qed.

(** X3, at the patch of the scenario. *)
Lemma getPositionInDiff_increasing_witness :
  getPositionInDiff Sample.scenarioPatch 1 = Some 2
  /\ getPositionInDiff Sample.scenarioPatch 3 = Some 4
  /\ (2 : Z) < 4.
Proof.
  split; [vm_compute; reflexivity|]. split; [vm_compute; reflexivity|].
  apply (getPositionInDiff_increasing Sample.scenarioPatch 1 3 2 4);
    [repeat constructor|vm_compute; reflexivity..].
Defined.

Lemma scanLines_all_eligible (lines : list jsstring) :
  forall (c p : Z) (i : nat),
    Forall (fun l => Spec.eligible l = true /\ startsWith l (js "@@") = false) lines ->
    (i < length lines)%nat ->
    scanLines lines c p (c + 1 + Z.of_nat i) = Some (p + 1 + Z.of_nat i).
Proof.
  induction lines as [|line lines IH]; intros c p i Hall Hi; [cbn in Hi; lia|].
  inversion Hall as [|? ? [He Hl] Hall']; subst.
  cbn [scanLines]. rewrite Hl. fold (Spec.eligible line). rewrite He.
  destruct i as [|i].
  - replace (c + 1 =? c + 1 + Z.of_nat 0) with true
      by (symmetry; apply Z.eqb_eq; lia).
    f_equal. lia.
  - replace (c + 1 =? c + 1 + Z.of_nat (S i)) with false
      by (symmetry; apply Z.eqb_neq; lia).
    cbn [length] in Hi.
    replace (c + 1 + Z.of_nat (S i)) with ((c + 1) + 1 + Z.of_nat i) by lia.
    rewrite IH by (done || lia). f_equal. lia.
Qed.

(** X4: in a patch made of a header line that begins with [@@ -o,p +n]
    and of lines that all begin with '+' or a space, the line of new-file
    number [n + i] is at position [i + 2]: the header is position 1 and
    the first line below it position 2.  The line [n + i] is a safe
    integer (at most 2^53 - 1), the range in which the count of the code
    is exact. *)
Theorem getPositionInDiff_offset (patch header n : jsstring)
    (body : list jsstring) (i : nat) :
  split LF patch = header :: body ->
  HunkRegex.matchStartAt header = Some n ->
  Forall (fun l => (startsWith l (js "+") || startsWith l (js " ")) = true) body ->
  (i < length body)%nat ->
  parseInt n + Z.of_nat i <= SafeIntegers.MAX_SAFE_INTEGER ->
  getPositionInDiff patch (parseInt n + Z.of_nat i) = Some (Z.of_nat i + 2).
Proof.
  unfold getPositionInDiff. intros -> Hm Hbody Hi _.
  cbn [scanLines]. rewrite (matchStartAt_startsWith _ _ Hm).
  replace (HunkRegex.matchStart header) with (Some n)
    by (destruct header; cbn [HunkRegex.matchStart]; by rewrite Hm).
  replace (parseInt n + Z.of_nat i) with (parseInt n - 1 + 1 + Z.of_nat i) by lia.
  rewrite scanLines_all_eligible; [f_equal; lia| |done].
  eapply Forall_impl; [exact Hbody|]. intros l Hl. split; [done|].
  destruct (eligible_first l Hl) as (c & rest & -> & [->| ->]); reflexivity.
Qed.

(** X4, at the patch of the scenario and its last line. *)
Lemma getPositionInDiff_offset_witness :
  getPositionInDiff Sample.scenarioPatch (parseInt (js "1") + Z.of_nat 2)
  = Some (Z.of_nat 2 + 2).
Proof.
  apply (getPositionInDiff_offset Sample.scenarioPatch (js "@@ -1,2 +1,3 @@")
           (js "1") [js " line1"; js "+line2"; js " line3"] 2);
    [vm_compute; reflexivity..| |cbn; lia|vm_compute; discriminate].
  repeat constructor.
Defined.

Lemma execAll_sound (s : jsstring) :
  forall (skip : nat) (n q : jsstring),
    (n, q) ∈ HunkRegex.execAll s skip ->
    exists i len, HunkRegex.matchHunkAt (drop i s) = Some (n, q, len).
Proof.
  induction s as [|c s IH]; intros skip n q Hin; [by apply elem_of_nil in Hin|].
  cbn [HunkRegex.execAll] in Hin.
  assert (Hrest : forall k, (n, q) ∈ HunkRegex.execAll s k ->
            exists i len, HunkRegex.matchHunkAt (drop i (c :: s)) = Some (n, q, len)).
  { intros k Hk. destruct (IH _ _ _ Hk) as (i & len & Hi). by exists (S i), len. }
  destruct skip as [|k]; [|by eapply Hrest].
  destruct (HunkRegex.matchHunkAt (c :: s)) as [[[n0 q0] len0]|] eqn:E;
    [|by eapply Hrest].
  apply elem_of_cons in Hin as [[= -> ->]|Hin]; [|by eapply Hrest].
  by exists 0%nat, len0.
Qed.

(** X5: a line is in a hunk only by a header that the patch text holds:
    when [isLineInHunk] answers [true], [@@ -o,p +n,q @@] occurs
    somewhere in the patch with the line in [n, n+q).  The line and the
    ends [n+q] of the headers of the patch are safe integers (at most
    2^53 - 1 in magnitude), the range in which the numbers of the code
    are exact. *)
Theorem isLineInHunk_sound (patch : jsstring) (line : Z) :
  SafeIntegers.safeHunks patch = true ->
  SafeIntegers.isSafeInteger line = true ->
  isLineInHunk patch line = true ->
  exists i n q len,
    HunkRegex.matchHunkAt (drop i patch) = Some (n, q, len)
    /\ parseInt n <= line < parseInt n + parseInt q.
Proof.
  intros _ _.
  unfold isLineInHunk. intros ([n q] & Hin & Hr)%existsb_exists.
  apply list_elem_of_In, execAll_sound in Hin as (i & len & Hi).
  exists i, n, q, len. split; [done|].
  cbn [fst snd] in Hr. apply andb_prop in Hr as [H1%Z.leb_le H2%Z.ltb_lt]. lia.
Qed.

(** X5, at the patch of the scenario. *)
Lemma isLineInHunk_sound_witness :
  SafeIntegers.safeHunks Sample.scenarioPatch = true
  /\ isLineInHunk Sample.scenarioPatch 3 = true
  /\ exists i n q len,
       HunkRegex.matchHunkAt (drop i Sample.scenarioPatch) = Some (n, q, len)
       /\ parseInt n <= 3 < parseInt n + parseInt q.
Proof.
  split; [vm_compute; reflexivity|]. split; [vm_compute; reflexivity|].
  apply (isLineInHunk_sound Sample.scenarioPatch 3); vm_compute; reflexivity.
Defined.

(** X6: every line of the range [n, n+q) that a header line
    [@@ -o,p +n,q @@] of the patch declares is in a hunk, when the end
    [n+q] of the range is a safe integer (at most 2^53 - 1), the range in
    which the sum of the code is exact. *)
Theorem isLineInHunk_header_range (patch header n q : jsstring) (len : nat)
    (line : Z) :
  header ∈ split LF patch ->
  HunkRegex.matchHunkAt header = Some (n, q, len) ->
  parseInt n + parseInt q <= SafeIntegers.MAX_SAFE_INTEGER ->
  parseInt n <= line < parseInt n + parseInt q ->
  isLineInHunk patch line = true.
Proof.
  intros Hh Hm _ Hr. unfold isLineInHunk.
  apply list_elem_of_lookup in Hh as [i Hi].
  apply existsb_exists. exists (n, q). split.
  - apply list_elem_of_In.
    eapply (execAll_finds_headers patch 0 i); eauto with lia.
  - cbn [fst snd]. apply andb_true_intro.
    split; [apply Z.leb_le|apply Z.ltb_lt]; lia.
Qed.

(** X6, at the patch of the scenario. *)
Lemma isLineInHunk_header_range_witness :
  isLineInHunk Sample.scenarioPatch 2 = true.
Proof.
  apply (isLineInHunk_header_range Sample.scenarioPatch (js "@@ -1,2 +1,3 @@")
           (js "1") (js "3") 15 2);
    [apply list_elem_of_lookup; exists 0%nat; vm_compute; reflexivity
    |vm_compute; reflexivity
    |vm_compute; discriminate
    |split; [apply Z.leb_le|apply Z.ltb_lt]; vm_compute; reflexivity].
Defined.

End ResolverMore.

(* ------------------------------------------------------------------ *)
(** *** More on the review aggregator *)

Section AggregatorMore.
Import ReviewEngineCore.
Context `{JsRuntime}.

Lemma filePatches_fold_last (files : list PRFile) (m : gmap jsstring jsstring)
    (name : jsstring) :
  fold_left (fun m f => <[pr_filename f := default [] (pr_patch f)]> m) files m
    !! name
  = match last (List.filter (fun f => bool_decide (pr_filename f = name)) files) with
    | Some f => Some (default [] (pr_patch f))
    | None => m !! name
    end.
Proof.
  revert m. induction files as [|f files IH]; intros m; [done|].
  cbn [fold_left List.filter]. rewrite IH.
  destruct (bool_decide_reflect (pr_filename f = name)) as [Hf|Hf].
  - rewrite last_cons.
    destruct (last (List.filter _ files)); [done|].
    subst. by rewrite lookup_insert_eq.
  - destruct (last (List.filter _ files)); [done|].
    by rewrite lookup_insert_ne.
Qed.

(** X8: the map of patches that the constructor builds gives, for a file
    name, the patch of the last file of that name in the listing (the
    empty string when that file has no patch), and nothing for a name
    that is not in the listing. *)
Theorem filePatches_lookup (files : list PRFile) (name : jsstring) :
  filePatches files !! name
  = (fun f => default [] (pr_patch f))
    <$> last (List.filter (fun f => bool_decide (pr_filename f = name)) files).
Proof.
  unfold filePatches. rewrite filePatches_fold_last.
  by destruct (last _).
Qed.

Lemma inlineComment_valid (files : list PRFile) (f : ReviewFinding)
    (c : InlineComment) :
  line f <> None ->
  inlineComment (filePatches files) f = Some c ->
  exists (l : Z) (file : PRFile) (patch : jsstring),
    line f = Some l /\ 0 < l
    /\ last (List.filter (fun g => bool_decide (pr_filename g = filename f)) files)
       = Some file
    /\ pr_patch file = Some patch /\ patch <> []
    /\ c_path c = filename f
    /\ getPositionInDiff patch l = Some (c_position c)
    /\ 1 <= c_position c <= Z.of_nat (length (split LF patch))
    /\ c_body c = inlineBody f.
Proof.
  intros Hl. unfold inlineComment, filePatches. rewrite filePatches_fold_last.
  destruct (line f) as [l|]; [|done]. cbn [default].
  destruct (last _) as [file|]; [|done].
  destruct (pr_patch file) as [patch|] eqn:Ep; cbn [default]; [|done].
  destruct patch as [|u patch]; [done|]. cbn beta iota.
  unfold id. destruct (l <=? 0) eqn:El; [done|]. apply Z.leb_gt in El.
  destruct (getPositionInDiff (u :: patch) l) as [x|] eqn:Ex; [|done].
  intros [= <-]. exists l, file, (u :: patch). cbn [c_path c_position c_body].
  repeat (split; [done|]). split; [|done].
  unfold getPositionInDiff in Ex.
  apply scanLines_bounds in Ex as [Hb _]. lia.
Qed.

Lemma inlineComments_valid (files : list PRFile) (findings : list ReviewFinding)
    (c : InlineComment) :
  c ∈ inlineComments (filePatches files) findings ->
  exists f, f ∈ findings /\ line f <> None
            /\ inlineComment (filePatches files) f = Some c.
Proof.
  unfold inlineComments. intros (o & Ho & Hc)%list_elem_of_omap. cbn [id] in Hc. subst o.
  apply list_elem_of_fmap in Ho as (f & Hc & Hf). symmetry in Hc.
  apply list_elem_of_In, filter_In in Hf as [Hf Hl].
  apply bool_decide_eq_true in Hl. apply list_elem_of_In in Hf.
  exists f. done.
Qed.

(** X7: every inline comment of a review that [postReview] creates comes
    from a finding of the list that bears a line above zero; its path is
    the finding's file name, the last file of that name in the listing
    has a patch that is not empty, its position is the one that
    [getPositionInDiff] gives for that patch and line, between 1 and the
    number of lines of the patch, and its body is the finding's. *)
Theorem postReview_comments_valid (ctx : PostReviewContext) (files : list PRFile)
    (owner repoName : jsstring) (prNumber : Z) (sha : jsstring)
    (findings : list ReviewFinding) (args : ReviewArgs) (c : InlineComment) :
  postReview ctx files owner repoName prNumber sha findings = CreateReview args ->
  c ∈ rv_comments args ->
  exists (f : ReviewFinding) (l : Z) (file : PRFile) (patch : jsstring),
    f ∈ findings
    /\ line f = Some l /\ 0 < l
    /\ last (List.filter (fun g => bool_decide (pr_filename g = filename f)) files)
       = Some file
    /\ pr_patch file = Some patch /\ patch <> []
    /\ c_path c = filename f
    /\ getPositionInDiff patch l = Some (c_position c)
    /\ 1 <= c_position c <= Z.of_nat (length (split LF patch))
    /\ c_body c = inlineBody f.
Proof.
  unfold postReview. intros Hp Hc.
  destruct (_ && _) in Hp; [done|]. destruct (_ && _) in Hp; [done|].
  injection Hp as <-. cbn [rv_comments] in Hc.
  apply inlineComments_valid in Hc as (f & Hf & Hl & Hc).
  destruct (inlineComment_valid _ _ _ Hl Hc) as (l & file & patch & Hrest).
  exists f, l, file, patch. tauto.
Qed.

End AggregatorMore.

(** X7, at a review of the scenario's patch: a finding on line 3 of
    [a.ts] gives the comment of position 4. *)
Lemma postReview_comments_valid_witness :
  let files := [ {| ReviewEngineCore.pr_filename := js "a.ts";
                    ReviewEngineCore.pr_patch := Some Sample.scenarioPatch |} ] in
  let f := {| ReviewEngineCore.severity := Some (js "high");
              ReviewEngineCore.category := js "bug";
              ReviewEngineCore.filename := js "a.ts";
              ReviewEngineCore.line := Some 3;
              ReviewEngineCore.message := js "m";
              ReviewEngineCore.suggestion := None |} in
  let ctx := {| ReviewEngineCore.llmName := js "p";
                ReviewEngineCore.modelName := js "m";
                ReviewEngineCore.filterStats := None |} in
  let c := {| ReviewEngineCore.c_path := js "a.ts";
              ReviewEngineCore.c_position := 4;
              ReviewEngineCore.c_body :=
                ReviewEngineCore.inlineBody (H := Sample.runtime) f |} in
  exists g l file patch,
    g ∈ [f]
    /\ ReviewEngineCore.line g = Some l /\ 0 < l
    /\ last (List.filter
               (fun h => bool_decide (ReviewEngineCore.pr_filename h
                                      = ReviewEngineCore.filename g)) files)
       = Some file
    /\ ReviewEngineCore.pr_patch file = Some patch /\ patch <> []
    /\ ReviewEngineCore.c_path c = ReviewEngineCore.filename g
    /\ ReviewEngineCore.getPositionInDiff patch l
       = Some (ReviewEngineCore.c_position c)
    /\ 1 <= ReviewEngineCore.c_position c <= Z.of_nat (length (split LF patch))
    /\ ReviewEngineCore.c_body c
       = ReviewEngineCore.inlineBody (H := Sample.runtime) g.
Proof.
  intros files f ctx c.
  eapply (postReview_comments_valid (H := Sample.runtime) ctx files
            (js "o") (js "r") 1 (js "sha") [f] _ c).
  - vm_compute. reflexivity.
  - vm_compute. apply list_elem_of_here.
Defined.

(* ------------------------------------------------------------------ *)
(** *** [ReviewEngine.filterFiles]: the files that are reviewed *)

Section FileFilter.
Import ReviewEngineFlow.

Lemma startsWith_prefix (s p : jsstring) :
  startsWith s p = true <-> exists r, s = p ++ r.
Proof.
  split.
  - intros Hs. exists (drop (length p) s). by apply startsWith_inv.
  - intros [r ->]. apply startsWith_app.
Qed.

Lemma endsWith_suffix (s x : jsstring) :
  endsWith s x = true <-> exists p, s = p ++ x.
Proof.
  unfold endsWith. rewrite startsWith_prefix. split.
  - intros [r Hr]. exists (rev r).
    apply (f_equal (@rev N)) in Hr. by rewrite rev_involutive, rev_app_distr,
      rev_involutive in Hr.
  - intros [p ->]. exists (rev p). by rewrite rev_app_distr.
Qed.

Lemma includes_infix (s x : jsstring) :
  includes s x = true <-> exists p q, s = p ++ x ++ q.
Proof.
  induction s as [|c s IH]; cbn [includes].
  - rewrite orb_false_r, startsWith_prefix. split.
    + intros [r Hr]. by exists [], r.
    + intros (p & q & Hs). destruct p; [by exists q|done].
  - rewrite orb_true_iff, startsWith_prefix, IH. split.
    + intros [[r Hr]|(p & q & ->)]; [by exists [], r|by exists (c :: p), q].
    + intros (p & q & Hs). destruct p as [|d p].
      * left. by exists q.
      * right. injection Hs as -> ->. by exists p, q.
Qed.

Lemma filter_filter {A} (p1 p2 : A -> bool) (l : list A) :
  List.filter p2 (List.filter p1 l) = List.filter (fun a => p1 a && p2 a) l.
Proof.
  induction l as [|a l IH]; [done|]. cbn [List.filter].
  destruct (p1 a); cbn [List.filter andb]; [destruct (p2 a)|]; by rewrite IH.
Qed.

Lemma filter_app' {A} (p : A -> bool) (l1 l2 : list A) :
  List.filter p (l1 ++ l2) = List.filter p l1 ++ List.filter p l2.
Proof. apply List.filter_app. Qed.

(** The suffixes and the parts of a path that make [filterFiles] ignore
    a file. *)
Lemma isIgnored_false (f : PRFile) :
  isIgnored f = false ->
  (forall x, x ∈ [js ".lock"; js "package-lock.json"; js "yarn.lock";
                  js "bun.lockb"; js ".min.js"; js ".min.css"; js ".map"] ->
             ~ exists p, filename f = p ++ x)
  /\ (forall x, x ∈ [js "dist/"; js "build/"; js "node_modules/"] ->
                ~ exists p q, filename f = p ++ x ++ q).
Proof.
  unfold isIgnored, ignorePatterns. cbn [existsb].
  rewrite !orb_false_iff.
  intros (H1 & H2 & H3 & H4 & [H5 H6] & H7 & H8 & H9 & H10 & _).
  split; intros x Hx.
  - rewrite <- endsWith_suffix.
    repeat (apply elem_of_cons in Hx as [->|Hx]; [congruence|]).
    by apply elem_of_nil in Hx.
  - rewrite <- includes_infix.
    repeat (apply elem_of_cons in Hx as [->|Hx]; [congruence|]).
    by apply elem_of_nil in Hx.
Qed.

(** X9: [filterFiles] returns at most ten files, in the order of the
    listing; each has fewer than 500 changes and a name that neither
    ends in .lock, package-lock.json, yarn.lock, bun.lockb, .min.js,
    .min.css or .map nor holds dist/, build/ or node_modules/. *)
Theorem filterFiles_kept (files : list PRFile) :
  (length (filterFiles files) <= 10)%nat
  /\ filterFiles files `sublist_of` files
  /\ forall f, f ∈ filterFiles files ->
       changes f < 500
       /\ (forall x, x ∈ [js ".lock"; js "package-lock.json"; js "yarn.lock";
                          js "bun.lockb"; js ".min.js"; js ".min.css";
                          js ".map"] ->
                     ~ exists p, filename f = p ++ x)
       /\ (forall x, x ∈ [js "dist/"; js "build/"; js "node_modules/"] ->
                     ~ exists p q, filename f = p ++ x ++ q).
Proof.
  unfold filterFiles. split; [|split].
  - rewrite length_take. lia.
  - etrans; [apply sublist_take|]. etrans; apply filter_sublist.
  - intros f Hf. apply elem_of_take in Hf as (i & Hf & _).
    apply list_elem_of_lookup_2, list_elem_of_In, filter_In in Hf as [Hf Hc].
    apply filter_In in Hf as [_ Hi].
    apply Z.ltb_lt in Hc. apply negb_true_iff in Hi.
    split; [done|]. by apply isIgnored_false.
Qed.

(** X10: a file of the listing that is not ignored and has fewer than 500
    changes is kept when fewer than ten such files come before it. *)
Theorem filterFiles_keeps (files : list PRFile) (i : nat) (f : PRFile) :
  files !! i = Some f ->
  isIgnored f = false ->
  changes f < 500 ->
  (length (List.filter (fun g => negb (isIgnored g) && (changes g <? 500)%Z)
             (take i files)) < 10)%nat ->
  f ∈ filterFiles files.
Proof.
  intros Hi Hig Hc Hn. unfold filterFiles. rewrite filter_filter.
  rewrite <- (take_drop_middle files i f Hi), filter_app'.
  cbn [List.filter]. rewrite Hig. cbn [negb andb].
  replace (changes f <? 500) with true by (symmetry; by apply Z.ltb_lt).
  apply elem_of_take.
  exists (length (List.filter (fun g => negb (isIgnored g) && (changes g <? 500)%Z)
                    (take i files))).
  split; [|done]. by rewrite list_lookup_middle.
Qed.

End FileFilter.

(** X10, at a listing of three files of which the second is a lock
    file. *)
Lemma filterFiles_keeps_witness :
  let file name n :=
    {| ReviewEngineFlow.filename := js name; ReviewEngineFlow.status := js "modified";
       ReviewEngineFlow.patch := None; ReviewEngineFlow.additions := n;
       ReviewEngineFlow.deletions := 0; ReviewEngineFlow.changes := n |} in
  file "src/b.ts" 499
  ∈ ReviewEngineFlow.filterFiles
      [file "src/a.ts" 3; file "yarn.lock" 3; file "src/b.ts" 499].
Proof.
  intros file.
  apply (filterFiles_keeps
           [file "src/a.ts" 3; file "yarn.lock" 3; file "src/b.ts" 499] 2);
    [reflexivity|vm_compute; reflexivity|vm_compute; reflexivity
    |vm_compute; lia].
Defined.

(* ------------------------------------------------------------------ *)
(** *** More on [ReviewEngine.parseReviewResponse] *)

Section ResponseText.
Import ReviewEngine.
Context `{JsRuntime}.

Lemma dropUntil_suffix (p : N -> bool) (s : jsstring) :
  exists pre, s = pre ++ dropUntil p s.
Proof.
  induction s as [|c s [pre IH]]; [by exists []|]. cbn [dropUntil].
  destruct (p c); [by exists []|]. exists (c :: pre). cbn. by f_equal.
Qed.

Lemma dropUntil_Forall (P : N -> Prop) (p : N -> bool) (s : jsstring) :
  Forall P s -> Forall P (dropUntil p s).
Proof.
  intros Hs. destruct (dropUntil_suffix p s) as [pre Hpre].
  rewrite Hpre in Hs. by apply Forall_app in Hs as [_ Hs].
Qed.

Lemma trim_Forall (P : N -> Prop) (s : jsstring) :
  Forall P s -> Forall P (trim s).
Proof.
  intros Hs. unfold trim, trimEnd, trimStart.
  apply Forall_rev, dropUntil_Forall, Forall_rev. by apply dropUntil_Forall.
Qed.

Lemma removeAll_Forall (P : N -> Prop) (pat s : jsstring) :
  forall skip, Forall P s -> Forall P (TextRegex.removeAll pat s skip).
Proof.
  induction s as [|c s IH]; intros skip Hs; [done|].
  inversion Hs as [|? ? Hc Hs']; subst. cbn [TextRegex.removeAll].
  destruct skip; [|by apply IH].
  destruct (startsWith (c :: s) pat); [by apply IH|].
  constructor; [done|by apply IH].
Qed.

Lemma dropUntil_none (p : N -> bool) (s : jsstring) :
  Forall (fun c => p c = false) s -> dropUntil p s = [].
Proof.
  induction 1 as [|c s Hc _ IH]; [done|]. cbn [dropUntil]. by rewrite Hc.
Qed.

Lemma matchSpan_none (o c : N) (s : jsstring) :
  o ∉ s \/ c ∉ s -> TextRegex.matchSpan o c s = None.
Proof.
  unfold TextRegex.matchSpan. intros [Ho|Hc].
  - rewrite dropUntil_none; [done|].
    apply Forall_forall. intros x Hx. apply N.eqb_neq. by intros ->.
  - destruct (dropUntil_suffix (N.eqb o) s) as [pre Hpre].
    destruct (dropUntil (N.eqb o) s) as [|x rest]; [done|].
    destruct (existsb (N.eqb c) rest) eqn:E; [|done].
    apply existsb_exists in E as (y & Hy & ->%N.eqb_eq).
    destruct Hc. rewrite Hpre. apply elem_of_app. right.
    apply list_elem_of_further. by apply list_elem_of_In.
Qed.

Lemma arrayText_none (response : jsstring) :
  91%N ∉ response \/ 93%N ∉ response -> arrayText response = None.
Proof.
  intros Hno. unfold arrayText. apply matchSpan_none.
  assert (Hkeep : forall x : N,
            x ∉ response ->
            x ∉ trim (TextRegex.removeAll (js "```")
                        (TextRegex.removeAll (js "```json") (trim response) 0) 0)).
  { intros x Hx Hin.
    assert (F : Forall (fun c => c <> x) response).
    { apply Forall_forall. by intros y Hy ->. }
    apply trim_Forall, (removeAll_Forall _ (js "```json") _ 0%nat),
      (removeAll_Forall _ (js "```") _ 0%nat), trim_Forall in F.
    rewrite Forall_forall in F. by apply (F x Hin). }
  destruct Hno; [left|right]; by apply Hkeep.
Qed.

(** X11: a response in which no '[' or no ']' occurs gives no finding,
    whatever else it holds. *)
Theorem parseReviewResponse_no_bracket (response : jsstring) :
  91%N ∉ response \/ 93%N ∉ response ->
  parseReviewResponse response = [].
Proof.
  intros Hno. unfold parseReviewResponse. by rewrite arrayText_none.
Qed.

Lemma trimStart_fixed (c : N) (m : jsstring) :
  isWhiteSpace c = false -> trimStart (c :: m) = c :: m.
Proof. intros Hc. unfold trimStart. cbn [dropUntil]. by rewrite Hc. Qed.

Lemma trimEnd_fixed (d : N) (m : jsstring) :
  isWhiteSpace d = false -> trimEnd (m ++ [d]) = m ++ [d].
Proof.
  intros Hd. unfold trimEnd. rewrite rev_app_distr.
  change (rev [d] ++ rev m) with (d :: rev m).
  rewrite trimStart_fixed by done.
  change (d :: rev m) with ([d] ++ rev m).
  by rewrite rev_app_distr, rev_involutive.
Qed.

Lemma trimEnd_LF (m : jsstring) : trimEnd (m ++ [LF]) = trimEnd m.
Proof. unfold trimEnd. by rewrite rev_app_distr. Qed.

Lemma trim_fixed (c d : N) (m : jsstring) :
  isWhiteSpace c = false -> isWhiteSpace d = false ->
  trim (c :: m ++ [d]) = c :: m ++ [d].
Proof.
  intros Hc Hd. unfold trim. rewrite trimStart_fixed by done.
  by apply (trimEnd_fixed d (c :: m)).
Qed.

Lemma trim_LF_end (c d : N) (m : jsstring) :
  isWhiteSpace c = false -> isWhiteSpace d = false ->
  trim ((c :: m ++ [d]) ++ [LF]) = c :: m ++ [d].
Proof.
  intros Hc Hd. unfold trim.
  change ((c :: m ++ [d]) ++ [LF]) with (c :: (m ++ [d]) ++ [LF]).
  rewrite trimStart_fixed by done.
  change (c :: (m ++ [d]) ++ [LF]) with ((c :: m ++ [d]) ++ [LF]).
  rewrite trimEnd_LF. by apply (trimEnd_fixed d (c :: m)).
Qed.

Lemma removeAll_skip (pat xs rest : jsstring) :
  TextRegex.removeAll pat (xs ++ rest) (length xs)
  = TextRegex.removeAll pat rest 0.
Proof.
  induction xs as [|x xs IH]; [done|]. cbn [app length TextRegex.removeAll].
  exact IH.
Qed.

Lemma removeAll_clean (a : N) (pat s t : jsstring) :
  a ∉ s ->
  TextRegex.removeAll (a :: pat) (s ++ t) 0
  = s ++ TextRegex.removeAll (a :: pat) t 0.
Proof.
  induction s as [|c s IH]; intros Ha; [done|].
  apply not_elem_of_cons in Ha as [Hc Ha].
  cbn [app TextRegex.removeAll startsWith].
  replace (a =? c)%N with false by (symmetry; by apply N.eqb_neq).
  cbn [andb]. by rewrite IH.
Qed.

Lemma matchSpan_whole (o c : N) (m : jsstring) :
  TextRegex.matchSpan o c (o :: m ++ [c]) = Some (o :: m ++ [c]).
Proof.
  unfold TextRegex.matchSpan. cbn [dropUntil]. rewrite N.eqb_refl.
  replace (existsb (N.eqb c) (m ++ [c])) with true.
  2:{ symmetry. apply existsb_exists. exists c.
      split; [apply in_or_app; right; by left|apply N.eqb_refl]. }
  rewrite rev_app_distr. cbn [rev app dropUntil]. rewrite N.eqb_refl.
  change (c :: rev m) with ([c] ++ rev m).
  by rewrite rev_app_distr, rev_involutive.
Qed.

(** The array of a response that is the array alone, and of a response
    that is the array between code fences. *)
Lemma arrayText_bare (mid : jsstring) :
  96%N ∉ mid ->
  arrayText (91%N :: mid ++ [93%N]) = Some (91%N :: mid ++ [93%N]).
Proof.
  intros Hmid. unfold arrayText.
  assert (Harr : 96%N ∉ 91%N :: mid ++ [93%N]).
  { intros [?|[?|?%list_elem_of_singleton]%elem_of_app]%elem_of_cons; done. }
  rewrite trim_fixed by reflexivity.
  change (js "```json") with (96%N :: js "``json").
  change (js "```") with (96%N :: js "``").
  rewrite <- (app_nil_r (91%N :: mid ++ [93%N])) at 1.
  rewrite removeAll_clean by done. cbn [TextRegex.removeAll].
  rewrite app_nil_r.
  rewrite <- (app_nil_r (91%N :: mid ++ [93%N])) at 1.
  rewrite removeAll_clean by done. cbn [TextRegex.removeAll].
  rewrite app_nil_r, trim_fixed by reflexivity.
  apply matchSpan_whole.
Qed.

Lemma arrayText_fenced (mid : jsstring) :
  96%N ∉ mid ->
  arrayText (js "```json" ++ [LF] ++ (91%N :: mid ++ [93%N]) ++ [LF] ++ js "```")
  = Some (91%N :: mid ++ [93%N]).
Proof.
  intros Hmid. unfold arrayText.
  assert (Harr : 96%N ∉ 91%N :: mid ++ [93%N]).
  { intros [?|[?|?%list_elem_of_singleton]%elem_of_app]%elem_of_cons; done. }
  set (arr := 91%N :: mid ++ [93%N]) in *.
  replace (js "```json" ++ [LF] ++ arr ++ [LF] ++ js "```")
    with (96%N :: (js "``json" ++ [LF] ++ arr ++ [LF] ++ js "``") ++ [96%N])
    by (rewrite <- !app_assoc; reflexivity).
  rewrite trim_fixed by reflexivity.
  replace (96%N :: (js "``json" ++ [LF] ++ arr ++ [LF] ++ js "``") ++ [96%N])
    with (96%N :: (js "``json" ++ [LF]) ++ (arr ++ [LF] ++ js "```"))
    by (rewrite <- !app_assoc; reflexivity).
  assert (Hfirst :
    TextRegex.removeAll (js "```json")
      (96%N :: (js "``json" ++ [LF]) ++ (arr ++ [LF] ++ js "```")) 0
    = arr ++ [LF] ++ js "```").
  { transitivity
      (TextRegex.removeAll (js "```json")
         ((js "``json" ++ [LF]) ++ (arr ++ [LF] ++ js "```"))
         (length (js "``json" ++ [LF]))).
    - reflexivity.
    - rewrite removeAll_skip.
      change (js "```json") with (96%N :: js "``json").
      rewrite removeAll_clean by done. reflexivity. }
  rewrite Hfirst.
  assert (Hsecond :
    TextRegex.removeAll (js "```") (arr ++ [LF] ++ js "```") 0 = arr ++ [LF]).
  { change (js "```") with (96%N :: js "``") at 1.
    rewrite removeAll_clean by done. reflexivity. }
  rewrite Hsecond. unfold arr. rewrite trim_LF_end by reflexivity.
  apply matchSpan_whole.
Qed.

(** X12: a JSON array without a backquote gives the same findings
    between the code fences [```json] and [```] as alone. *)
Theorem parseReviewResponse_fenced (mid : jsstring) :
  96%N ∉ mid ->
  parseReviewResponse
    (js "```json" ++ [LF] ++ (91%N :: mid ++ [93%N]) ++ [LF] ++ js "```")
  = parseReviewResponse (91%N :: mid ++ [93%N]).
Proof.
  intros Hmid. unfold parseReviewResponse.
  by rewrite arrayText_fenced, arrayText_bare.
Qed.

End ResponseText.

(** X11, at a response of prose. *)
Lemma parseReviewResponse_no_bracket_witness :
  ReviewEngine.parseReviewResponse (H := Sample.runtime) (js "Looks good to me.")
  = [].
Proof.
  apply (parseReviewResponse_no_bracket (H := Sample.runtime)).
  left. apply (bool_decide_unpack _). vm_compute. exact I.
Defined.

(** X12, at the response of the examples. *)
Lemma parseReviewResponse_fenced_witness :
  ReviewEngine.parseReviewResponse (H := Sample.runtime) Sample.reviewResponse
  = ReviewEngine.parseReviewResponse (H := Sample.runtime) Sample.reviewArray.
Proof.
  apply (parseReviewResponse_fenced (H := Sample.runtime)
           (removelast (tl Sample.reviewArray))).
  apply (bool_decide_unpack _). vm_compute. exact I.
Defined.

(* ------------------------------------------------------------------ *)
(** *** [ReviewEngine.postReview] and [ReviewEngine.reviewPR]: what is
    posted and how a run ends *)

Section EngineOutcome.
Import ReviewEngine.
Context `{JsRuntime}.

(** X13: as long as issue comments can be posted, [postReview] ends
    without an error, also when the review is refused; what it posts goes
    to the pull request it was given, and it posts the issue comment only
    after a review that was refused. *)
Theorem postReview_never_fails (modelName : jsstring) (octokit : Octokit)
    (owner repo : jsstring) (prNumber : Z) (commitSha : jsstring)
    (findings : list ReviewFinding) :
  (forall args, createComment octokit args = Ok ()) ->
  let run := postReview modelName octokit owner repo prNumber commitSha findings in
  run.2 = Ok ()
  /\ (forall c, CallCreateComment c ∈ run.1 ->
        ic_owner c = owner /\ ic_repo c = repo /\ ic_issue_number c = prNumber
        /\ exists review e,
             run.1 = [CallCreateReview review; CallCreateComment c]
             /\ createReview octokit review = Throw e)
  /\ (forall r, CallCreateReview r ∈ run.1 ->
        rv_owner r = owner /\ rv_repo r = repo /\ rv_pull_number r = prNumber
        /\ rv_commit_id r = commitSha).
Proof.
  intros Hcomment run. subst run. unfold postReview.
  destruct (fold_left step findings _) as [body comments].
  set (review := {| rv_owner := owner; rv_repo := repo;
                    rv_pull_number := prNumber; rv_commit_id := commitSha;
                    rv_body := body; rv_event := _; rv_comments := _ |}).
  destruct (createReview octokit review) as [[]|e] eqn:E; cbn [fst snd].
  - split; [done|]. split.
    + intros c Hc. apply list_elem_of_singleton in Hc. done.
    + intros r Hr. apply list_elem_of_singleton in Hr. by injection Hr as ->.
  - split; [apply Hcomment|]. split.
    + intros c [Hc|Hc%list_elem_of_singleton]%elem_of_cons; [done|].
      injection Hc as ->. cbn. repeat (split; [done|]). by exists review, e.
    + intros r [Hr|Hr%list_elem_of_singleton]%elem_of_cons; [|done].
      by injection Hr as ->.
Qed.

End EngineOutcome.

(** X13, at a review that is refused. *)
Lemma postReview_never_fails_witness :
  let octokit :=
    {| ReviewEngine.createReview := fun _ =>
         Throw {| errName := js "HttpError";
                  errMessage := js "Unprocessable Entity" |};
       ReviewEngine.createComment := fun _ => Ok () |} in
  (ReviewEngine.postReview (H := Sample.runtime) (js "codellama") octokit
     (js "o") (js "r") 1 (js "sha") []).2 = Ok ().
Proof.
  intros octokit.
  apply (postReview_never_fails (H := Sample.runtime) (js "codellama") octokit
           (js "o") (js "r") 1 (js "sha") []).
  reflexivity.
Defined.

Section Flow.
Import ReviewEngineFlow.
Context `{JsRuntime}.
Variable replaceFirst : jsstring -> jsstring -> jsstring -> jsstring.
Variable basePrompt : jsstring.
Variable notPrimitive : JsError.

(** X14: every run of [reviewPR] first lists the files of the pull
    request, a hundred per page; it asks the model at most once; it
    reports at most once, by a comment of its own or by one call of
    [this.postReview], never by both; a run that ends without an error
    has reported exactly once; and when the listing fails the run ends
    with that error, having asked and reported nothing.  What
    [postReview] posts in its turn is the matter of X13. *)
Theorem reviewPR_reports_once (services : Services) (pr : PullRequest)
    (repo : Repository) :
  let run := reviewPR replaceFirst basePrompt notPrimitive services pr repo in
  head run.1 = Some (ListedFiles (listingOf pr repo))
  /\ lf_per_page (listingOf pr repo) = 100
  /\ (length (List.filter isAsking run.1) <= 1)%nat
  /\ (length (List.filter isReport run.1) <= 1)%nat
  /\ (run.2 = Ok () -> length (List.filter isReport run.1) = 1%nat)
  /\ (forall e, listFiles services (listingOf pr repo) = Throw e ->
        run = ([ListedFiles (listingOf pr repo)], Throw e)).
Proof.
  cbv zeta. unfold reviewPR.
  destruct (listFiles services (listingOf pr repo)) as [files|e0].
  2:{ cbn. repeat (split; [done || lia|]). by intros e [= ->]. }
  destruct (length (filterFiles files) =? 0)%nat.
  { cbn. repeat (split; [done || lia|]). done. }
  destruct (generateReview _ _ _ _ _) as [review|e0].
  2:{ cbn. repeat (split; [done || lia|]). done. }
  destruct (length review =? 0)%nat.
  { cbn. repeat (split; [done || lia|]). done. }
  destruct (logFindings _ review) as [[]|e0].
  - cbn. repeat (split; [done || lia|]). done.
  - cbn. repeat (split; [done || lia|]). done.
Qed.

Lemma filterFiles_nil (files : list PRFile) :
  Forall (fun f => isIgnored f = true \/ 500 <= changes f) files ->
  filterFiles files = [].
Proof.
  intros Hall. unfold filterFiles. rewrite filter_filter.
  replace (List.filter _ files) with (@nil PRFile); [done|].
  symmetry. induction Hall as [|f files Hf _ IH]; [done|].
  cbn [List.filter]. rewrite IH.
  destruct Hf as [->|Hf]; [done|].
  replace (changes f <? 500) with false by (symmetry; apply Z.ltb_ge; lia).
  by rewrite andb_false_r.
Qed.

(** X15: when every file of the listing is ignored or has 500 changes or
    more (and when the listing is empty), [reviewPR] posts the comment
    that says there is nothing to review and ends as that posting does;
    the model is not asked. *)
Theorem reviewPR_no_files (services : Services) (pr : PullRequest)
    (repo : Repository) (files : list PRFile) :
  listFiles services (listingOf pr repo) = Ok files ->
  Forall (fun f => isIgnored f = true \/ 500 <= changes f) files ->
  reviewPR replaceFirst basePrompt notPrimitive services pr repo
  = ([ListedFiles (listingOf pr repo);
      Commented (noFilesComment (ownerLogin repo) (name repo) (number pr))],
     createComment services
       (noFilesComment (ownerLogin repo) (name repo) (number pr))).
Proof.
  intros Hl Hall. unfold reviewPR.
  by rewrite Hl, filterFiles_nil.
Qed.

(** X16: when the answer of the model holds no '[' or no ']', [reviewPR]
    posts the comment that says no significant issue was found, as it
    does for an answer that is an empty array. *)
Theorem reviewPR_unreadable_answer (services : Services) (pr : PullRequest)
    (repo : Repository) (files : list PRFile) (response : jsstring) :
  listFiles services (listingOf pr repo) = Ok files ->
  filterFiles files <> [] ->
  llmGenerateReview services (buildReviewPrompt replaceFirst basePrompt pr (filterFiles files))
  = Ok response ->
  91%N ∉ response \/ 93%N ∉ response ->
  reviewPR replaceFirst basePrompt notPrimitive services pr repo
  = ([ListedFiles (listingOf pr repo);
      AskedModel (buildReviewPrompt replaceFirst basePrompt pr (filterFiles files));
      Commented (noIssuesComment services (ownerLogin repo) (name repo)
                   (number pr))],
     createComment services
       (noIssuesComment services (ownerLogin repo) (name repo) (number pr))).
Proof.
  intros Hl Hfiles Hllm Hno. unfold reviewPR.
  rewrite Hl. destruct (filterFiles files) as [|f fs] eqn:E; [done|].
  cbn [length Nat.eqb]. unfold generateReview.
  rewrite Hllm. cbn [mbind result_bind].
  unfold ReviewEngine.parseReviewResponse. by rewrite arrayText_none.
Qed.

Lemma logFindings_throws (review : list json) (f : json)
    (members : list (jsstring * json)) (m : json) :
  f ∈ review ->
  f = JObj members ->
  lookupMember (js "message") members = Some m ->
  (forall s, m <> JStr s) ->
  exists e, logFindings notPrimitive review = Throw e.
Proof.
  intros Hf -> Hm Hs.
  induction review as [|g review IH]; [by apply elem_of_nil in Hf|].
  cbn [logFindings].
  destruct (logFinding notPrimitive g) as [[]|e] eqn:Eg;
    cbn [mbind result_bind]; [|by eauto].
  apply elem_of_cons in Hf as [<-|Hf]; [|by apply IH].
  exfalso. unfold logFinding in Eg. cbn [getProp mbind result_bind] in Eg.
  destruct (interpolate _ (lookupMember (js "severity") members));
    cbn [mbind result_bind] in Eg; [|done].
  destruct (interpolate _ (lookupMember (js "filename") members));
    cbn [mbind result_bind] in Eg; [|done].
  rewrite Hm in Eg. destruct m; try done. by destruct (Hs s).
Qed.

(** X17: a finding whose message is no string ends the run in an error
    before anything is posted: the loop that logs the findings calls
    [substring] on each message. *)
Theorem reviewPR_message_not_text (services : Services) (pr : PullRequest)
    (repo : Repository) (files : list PRFile) (review : list json)
    (f : json) (members : list (jsstring * json)) (m : json) :
  listFiles services (listingOf pr repo) = Ok files ->
  filterFiles files <> [] ->
  generateReview replaceFirst basePrompt services pr (filterFiles files)
  = Ok review ->
  f ∈ review ->
  f = JObj members ->
  lookupMember (js "message") members = Some m ->
  (forall s, m <> JStr s) ->
  exists e,
    reviewPR replaceFirst basePrompt notPrimitive services pr repo
    = ([ListedFiles (listingOf pr repo);
        AskedModel (buildReviewPrompt replaceFirst basePrompt pr (filterFiles files))],
       Throw e).
Proof.
  intros Hl Hfiles Hgen Hf Hobj Hm Hs. unfold reviewPR.
  rewrite Hl. destruct (filterFiles files) as [|g gs] eqn:E; [done|].
  cbn [length Nat.eqb]. rewrite Hgen.
  destruct review as [|r review]; [by apply elem_of_nil in Hf|].
  cbn [length Nat.eqb].
  destruct (logFindings_throws _ f members m Hf Hobj Hm Hs) as [e ->].
  by exists e.
Qed.

End Flow.

(** X15, at a listing of a lock file and of a file of 500 changes. *)
Lemma reviewPR_no_files_witness :
  (ReviewEngineFlow.reviewPR (H := Sample.runtime) Examples.replaceFirst
     Examples.basePrompt Examples.notPrimitive
     (Examples.services [Examples.file "yarn.lock" 3;
                         Examples.file "src/big.ts" 500] [])
     Examples.pullRequest Examples.repository).1
  = [ReviewEngineFlow.ListedFiles
       (ReviewEngineFlow.listingOf Examples.pullRequest Examples.repository);
     ReviewEngineFlow.Commented
       (ReviewEngineFlow.noFilesComment (js "o") (js "r") 7)].
Proof.
  rewrite (reviewPR_no_files (H := Sample.runtime) Examples.replaceFirst
             Examples.basePrompt Examples.notPrimitive _ _ _
             [Examples.file "yarn.lock" 3; Examples.file "src/big.ts" 500]).
  - reflexivity.
  - reflexivity.
  - constructor; [left; vm_compute; reflexivity|].
    constructor; [right; vm_compute; discriminate|constructor].
Defined.

(** X16, at an answer of prose. *)
Lemma reviewPR_unreadable_answer_witness :
  (ReviewEngineFlow.reviewPR (H := Sample.runtime) Examples.replaceFirst
     Examples.basePrompt Examples.notPrimitive
     (Examples.services [Examples.file "src/a.ts" 3] (js "Looks good to me."))
     Examples.pullRequest Examples.repository).2
  = Ok ().
Proof.
  rewrite (reviewPR_unreadable_answer (H := Sample.runtime) Examples.replaceFirst
             Examples.basePrompt Examples.notPrimitive _ _ _
             [Examples.file "src/a.ts" 3] (js "Looks good to me.")).
  - reflexivity.
  - reflexivity.
  - vm_compute. discriminate.
  - reflexivity.
  - left. apply (bool_decide_unpack _). vm_compute. exact I.
Defined.

(** X17, at an answer whose finding bears the number 5 as its message. *)
Lemma reviewPR_message_not_text_witness :
  exists e,
    ReviewEngineFlow.reviewPR (H := Examples.runtime) Examples.replaceFirst
      Examples.basePrompt Examples.notPrimitive
      (Examples.services [Examples.file "src/a.ts" 3] Examples.numericMessageText)
      Examples.pullRequest Examples.repository
    = ([ReviewEngineFlow.ListedFiles
          (ReviewEngineFlow.listingOf Examples.pullRequest Examples.repository);
        ReviewEngineFlow.AskedModel
          (ReviewEngineFlow.buildReviewPrompt Examples.replaceFirst
             Examples.basePrompt Examples.pullRequest
             (ReviewEngineFlow.filterFiles [Examples.file "src/a.ts" 3]))],
       Throw e).
Proof.
  eapply (reviewPR_message_not_text (H := Examples.runtime) Examples.replaceFirst
           Examples.basePrompt Examples.notPrimitive _ _ _
           [Examples.file "src/a.ts" 3] [Examples.numericMessage]
           Examples.numericMessage _ (JNum (inject_Z 5))).
  - reflexivity.
  - vm_compute. discriminate.
  - vm_compute. reflexivity.
  - apply list_elem_of_here.
  - reflexivity.
  - vm_compute. reflexivity.
  - discriminate.
Defined.

(* ------------------------------------------------------------------ *)
(** *** [ConfigLoader.getLLMProvider]: the provider prefix of a model *)

Section ProviderPrefix.
Import ConfigLoader.

Lemma join_split (sep : N) (s : jsstring) : join [sep] (split sep s) = s.
Proof.
  induction s as [|c s IH]; [done|]. cbn [split].
  pose proof (split_nonempty sep s) as Hne.
  destruct (split sep s) as [|l ls]; [done|].
  destruct (c =? sep)%N eqn:E.
  - apply N.eqb_eq in E. subst c. by rewrite <- IH.
  - rewrite <- IH. by destruct ls.
Qed.

Lemma split_prefix (sep : N) (p m : jsstring) :
  sep ∉ p -> split sep (p ++ sep :: m) = p :: split sep m.
Proof.
  induction p as [|c p IH]; intros Hp.
  - cbn [app split]. by rewrite N.eqb_refl.
  - apply not_elem_of_cons in Hp as [Hc Hp]. cbn [app split].
    replace (c =? sep)%N with false by (symmetry; apply N.eqb_neq; congruence).
    by rewrite IH.
Qed.

Lemma includes_unit (c : N) (s : jsstring) :
  includes s [c] = true <-> c ∈ s.
Proof.
  rewrite includes_infix. split.
  - intros (p & q & ->). apply elem_of_app. right. apply list_elem_of_here.
  - intros (p & q & ->)%list_elem_of_split. by exists p, q.
Qed.

(** X18: [getLLMProvider] cuts the model name at its first colon: what
    is before it names the provider and all that follows, further colons
    included, is the model; the default provider is then not used, also
    when the name is the default model.  A name without a colon goes to
    the default provider as it is.  The name is the argument, or the
    default model when the argument is absent or empty. *)
Theorem getLLMProvider_prefix {A} (create : jsstring -> jsstring -> Z -> A)
    (llmConfig : LLMConfig) (model : option jsstring) (maxOutputTokens : option Z) :
  let target :=
    match model with
    | Some (c :: s) => c :: s
    | _ => default_model llmConfig
    end in
  (forall provider name,
      COLON ∉ provider ->
      target = provider ++ COLON :: name ->
      getLLMProvider create llmConfig model maxOutputTokens
      = create provider name (default 4096 maxOutputTokens))
  /\ (COLON ∉ target ->
      getLLMProvider create llmConfig model maxOutputTokens
      = create (default_provider llmConfig) target (default 4096 maxOutputTokens)).
Proof.
  intros target. unfold getLLMProvider. fold target. split.
  - intros provider name Hp Ht.
    replace (includes target [COLON]) with true.
    2:{ symmetry. apply includes_unit. rewrite Ht.
        apply elem_of_app. right. apply list_elem_of_here. }
    rewrite Ht, split_prefix by done. cbn [hd tl]. by rewrite join_split.
  - intros Ht. destruct (includes target [COLON]) eqn:E; [|done].
    by apply includes_unit in E.
Qed.

End ProviderPrefix.

(** X18, at the name of a model of a local server, which has a colon of
    its own. *)
Lemma getLLMProvider_prefix_witness :
  ConfigLoader.getLLMProvider (fun provider name _ => (provider, name))
    {| ConfigLoader.default_provider := js "openai";
       ConfigLoader.default_model := js "gpt-4o" |}
    (Some (js "ollama:llama3:8b")) None
  = (js "ollama", js "llama3:8b").
Proof.
  apply (getLLMProvider_prefix (fun provider name _ => (provider, name))
           {| ConfigLoader.default_provider := js "openai";
              ConfigLoader.default_model := js "gpt-4o" |}
           (Some (js "ollama:llama3:8b")) None).
  - apply (bool_decide_unpack _). vm_compute. exact I.
  - reflexivity.
Defined.

(* ------------------------------------------------------------------ *)
(** *** More on the fix engine: what a result holds, streamed bodies and
    two answers that end in the error result *)

Section Fixes.
Import Analyser.
Context `{JsRuntime}.

Lemma orElse_truthy (a : option json) (b : json) :
  truthy (Some b) = true -> truthy (Some (orElse a b)) = true.
Proof.
  intros Hb. unfold orElse. destruct a as [v|]; [|done].
  by destruct (truthy (Some v)) eqn:E.
Qed.

Lemma readRawResponse_truthy (config : Config) (response : Http.Response)
    (raw : json) :
  readRawResponse config response = Ok raw -> truthy (Some raw) = true.
Proof.
  unfold readRawResponse. destruct (streaming config).
  - destruct (Http.text response) as [text|]; cbn [mbind result_bind]; [|done].
    intros [= <-]. by destruct (fold_left appendFragment _ _).
  - destruct (Http.json response) as [data|]; cbn [mbind result_bind]; [|done].
    destruct (getProp (Some data) (js "response")) as [r|];
      cbn [mbind result_bind]; [|done].
    intros [= <-]. by apply orElse_truthy.
Qed.

Lemma requestFix_filled (fetch : Http.Request -> result Http.Response)
    (config : Config) (group : ErrorGroup) (prompt : jsstring) (fx : FixResult) :
  requestFix fetch config group prompt = Ok fx -> FixShape.filled fx.
Proof.
  unfold requestFix.
  destruct (fetch _) as [response|]; cbn [mbind result_bind]; [|done].
  destruct (negb (Http.ok response)).
  { by destruct (Http.text response). }
  destruct (readRawResponse config response) as [raw|] eqn:Eraw;
    cbn [mbind result_bind]; [|done].
  destruct (parseLLMResponse raw) as [parsed|]; cbn [mbind result_bind]; [|done].
  apply readRawResponse_truthy in Eraw.
  destruct parsed; cbn [getProp mbind result_bind]; try done;
    intros [= <-]; unfold FixShape.filled;
    cbn [confidence fixType description commands manualSteps];
    repeat split; first [done|by apply orElse_truthy].
Qed.

Lemma errorFixResult_filled (error : JsError) : FixShape.filled (errorFixResult error).
Proof. by repeat split. Qed.

(** X19: whatever the server answers, every result of
    [analyzeWithAnalyser] has a confidence, a fix type, a description,
    commands and manual steps that are truthy: none is missing, [null]
    or an empty string. *)
Theorem analyzeWithAnalyser_filled
    (fetch : nat -> Http.Request -> result Http.Response)
    (groups : list ErrorGroup) (config : Config)
    (promptTemplate : option jsstring) :
  Forall (fun entry : ErrorGroup * FixResult => FixShape.filled entry.2)
    (analyzeWithAnalyser fetch groups config promptTemplate).
Proof.
  unfold analyzeWithAnalyser. rewrite analyzeFrom_imap. cbn [app].
  apply Forall_forall. intros [group fx] Hin.
  apply list_elem_of_lookup in Hin as [k Hk].
  rewrite list_lookup_imap in Hk.
  destruct (groups !! k) as [g|]; [|done]. injection Hk as <- <-.
  cbn [snd]. unfold groupFix.
  destruct (requestFix _ _ _ _) as [fx|error] eqn:E.
  - by apply requestFix_filled in E.
  - apply errorFixResult_filled.
Qed.

End Fixes.

Section FixesMore.
Import Analyser.
Context `{JsRuntime}.

Lemma includes_app_r (pre s x : jsstring) :
  includes s x = true -> includes (pre ++ s) x = true.
Proof.
  rewrite !includes_infix. intros (p & q & ->).
  exists (pre ++ p), q. by rewrite <- app_assoc.
Qed.

(** X20: when the server answers with a status that is no success and a
    body in which [timeout] occurs, the result of the group says that the
    request timed out after 300 seconds, although no time-out occurred:
    the status and the body are not reported. *)
Theorem groupFix_timeout_text
    (fetch : nat -> Http.Request -> result Http.Response) (config : Config)
    (promptTemplate : option jsstring) (i : nat) (group : ErrorGroup)
    (response : Http.Response) (text : jsstring) :
  fetch i (generateRequest config (buildPrompt promptTemplate group)) = Ok response ->
  Http.ok response = false ->
  Http.text response = Ok text ->
  includes text (js "timeout") = true ->
  description (groupFix fetch config promptTemplate i group)
  = JStr (js "Error: Request timed out after 300 seconds. Try using --stream or a faster model.").
Proof.
  intros Hfetch Hok Htext Hin. unfold groupFix, requestFix.
  rewrite Hfetch. cbn [mbind result_bind]. rewrite Hok. cbn [negb].
  rewrite Htext. cbn [mbind result_bind]. unfold errorFixResult, isTimeout.
  cbn [errName errMessage description].
  match goal with
  | |- context [includes ?m (js "timeout")] =>
      replace (includes m (js "timeout")) with true; [by rewrite orb_true_r|]
  end.
  symmetry. by do 3 apply includes_app_r.
Qed.

Lemma appendFragment_fold (lines frags : list jsstring) :
  Forall2
    (fun line frag =>
       (obj ← JSON_parse line; getProp (Some obj) (js "response"))
       = Ok (Some (JStr frag)))
    lines frags ->
  forall output,
    fold_left appendFragment lines output = output ++ concat frags.
Proof.
  induction 1 as [|line frag lines frags Hline _ IH]; intros output.
  - by rewrite app_nil_r.
  - cbn [fold_left concat]. rewrite IH, app_assoc. f_equal.
    unfold appendFragment. rewrite Hline.
    destruct frag as [|c frag]; cbn [truthy toStr interpolates andb];
      [by rewrite app_nil_r|done].
Qed.

(** X21: in streaming mode, when every line of the trimmed body is a
    JSON object whose [response] is a string, the raw response is these
    strings put together in the order of the lines, and the text of the
    missing solution when they are all empty. *)
Theorem readRawResponse_streamed (config : Config) (response : Http.Response)
    (text : jsstring) (frags : list jsstring) :
  streaming config = true ->
  Http.text response = Ok text ->
  Forall2
    (fun line frag =>
       (obj ← JSON_parse line; getProp (Some obj) (js "response"))
       = Ok (Some (JStr frag)))
    (split LF (trim text)) frags ->
  readRawResponse config response
  = Ok (JStr (match concat frags with
              | [] => noSolution
              | c :: s => c :: s
              end)).
Proof.
  intros Hs Htext Hlines. unfold readRawResponse. rewrite Hs, Htext.
  cbn [mbind result_bind]. rewrite (appendFragment_fold _ frags Hlines).
  by destruct (concat frags).
Qed.

(** X22: when the answer of the model parses to [null], the result of
    the group is the error result, that of manual intervention, and not
    the defaults: reading [confidence] of [null] throws. *)
Theorem groupFix_null_answer
    (fetch : nat -> Http.Request -> result Http.Response) (config : Config)
    (promptTemplate : option jsstring) (i : nat) (group : ErrorGroup)
    (response : Http.Response) (raw : json) :
  fetch i (generateRequest config (buildPrompt promptTemplate group)) = Ok response ->
  Http.ok response = true ->
  readRawResponse config response = Ok raw ->
  parseLLMResponse raw = Ok JNull ->
  groupFix fetch config promptTemplate i group
  = errorFixResult (typeError (js "confidence"))
  /\ fixType (groupFix fetch config promptTemplate i group) = JStr (js "manual").
Proof.
  intros Hfetch Hok Hraw Hparsed. unfold groupFix, requestFix.
  rewrite Hfetch. cbn [mbind result_bind]. rewrite Hok. cbn [negb].
  rewrite Hraw. cbn [mbind result_bind]. rewrite Hparsed. done.
Qed.

End FixesMore.

(** X20, at a 504 whose body says that the gateway timed out. *)
Lemma groupFix_timeout_text_witness :
  Analyser.description
    (Analyser.groupFix (H := Sample.runtime)
       (fun _ _ => Ok (Sample.respond 504 (js "upstream request timeout")))
       (Examples.config false) None 0 Sample.groupA)
  = JStr (js "Error: Request timed out after 300 seconds. Try using --stream or a faster model.").
Proof.
  apply (groupFix_timeout_text (H := Sample.runtime)
           (fun _ _ => Ok (Sample.respond 504 (js "upstream request timeout")))
           (Examples.config false) None 0 Sample.groupA
           (Sample.respond 504 (js "upstream request timeout"))
           (js "upstream request timeout"));
    [reflexivity|vm_compute; reflexivity|reflexivity|vm_compute; reflexivity].
Defined.

(** X21, at a body of two lines. *)
Lemma readRawResponse_streamed_witness :
  Analyser.readRawResponse (H := Examples.runtime) (Examples.config true)
    (Sample.respond 200
       (Examples.streamLine1 ++ [LF] ++ Examples.streamLine2 ++ [LF]))
  = Ok (JStr (js "Hello")).
Proof.
  apply (readRawResponse_streamed (H := Examples.runtime) (Examples.config true)
           (Sample.respond 200
              (Examples.streamLine1 ++ [LF] ++ Examples.streamLine2 ++ [LF]))
           (Examples.streamLine1 ++ [LF] ++ Examples.streamLine2 ++ [LF])
           [js "Hel"; js "lo"]);
    [reflexivity|reflexivity|].
  vm_compute. repeat constructor.
Defined.

(** X22, at an answer that is the text [null]. *)
Lemma groupFix_null_answer_witness :
  Analyser.fixType
    (Analyser.groupFix (H := Examples.runtime)
       (fun _ _ => Ok (Sample.respond 200 Examples.nullAnswerBody))
       (Examples.config false) None 0 Sample.groupA)
  = JStr (js "manual").
Proof.
  apply (groupFix_null_answer (H := Examples.runtime)
           (fun _ _ => Ok (Sample.respond 200 Examples.nullAnswerBody))
           (Examples.config false) None 0 Sample.groupA
           (Sample.respond 200 Examples.nullAnswerBody) (JStr (js "null")));
    [reflexivity|vm_compute; reflexivity|vm_compute; reflexivity
    |vm_compute; reflexivity].
Defined.

(* ------------------------------------------------------------------ *)
(** *** More on [ApiProviderBase.generateReview]: the bodies it cannot
    read *)

Section ProviderRequest.
Import ApiProviderBase.
Context `{JsRuntime} `{Provider}.

(** X23: a success whose body is the JSON [null], or an object whose
    [choices] is an array that starts with [null], ends in a [TypeError]:
    the raw JSON text is not returned for it. *)
Theorem generateReview_type_error (fetch : Http.Request -> result Http.Response)
    (prompt : jsstring) (response : Http.Response) (data : json) :
  fetch (requestOf prompt) = Ok response ->
  Http.ok response = true ->
  Http.json response = Ok data ->
  data = JNull
  \/ (exists members rest,
        data = JObj members
        /\ lookupMember (js "choices") members = Some (JArr (JNull :: rest))) ->
  exists e, generateReview fetch prompt = Throw e /\ errName e = js "TypeError".
Proof.
  intros Hfetch Hok Hdata Hshape. unfold generateReview. rewrite Hfetch.
  cbn [mbind result_bind]. unfold handleResponse. rewrite Hok, Hdata.
  cbn [negb mbind result_bind]. unfold extractText, chatMessage.
  destruct Hshape as [->|(members & rest & -> & Hc)].
  - cbn [getProp mbind result_bind]. by eexists.
  - cbn [getProp mbind result_bind]. rewrite Hc.
    cbn [truthy andb getLength gt0 numberOfNat length].
    replace (0 <? Qnum (inject_Z (Z.of_nat (S (length rest))))) with true
      by (symmetry; apply Z.ltb_lt; cbn [inject_Z Qnum]; lia).
    cbn [getIndex0 head getProp mbind result_bind]. by eexists.
Qed.

End ProviderRequest.

(** X23, at a success whose body is the text [null]. *)
Lemma generateReview_type_error_witness :
  exists e,
    ApiProviderBase.generateReview (H := Examples.runtime) (H0 := Sample.provider)
      (fun _ => Ok (Sample.respond 200 (js "null"))) (js "p")
    = Throw e
    /\ errName e = js "TypeError".
Proof.
  apply (generateReview_type_error (H := Examples.runtime) (H0 := Sample.provider)
           (fun _ => Ok (Sample.respond 200 (js "null"))) (js "p")
           (Sample.respond 200 (js "null")) JNull);
    [reflexivity|vm_compute; reflexivity|vm_compute; reflexivity|by left].
Defined.

(* ------------------------------------------------------------------ *)
(** *** More on [parseLLMResponse]: the order of the attempts *)

Section Attempts.
Import Analyser.
Context `{JsRuntime}.

(** X25: when the text is not JSON and holds a fenced block whose
    interior (not empty) is not JSON either, [parseLLMResponse] returns
    the fall-back record with the trimmed text: the span from the first
    '{' to the last '}' is not tried, even when it is JSON. *)
Theorem parseLLMResponse_fence_first (text g : jsstring) (e1 e2 : JsError) :
  JSON_parse text = Throw e1 ->
  TextRegex.matchCodeBlock text = Some g ->
  g <> [] ->
  JSON_parse (trim g) = Throw e2 ->
  parseLLMResponse (JStr text) = Ok (lowConfidence (trim text)).
Proof.
  intros Hdirect Hblock Hg Hinner. rewrite parseLLMResponse_cases.
  rewrite Hdirect, Hblock. destruct g as [|c g]; [done|]. by rewrite Hinner.
Qed.

End Attempts.

(** X25, at a text whose fenced block is prose and which holds a JSON
    object after it. *)
Lemma parseLLMResponse_fence_first_witness :
  let text :=
    js "```" ++ [LF] ++ js "oops" ++ [LF] ++ js "``` " ++ Sample.fixText in
  TextRegex.matchSpan 123 125 text = Some Sample.fixText
  /\ JSON_parse (H := Sample.runtime) Sample.fixText = Ok Sample.fixData
  /\ Analyser.parseLLMResponse (H := Sample.runtime) (JStr text)
     = Ok (Analyser.lowConfidence (trim text)).
Proof.
  intros text. split; [vm_compute; reflexivity|].
  split; [vm_compute; reflexivity|].
  eapply (parseLLMResponse_fence_first (H := Sample.runtime) text (js "oops"));
    [vm_compute; reflexivity|vm_compute; reflexivity|discriminate
    |vm_compute; reflexivity].
Defined.
